(** * core-js-101, [src/05-objects-tasks.js]: a shallow embedding

    The development models the three units of the source file:
    - the class [Test] and the facade [cssSelectorBuilder], which build CSS
      selector strings;
    - [Rectangle], a factory returning an object with a [getArea] method;
    - [getJSON] and [fromJSON], thin wrappers around the platform's JSON codec
      and [Object.setPrototypeOf].

    JavaScript objects are mutable and are passed by reference.  Instances of
    [Test] therefore live in a store; a method body is a state transformer
    on the instance it is called on, and it keeps the assignments it made
    also when it ends by throwing.  The values that the codec handles are
    immutable trees: the functions under study never share them.

    What belongs to the platform and not to the source file, [JSON.stringify],
    [JSON.parse], [Object.setPrototypeOf] and [*], is modelled after
    ECMA-262 or taken as a parameter. *)

From Stdlib Require Import ZArith NArith List Lia Bool Ascii.
From Stdlib Require Import Decimal DecimalString DecimalZ DecimalN DecimalPos DecimalFacts.
From stdpp Require Import base list strings.
Import ListNotations.

Local Open Scope Z_scope.
Local Open Scope string_scope.

#[local] Arguments String.append !_ _ : simpl nomatch.

(** ** Exceptions and completions *)

(** The exceptions that the modelled code can raise.  The source file itself
    only throws plain [Error] objects, told apart by their message;
    [TypeError] and [SyntaxError] come from the platform functions. *)
Inductive exception : Type :=
| Error (message : string)
| TypeError
| SyntaxError.

(** A call either returns a value or throws. *)
Inductive completion (A : Type) : Type :=
| Normal (a : A)
| Throw (e : exception).
Arguments Normal {A} a.
Arguments Throw {A} e.

Definition is_normal {A} (c : completion A) : bool :=
  match c with Normal _ => true | Throw _ => false end.

(** ** Computations on mutable state

    [comp S A] is a computation that runs on a state of type [S] and ends by
    returning an [A] or by throwing.  The state is returned in both cases:
    what a JavaScript function assigned before it throws stays assigned. *)
Definition comp (S A : Type) : Type := S -> completion A * S.

Definition ret {S A} (a : A) : comp S A := fun s => (Normal a, s).
Definition throw {S A} (e : exception) : comp S A := fun s => (Throw e, s).
Definition bind {S A B} (m : comp S A) (k : A -> comp S B) : comp S B :=
  fun s => match m s with
           | (Normal a, s') => k a s'
           | (Throw e, s') => (Throw e, s')
           end.
Definition this {S A} (f : S -> A) : comp S A := fun s => (Normal (f s), s).
Definition assign {S} (f : S -> S) : comp S unit := fun s => (Normal tt, f s).

Declare Scope comp_scope.
Delimit Scope comp_scope with comp.
Notation "x <- m ;; k" := (bind m (fun x => k))
  (at level 100, m at next level, right associativity) : comp_scope.
Notation "m ;; k" := (bind m (fun _ => k))
  (at level 100, right associativity) : comp_scope.
Local Open Scope comp_scope.

(** ** The class [Test] *)

Module Test.

(** The fields set by the constructor.  [string_] is the field [string]. *)
Record state : Type := mk {
  string_ : string;
  idc : Z;
  selector : Z;
  psel : Z;
  prev : string
}.

Definition constructor (val : string) : state :=
  {| string_ := val; idc := 0; selector := 0; psel := 0; prev := "" |}.

Definition set_string (s : string) (t : state) : state :=
  {| string_ := s; idc := idc t; selector := selector t; psel := psel t; prev := prev t |}.
Definition set_idc (n : Z) (t : state) : state :=
  {| string_ := string_ t; idc := n; selector := selector t; psel := psel t; prev := prev t |}.
Definition set_selector (n : Z) (t : state) : state :=
  {| string_ := string_ t; idc := idc t; selector := n; psel := psel t; prev := prev t |}.
Definition set_psel (n : Z) (t : state) : state :=
  {| string_ := string_ t; idc := idc t; selector := selector t; psel := n; prev := prev t |}.
Definition set_prev (p : string) (t : state) : state :=
  {| string_ := string_ t; idc := idc t; selector := selector t; psel := psel t; prev := p |}.

(** A method body runs on [this]. *)
Definition method (A : Type) : Type := comp state A.

Definition cardinality_message : string :=
  "Element, id and pseudo-element should not occur more then one time inside the selector".
Definition order_message : string :=
  "Selector parts should be arranged in the following order: element, id, class, attribute, pseudo-class, pseudo-element".

Definition exception1 : method unit :=
  fun t =>
    if (idc t =? 2)%Z || (selector t =? 2)%Z || (psel t =? 2)%Z
    then (Throw (Error cardinality_message), t)
    else (Normal tt, t).

Definition exception2 (value : string) : method unit :=
  fun t =>
    if negb (String.eqb (prev t) value) then
      if negb (String.eqb (prev t) "") then (Throw (Error order_message), t)
      else (Normal tt, t)
    else (Normal tt, t).

Definition element (value : string) : method unit :=
  assign (fun t => set_selector (selector t + 1) t) ;;
  exception1 ;;
  exception2 "element" ;;
  assign (set_prev "element") ;;
  assign (fun t => set_string (string_ t ++ value) t).

Definition stringify : method string := this string_.

Definition id (value : string) : method unit :=
  assign (fun t => set_idc (idc t + 1) t) ;;
  exception1 ;;
  exception2 "element" ;;
  p <- this prev ;;
  (if String.eqb p "psel" then throw (Error order_message) else ret tt) ;;
  assign (set_prev "id") ;;
  assign (fun t => set_string (string_ t ++ "#" ++ value) t).

Definition class (value : string) : method unit :=
  p <- this prev ;;
  (if String.eqb p "attr" then throw (Error order_message) else ret tt) ;;
  assign (set_prev "id") ;;
  assign (fun t => set_string (string_ t ++ "." ++ value) t).

Definition attr (value : string) : method unit :=
  p <- this prev ;;
  (if String.eqb p "pscl" then throw (Error order_message) else ret tt) ;;
  assign (set_prev "attr") ;;
  assign (fun t => set_string (string_ t ++ "[" ++ value ++ "]") t).

Definition pseudoClass (value : string) : method unit :=
  p <- this prev ;;
  (if String.eqb p "psel" then throw (Error order_message) else ret tt) ;;
  assign (set_prev "pscl") ;;
  assign (fun t => set_string (string_ t ++ ":" ++ value) t).

Definition pseudoElement (value : string) : method unit :=
  assign (set_prev "psel") ;;
  assign (fun t => set_psel (psel t + 1) t) ;;
  exception1 ;;
  assign (fun t => set_string (string_ t ++ "::" ++ value) t).

(** [selector1] and [selector2] are the two instances as they are when
    [combine] is called; [stringify] leaves them as they are. *)
Definition combine (selector1 : state) (combinator : string) (selector2 : state)
  : method unit :=
  let a := selector1 in
  let b := selector2 in
  match stringify a, stringify b with
  | (Normal sa, _), (Normal sb, _) =>
      assign (fun t => set_string (string_ t ++ (sa ++ " " ++ combinator ++ " " ++ sb)) t)
  | (Throw e, _), _ => throw e
  | _, (Throw e, _) => throw e
  end.

End Test.

(** ** The store of [Test] instances *)

(** A reference to an instance is its index in the store; [new] appends. *)
Abbreviation ref := nat (only parsing).
Abbreviation store := (list Test.state) (only parsing).
Definition js (A : Type) : Type := comp store A.

Definition new_Test (val : string) : js ref :=
  fun h => (Normal (length h), (h ++ [Test.constructor val])%list).

(** [call r m] runs the method body [m] with [this] bound to the instance at
    [r] and writes the instance back, whether [m] returned or threw. *)
Definition call {A} (r : ref) (m : Test.method A) : js A :=
  fun h => match h !! r with
           | Some t => let '(c, t') := m t in (c, <[r := t']> h)
           | None => (Throw TypeError, h)
           end.

(** The fragment methods end with [return this]. *)
Definition chained (r : ref) (m : Test.method unit) : js ref :=
  call r m ;; ret r.

Definition call_combine (r selector1 : ref) (combinator : string) (selector2 : ref)
  : js ref :=
  fun h => match h !! selector1, h !! selector2 with
           | Some a, Some b => chained r (Test.combine a combinator b) h
           | _, _ => (Throw TypeError, h)
           end.

(** ** The facade [cssSelectorBuilder] *)

Module cssSelectorBuilder.

Definition element (value : string) : js ref :=
  t <- new_Test "" ;; chained t (Test.element value).

Definition id (value : string) : js ref :=
  t <- new_Test "" ;; chained t (Test.id value).

Definition class (value : string) : js ref :=
  t <- new_Test "" ;; chained t (Test.class value).

Definition attr (value : string) : js ref :=
  t <- new_Test "" ;; chained t (Test.attr value).

Definition pseudoClass (value : string) : js ref :=
  t <- new_Test "" ;; chained t (Test.pseudoClass value).

Definition pseudoElement (value : string) : js ref :=
  t <- new_Test "" ;; chained t (Test.pseudoElement value).

Definition combine (selector1 : ref) (combinator : string) (selector2 : ref) : js ref :=
  test <- new_Test "" ;; call_combine test selector1 combinator selector2.

End cssSelectorBuilder.

(** ** Fragments and chains of calls *)

(** The six fragment-append calls, as data. *)
Inductive fragment : Type :=
| Element (value : string)
| Id (value : string)
| Class (value : string)
| Attr (value : string)
| PseudoClass (value : string)
| PseudoElement (value : string).

Definition append (f : fragment) : Test.method unit :=
  match f with
  | Element v => Test.element v
  | Id v => Test.id v
  | Class v => Test.class v
  | Attr v => Test.attr v
  | PseudoClass v => Test.pseudoClass v
  | PseudoElement v => Test.pseudoElement v
  end.

(** [x.f1(..).f2(..)...]: the calls run in order on one instance and the
    first exception ends the chain. *)
Fixpoint appends (fs : list fragment) : Test.method unit :=
  match fs with
  | [] => ret tt
  | f :: fs' => append f ;; appends fs'
  end.

(** The instance after the calls [fs] were made on it one by one by a caller
    that catches whatever they throw. *)
Fixpoint attempts (fs : list fragment) (t : Test.state) : Test.state :=
  match fs with
  | [] => t
  | f :: fs' => attempts fs' (snd (append f t))
  end.

(** The same calls through the facade: it serves the first call of a chain. *)
Definition start (f : fragment) : js ref :=
  match f with
  | Element v => cssSelectorBuilder.element v
  | Id v => cssSelectorBuilder.id v
  | Class v => cssSelectorBuilder.class v
  | Attr v => cssSelectorBuilder.attr v
  | PseudoClass v => cssSelectorBuilder.pseudoClass v
  | PseudoElement v => cssSelectorBuilder.pseudoElement v
  end.

Fixpoint continue (r : ref) (fs : list fragment) : js ref :=
  match fs with
  | [] => ret r
  | f :: fs' => r' <- chained r (append f) ;; continue r' fs'
  end.

Definition build (f : fragment) (fs : list fragment) : js ref :=
  r <- start f ;; continue r fs.

Definition build_and_stringify (f : fragment) (fs : list fragment) : js string :=
  r <- build f fs ;; call r Test.stringify.

(** *** The rules of the builder as the specification words them *)

(** The place of a fragment in the order element-type, id, class,
    attribute, pseudo-class, pseudo-element. *)
Definition category (f : fragment) : nat :=
  match f with
  | Element _ => 0
  | Id _ => 1
  | Class _ => 2
  | Attr _ => 3
  | PseudoClass _ => 4
  | PseudoElement _ => 5
  end%nat.

(** The text of a fragment: its value with the prefix of its category. *)
Definition fragment_text (f : fragment) : string :=
  match f with
  | Element v => v
  | Id v => "#" ++ v
  | Class v => "." ++ v
  | Attr v => "[" ++ v ++ "]"
  | PseudoClass v => ":" ++ v
  | PseudoElement v => "::" ++ v
  end.

Fixpoint concat_texts (fs : list fragment) : string :=
  match fs with
  | [] => ""
  | f :: fs' => fragment_text f ++ concat_texts fs'
  end.

Definition CardinalityError : exception := Error Test.cardinality_message.
Definition OrderError : exception := Error Test.order_message.

(** The fragments of which an instance takes one only. *)
Definition same_kind (f g : fragment) : bool :=
  match f, g with
  | Element _, Element _ | Id _, Id _ | PseudoElement _, PseudoElement _ => true
  | _, _ => false
  end.

Definition once_only (f : fragment) : bool := same_kind f f.

(** How many of the calls [fs] are of the kind of [f]. *)
Fixpoint occurrences (f : fragment) (fs : list fragment) : nat :=
  match fs with
  | [] => 0
  | g :: fs' => (if same_kind f g then 1 else 0) + occurrences f fs'
  end%nat.

(** The marker that a fragment call leaves in [prev] when it returns. *)
Definition marker (f : fragment) : string :=
  match f with
  | Element _ => "element"
  | Id _ | Class _ => "id"
  | Attr _ => "attr"
  | PseudoClass _ => "pscl"
  | PseudoElement _ => "psel"
  end.

(** The counters of an instance on which no call has thrown. *)
Definition counted_once (t : Test.state) : Prop :=
  (0 <= Test.idc t <= 1)%Z /\ (0 <= Test.selector t <= 1)%Z /\ (0 <= Test.psel t <= 1)%Z.

(** The three places where a smaller category passes. *)
Definition order_gap (f l : fragment) : bool :=
  match f, l with
  | Class _, PseudoClass _ | Class _, PseudoElement _ | Attr _, PseudoElement _ => true
  | _, _ => false
  end.

(** ** JavaScript values *)

(** The values [getJSON] and [fromJSON] handle.  Numbers are the integers, on
    which the platform's decimal notation is exact; strings are sequences of
    code units below 256.  A function is an opaque value known by its name.
    An object holds its prototype and its own properties in the order in
    which the platform enumerates them. *)
#[local] Unset Elimination Schemes.
Inductive value : Type :=
| VUndefined
| VNull
| VBoolean (b : bool)
| VNumber (n : Z)
| VString (s : string)
| VFunction (name : string)
| VArray (prototype : value) (elements : list value)
| VObject (prototype : value) (properties : list (string * value)).

#[local] Set Elimination Schemes.

Definition Object_prototype : value := VObject VNull [].
Definition Array_prototype : value := VObject Object_prototype [].

Definition is_object (v : value) : bool :=
  match v with
  | VFunction _ | VArray _ _ | VObject _ _ => true
  | _ => false
  end.

Fixpoint lookup_property (key : string) (props : list (string * value)) : option value :=
  match props with
  | [] => None
  | (k, v) :: props' => if String.eqb k key then Some v else lookup_property key props'
  end.

Definition keys (props : list (string * value)) : list string := map fst props.

Definition getPrototypeOf (v : value) : value :=
  match v with
  | VArray p _ | VObject p _ => p
  | _ => VNull
  end.

(** *** Decimal digits and array indices *)

Definition digit_of_char (c : ascii) : option (uint -> uint) :=
  match N_of_ascii c with
  | 48 => Some D0 | 49 => Some D1 | 50 => Some D2 | 51 => Some D3
  | 52 => Some D4 | 53 => Some D5 | 54 => Some D6 | 55 => Some D7
  | 56 => Some D8 | 57 => Some D9
  | _ => None
  end%N.

(** The longest run of decimal digits at the head of [s], and what follows. *)
Fixpoint parse_digits (s : string) : uint * string :=
  match s with
  | EmptyString => (Nil, EmptyString)
  | String c r =>
      match digit_of_char c with
      | Some D => let '(d, r') := parse_digits r in (D d, r')
      | None => (Nil, s)
      end
  end.

(** A property key is an array index when it is the canonical decimal
    notation of an integer from 0 to 2^32 - 2. *)
Definition array_index (key : string) : option N :=
  match parse_digits key with
  | (Nil, _) => None
  | (d, EmptyString) =>
      if uint_beq (unorm d) d && (N.of_uint d <=? 4294967294)%N
      then Some (N.of_uint d) else None
  | (_, String _ _) => None
  end.

(** [Number::toString] on an integer. *)
Definition Number_toString (n : Z) : string := NilZero.string_of_int (Z.to_int n).

(** The own property [key] of an array or object. *)
Definition get_own (v : value) (key : string) : option value :=
  match v with
  | VObject _ props => lookup_property key props
  | VArray _ elements =>
      match array_index key with
      | Some i => nth_error elements (N.to_nat i)
      | None =>
          if String.eqb key "length" then Some (VNumber (Z.of_nat (length elements)))
          else None
      end
  | _ => None
  end.

(** [obj.key]: the own property, else the prototype chain. *)
Fixpoint get (v : value) (key : string) : value :=
  match v with
  | VArray p _ | VObject p _ =>
      match get_own v key with
      | Some x => x
      | None => get p key
      end
  | _ => VUndefined
  end.

Definition is_container (v : value) : bool :=
  match v with
  | VArray _ _ | VObject _ _ => true
  | _ => false
  end.

(** [Object.setPrototypeOf(O, proto)]: [O] must not be undefined or null,
    [proto] must be an object or null, and a primitive [O] is returned as it
    is.  (The prototype of a function object is not recorded.) *)
Definition Object_setPrototypeOf (O proto : value) : completion value :=
  match O with
  | VUndefined | VNull => Throw TypeError
  | _ =>
      if is_object proto || match proto with VNull => true | _ => false end then
        match O with
        | VArray _ elements => Normal (VArray proto elements)
        | VObject _ props => Normal (VObject proto props)
        | _ => Normal O
        end
      else Throw TypeError
  end.

(** ** The functions [getJSON] and [fromJSON]

    [JSON.stringify] returns a text, or [undefined] where the value has no
    JSON text; [JSON.parse] returns a value or throws a [SyntaxError]. *)
Section Codec.

Variable JSON_stringify : value -> option string.
Variable JSON_parse : string -> option value.

Definition getJSON (obj : value) : option string := JSON_stringify obj.

Definition fromJSON (proto : value) (json : string) : completion value :=
  match JSON_parse json with
  | None => Throw SyntaxError
  | Some parsed => Object_setPrototypeOf parsed proto
  end.

End Codec.

(** ** The platform's JSON codec

    [JSON.stringify] without replacer and indentation, and [JSON.parse]
    without reviver, on the values above.  Hooks ([toJSON]) are never called:
    functions are opaque.  Texts that denote a value outside the model, a
    number with a fraction or an exponent or a [\u] escape above [00ff], are
    not accepted by this [parse]. *)
Module JSON.

Definition dquote : ascii := "034"%char.
Definition backslash : ascii := "092"%char.

Definition hex_digit (n : N) : ascii :=
  if (n <? 10)%N then ascii_of_N (48 + n) else ascii_of_N (87 + n).

Definition hex_value (c : ascii) : option N :=
  let n := N_of_ascii c in
  if (48 <=? n)%N && (n <=? 57)%N then Some (n - 48)%N
  else if (97 <=? n)%N && (n <=? 102)%N then Some (n - 87)%N
  else if (65 <=? n)%N && (n <=? 70)%N then Some (n - 55)%N
  else None.

(** *** [JSON.stringify] *)

(** One code unit inside a quoted string. *)
Definition quote_char (c : ascii) : string :=
  let n := N_of_ascii c in
  if (n =? 8)%N then String backslash "b"
  else if (n =? 9)%N then String backslash "t"
  else if (n =? 10)%N then String backslash "n"
  else if (n =? 12)%N then String backslash "f"
  else if (n =? 13)%N then String backslash "r"
  else if (n =? 34)%N then String backslash (String dquote "")
  else if (n =? 92)%N then String backslash (String backslash "")
  else if (n <? 32)%N then
    String backslash
      ("u00" ++ String (hex_digit (n / 16)) (String (hex_digit (n mod 16)) ""))
  else String c "".

Fixpoint quote_chars (s : string) : string :=
  match s with
  | EmptyString => ""
  | String c r => quote_char c ++ quote_chars r
  end.

Definition QuoteJSONString (s : string) : string :=
  String dquote (quote_chars s ++ String dquote "").

Fixpoint join (texts : list string) : string :=
  match texts with
  | [] => ""
  | [t] => t
  | t :: texts' => t ++ "," ++ join texts'
  end.

(** [None] is [undefined]: the value has no JSON text. *)
Fixpoint serialize (v : value) : option string :=
  match v with
  | VUndefined => None
  | VFunction _ => None
  | VNull => Some "null"
  | VBoolean true => Some "true"
  | VBoolean false => Some "false"
  | VNumber n => Some (Number_toString n)
  | VString s => Some (QuoteJSONString s)
  | VArray _ elements =>
      let fix items (l : list value) : list string :=
        match l with
        | [] => []
        | e :: l' =>
            match serialize e with
            | Some t => t
            | None => "null"
            end :: items l'
        end in
      Some ("[" ++ join (items elements) ++ "]")
  | VObject _ props =>
      let fix members (l : list (string * value)) : list string :=
        match l with
        | [] => []
        | (k, x) :: l' =>
            match serialize x with
            | Some t => (QuoteJSONString k ++ ":" ++ t) :: members l'
            | None => members l'
            end
        end in
      Some ("{" ++ join (members props) ++ "}")
  end.

Definition stringify (v : value) : option string := serialize v.

(** *** [JSON.parse] *)

Definition is_whitespace (c : ascii) : bool :=
  let n := N_of_ascii c in
  (n =? 32)%N || (n =? 9)%N || (n =? 10)%N || (n =? 13)%N.

Fixpoint skip_whitespace (s : string) : string :=
  match s with
  | EmptyString => ""
  | String c r => if is_whitespace c then skip_whitespace r else s
  end.

(** The character that a one-letter escape stands for. *)
Definition unescape (c : ascii) : option ascii :=
  let n := N_of_ascii c in
  if (n =? 34)%N then Some dquote
  else if (n =? 92)%N then Some backslash
  else if (n =? 47)%N then Some "/"%char
  else if (n =? 98)%N then Some (ascii_of_N 8)
  else if (n =? 102)%N then Some (ascii_of_N 12)
  else if (n =? 110)%N then Some (ascii_of_N 10)
  else if (n =? 114)%N then Some (ascii_of_N 13)
  else if (n =? 116)%N then Some (ascii_of_N 9)
  else None.

Definition hex4 (a b c d : ascii) : option N :=
  match hex_value a, hex_value b, hex_value c, hex_value d with
  | Some x, Some y, Some z, Some w => Some (((x * 16 + y) * 16 + z) * 16 + w)%N
  | _, _, _, _ => None
  end.

Definition prepend (c : ascii) (r : option (string * string)) : option (string * string) :=
  match r with
  | Some (s, rest) => Some (String c s, rest)
  | None => None
  end.

(** The characters of a string literal after its opening quote, up to and
    including the closing quote. *)
Fixpoint parse_chars (s : string) : option (string * string) :=
  match s with
  | EmptyString => None
  | String c r =>
      let n := N_of_ascii c in
      if (n =? 34)%N then Some ("", r)
      else if (n =? 92)%N then
        match r with
        | EmptyString => None
        | String e r1 =>
            match unescape e with
            | Some ch => prepend ch (parse_chars r1)
            | None =>
                if (N_of_ascii e =? 117)%N then
                  match r1 with
                  | String h1 (String h2 (String h3 (String h4 r2))) =>
                      match hex4 h1 h2 h3 h4 with
                      | Some code =>
                          if (code <? 256)%N
                          then prepend (ascii_of_N code) (parse_chars r2)
                          else None
                      | None => None
                      end
                  | _ => None
                  end
                else None
            end
        end
      else if (n <? 32)%N then None
      else prepend c (parse_chars r)
  end.

(** A number token may not be followed by the start of a fraction or of an
    exponent (the model has integers only). *)
Definition continues_number (s : string) : bool :=
  match s with
  | EmptyString => false
  | String c _ =>
      let n := N_of_ascii c in
      (n =? 46)%N || (n =? 101)%N || (n =? 69)%N
  end.

(** The digits of a number token: [0], or a digit other than [0] and then
    any digits. *)
Definition parse_natural (s : string) : option (uint * string) :=
  match parse_digits s with
  | (Nil, _) => None
  | (D0 Nil, r) => if continues_number r then None else Some (D0 Nil, r)
  | (D0 _, _) => None
  | (d, r) => if continues_number r then None else Some (d, r)
  end.

Definition parse_number (s : string) : option (Z * string) :=
  match s with
  | String c r =>
      if (N_of_ascii c =? 45)%N then
        match parse_natural r with
        | Some (d, r') => Some (Z.of_int (Neg d), r')
        | None => None
        end
      else
        match parse_natural s with
        | Some (d, r') => Some (Z.of_int (Pos d), r')
        | None => None
        end
  | EmptyString => None
  end.

(** [s] starts with the keyword [word]: what follows it. *)
Fixpoint keyword (word s : string) : option string :=
  match word with
  | EmptyString => Some s
  | String w word' =>
      match s with
      | String c r => if Ascii.eqb c w then keyword word' r else None
      | EmptyString => None
      end
  end.

(** *** Building the object of an object literal *)

Definition has_key (key : string) (props : list (string * value)) : bool :=
  existsb (String.eqb key) (keys props).

Fixpoint replace_property (key : string) (v : value) (props : list (string * value))
  : list (string * value) :=
  match props with
  | [] => []
  | (k, x) :: props' =>
      if String.eqb k key then (k, v) :: props'
      else (k, x) :: replace_property key v props'
  end.

(** A new array-index key goes after the smaller indices and before
    everything else. *)
Fixpoint insert_index (i : N) (key : string) (v : value) (props : list (string * value))
  : list (string * value) :=
  match props with
  | [] => [(key, v)]
  | (k, x) :: props' =>
      match array_index k with
      | Some j =>
          if (j <? i)%N then (k, x) :: insert_index i key v props'
          else (key, v) :: props
      | None => (key, v) :: props
      end
  end.

(** [CreateDataProperty]: an existing key keeps its place and takes the new
    value; a new key is enumerated after the existing ones of its sort,
    array indices in ascending order before the other keys. *)
Definition define_property (key : string) (v : value) (props : list (string * value))
  : list (string * value) :=
  if has_key key props then replace_property key v props
  else
    match array_index key with
    | Some i => insert_index i key v props
    | None => (props ++ [(key, v)])%list
    end.

Definition char_is (n : N) (c : ascii) : bool := (N_of_ascii c =? n)%N.

(** *** The recursive-descent parser

    [fuel] bounds the number of nested calls; [parse] gives it the length of
    the text, which the parser cannot use up. *)
Fixpoint parse_value (fuel : nat) (s : string) : option (value * string) :=
  match fuel with
  | O => None
  | S fuel' =>
      match skip_whitespace s with
      | EmptyString => None
      | String c r as s' =>
          if char_is 123 c then
            match skip_whitespace r with
            | String c' r' =>
                if char_is 125 c' then Some (VObject Object_prototype [], r')
                else parse_members fuel' [] r
            | EmptyString => None
            end
          else if char_is 91 c then
            match skip_whitespace r with
            | String c' r' =>
                if char_is 93 c' then Some (VArray Array_prototype [], r')
                else parse_elements fuel' [] r
            | EmptyString => None
            end
          else if char_is 34 c then
            match parse_chars r with
            | Some (str, r') => Some (VString str, r')
            | None => None
            end
          else if char_is 116 c then
            match keyword "true" s' with
            | Some r' => Some (VBoolean true, r')
            | None => None
            end
          else if char_is 102 c then
            match keyword "false" s' with
            | Some r' => Some (VBoolean false, r')
            | None => None
            end
          else if char_is 110 c then
            match keyword "null" s' with
            | Some r' => Some (VNull, r')
            | None => None
            end
          else
            match parse_number s' with
            | Some (n, r') => Some (VNumber n, r')
            | None => None
            end
      end
  end
with parse_elements (fuel : nat) (acc : list value) (s : string)
  : option (value * string) :=
  match fuel with
  | O => None
  | S fuel' =>
      match parse_value fuel' s with
      | Some (v, r) =>
          match skip_whitespace r with
          | String c r' =>
              if char_is 44 c then parse_elements fuel' (acc ++ [v])%list r'
              else if char_is 93 c then Some (VArray Array_prototype (acc ++ [v])%list, r')
              else None
          | EmptyString => None
          end
      | None => None
      end
  end
with parse_members (fuel : nat) (acc : list (string * value)) (s : string)
  : option (value * string) :=
  match fuel with
  | O => None
  | S fuel' =>
      match skip_whitespace s with
      | String q r =>
          if char_is 34 q then
            match parse_chars r with
            | Some (key, r1) =>
                match skip_whitespace r1 with
                | String c r2 =>
                    if char_is 58 c then
                      match parse_value fuel' r2 with
                      | Some (v, r3) =>
                          match skip_whitespace r3 with
                          | String c' r4 =>
                              if char_is 44 c' then
                                parse_members fuel' (define_property key v acc) r4
                              else if char_is 125 c' then
                                Some (VObject Object_prototype (define_property key v acc), r4)
                              else None
                          | EmptyString => None
                          end
                      | None => None
                      end
                    else None
                | EmptyString => None
                end
            | None => None
            end
          else None
      | EmptyString => None
      end
  end.

(** The whole text is one value, with white space around it at most. *)
Definition parse (text : string) : option value :=
  match parse_value (S (String.length text)) text with
  | Some (v, rest) =>
      match skip_whitespace rest with
      | EmptyString => Some v
      | String _ _ => None
      end
  | None => None
  end.

End JSON.

(** ** The factory [Rectangle] *)

(** [obj.key = v] on an object: an own data property is set or added. *)
Definition assign_property (obj : value) (key : string) (v : value) : value :=
  match obj with
  | VObject p props => VObject p (JSON.define_property key v props)
  | _ => obj
  end.

(** The object literal of [Rectangle]: the two arguments under the keys
    [width] and [height], and the method under the key [getArea]. *)
Definition Rectangle (width height : value) : value :=
  VObject Object_prototype
    [("width", width); ("height", height); ("getArea", VFunction "getArea")].

(** The body of the method, with the object it is called on as [this].  The
    embedding is generic in what the platform's [*] computes. *)
Section getArea.

Variable multiply : value -> value -> value.

Definition getArea (this : value) : value :=
  multiply (get this "width") (get this "height").

End getArea.

(** [*] on two integers.  (Other operands are of no concern here: the result
    for them is a stand-in.) *)
Definition integer_product (a b : value) : value :=
  match a, b with
  | VNumber x, VNumber y => VNumber (x * y)
  | _, _ => VUndefined
  end.

(** A text in double quotes, for writing down the inputs of examples. *)
Definition quoted (s : string) : string :=
  String JSON.dquote (s ++ String JSON.dquote "").

(** ** Plain data

    The values that are made of JSON data only: null, booleans, numbers,
    strings, and arrays and objects of such with the prototypes that array
    and object literals give them.  The numbers are the safe integers, up to
    2^53 - 1 in absolute value: these are numbers of the platform, which
    writes them digit by digit. *)

Definition is_function (v : value) : bool :=
  match v with VFunction _ => true | _ => false end.

Definition is_index (key : string) : bool :=
  match array_index key with Some _ => true | None => false end.

Fixpoint distinct (ks : list string) : bool :=
  match ks with
  | [] => true
  | k :: ks' => negb (existsb (String.eqb k) ks') && distinct ks'
  end.

(** Array indices from [lo] on in ascending order, then keys of the other
    sort only. *)
Fixpoint indices_first (lo : N) (ks : list string) : bool :=
  match ks with
  | [] => true
  | k :: ks' =>
      match array_index k with
      | Some i => (lo <=? i)%N && indices_first (i + 1) ks'
      | None => forallb (fun k' => negb (is_index k')) ks'
      end
  end.

(** The own keys of an object are distinct and the platform enumerates the
    array indices among them first. *)
Definition enumeration_order (ks : list string) : bool :=
  distinct ks && indices_first 0 ks.

Fixpoint data (v : value) : bool :=
  match v with
  | VUndefined | VFunction _ => false
  | VNull | VBoolean _ | VString _ => true
  | VNumber n => (Z.abs n <=? 9007199254740991)%Z
  | VArray p elements =>
      match p with
      | VObject (VObject VNull []) [] => forallb data elements
      | _ => false
      end
  | VObject p props =>
      match p with
      | VObject VNull [] =>
          forallb (fun kv => data (snd kv)) props && enumeration_order (keys props)
      | _ => false
      end
  end.

(** The content of an array or object, whatever its prototype. *)
Definition literal (v : value) : value :=
  match v with
  | VArray _ elements => VArray Array_prototype elements
  | VObject _ props => VObject Object_prototype props
  | _ => v
  end.

(** A value built by a template's constructor from plain data: an array or
    an object ([null] is neither) whose prototype is an object or null and
    has no callable [toJSON]. *)
Definition structural (v : value) : bool :=
  match v with
  | VArray p _ | VObject p _ =>
      (is_object p || match p with VNull => true | _ => false end)
      && negb (is_function (get v "toJSON"))
      && data (literal v)
  | _ => false
  end.

(** An example of a template: the prototype of a constructor [Circle] with
    one method. *)
Definition Circle_prototype : value :=
  VObject Object_prototype
    [("constructor", VFunction "Circle");
     ("getCircumference", VFunction "getCircumference")].

(** The fragments that returned among the calls [fs] made one by one on [t]. *)
Fixpoint appended (fs : list fragment) (t : Test.state) : list fragment :=
  match fs with
  | [] => []
  | f :: fs' =>
      if is_normal (fst (append f t)) then f :: appended fs' (snd (append f t))
      else appended fs' (snd (append f t))
  end.

(** ** Chains that obey the rules

    The categories of [fs] do not decrease and start at [lo] or above. *)
Fixpoint ordered_from (lo : nat) (fs : list fragment) : bool :=
  match fs with
  | [] => true
  | f :: fs' => (lo <=? category f)%nat && ordered_from (category f) fs'
  end.

(** The rules of the documentation on a whole chain: the parts in the order
    element, id, class, attribute, pseudo-class, pseudo-element, and element,
    id and pseudo-element once at most. *)
Definition obeys_rules (fs : list fragment) : bool :=
  ordered_from 0 fs
  && (occurrences (Element "") fs <=? 1)%nat
  && (occurrences (Id "") fs <=? 1)%nat
  && (occurrences (PseudoElement "") fs <=? 1)%nat.

(** The counter that a fragment call increments. *)
Definition counter_of (f : fragment) (t : Test.state) : Z :=
  match f with
  | Element _ => Test.selector t
  | Id _ => Test.idc t
  | PseudoElement _ => Test.psel t
  | _ => 0
  end.

(** What [fs] may follow on an instance: the marker is empty or the one of a
    fragment of a category up to [lo], and each counter has room for the
    calls of its kind in [fs]. *)
Definition admits (t : Test.state) (lo : nat) (fs : list fragment) : Prop :=
  (Test.prev t = "" \/
   exists l, Test.prev t = marker l /\ (category l <= lo)%nat /\
             (once_only l = true -> 1 <= counter_of l t)%Z) /\
  (0 <= Test.selector t /\ Test.selector t + Z.of_nat (occurrences (Element "") fs) <= 1)%Z /\
  (0 <= Test.idc t /\ Test.idc t + Z.of_nat (occurrences (Id "") fs) <= 1)%Z /\
  (0 <= Test.psel t /\ Test.psel t + Z.of_nat (occurrences (PseudoElement "") fs) <= 1)%Z.

(** ** Auxiliary definitions of the proofs *)

(** The texts that [JSON.serialize] joins for an array and for an object. *)
Definition item (e : value) : string :=
  match JSON.serialize e with Some t => t | None => "null" end.

Definition items (es : list value) : list string := map item es.

Fixpoint members (props : list (string * value)) : list string :=
  match props with
  | [] => []
  | (k, x) :: props' =>
      match JSON.serialize x with
      | Some t => (JSON.QuoteJSONString k ++ ":" ++ t) :: members props'
      | None => members props'
      end
  end.

(** Fuel that is enough for the parser to read the text of a value back. *)
Fixpoint need (v : value) : nat :=
  match v with
  | VArray _ es =>
      S ((fix go (l : list value) : nat :=
            match l with
            | [] => 0
            | e :: l' => S (Nat.max (need e) (go l'))
            end) es)
  | VObject _ props =>
      S ((fix go (l : list (string * value)) : nat :=
            match l with
            | [] => 0
            | (_, x) :: l' => S (Nat.max (need x) (go l'))
            end) props)
  | _ => 1
  end%nat.

Fixpoint need_items (es : list value) : nat :=
  match es with
  | [] => 0
  | e :: es' => S (Nat.max (need e) (need_items es'))
  end%nat.

Fixpoint need_members (props : list (string * value)) : nat :=
  match props with
  | [] => 0
  | (_, x) :: props' => S (Nat.max (need x) (need_members props'))
  end%nat.

Definition no_digit_head (s : string) : bool :=
  match s with
  | EmptyString => true
  | String c _ => match digit_of_char c with Some _ => false | None => true end
  end.

Definition leading_nonzero (d : uint) : bool :=
  match d with
  | Nil | D0 _ => false
  | _ => true
  end.

(** What may follow the text of a number. *)
Definition number_stop (rest : string) : bool :=
  no_digit_head rest && negb (JSON.continues_number rest).

(** The characters with which the text of a value starts, and those with
    which the text of a number starts. *)
Definition value_head (c : ascii) : bool :=
  let n := N_of_ascii c in
  (n =? 123)%N || (n =? 91)%N || (n =? 34)%N || (n =? 116)%N || (n =? 102)%N
  || (n =? 110)%N || (n =? 45)%N || ((48 <=? n)%N && (n <=? 57)%N).

Definition number_head (c : ascii) : bool :=
  let n := N_of_ascii c in (n =? 45)%N || ((48 <=? n)%N && (n <=? 57)%N).

(** The parser reads the text of [v] back, whatever follows the text. *)
Definition parses_back (v : value) : Prop :=
  data v = true ->
  forall text, JSON.serialize v = Some text ->
  forall (fuel : nat) (rest : string),
    (need v <= fuel)%nat -> number_stop rest = true ->
    JSON.parse_value fuel (text ++ rest) = Some (v, rest).

(** The properties [props] defined one after the other on top of [acc]. *)
Definition define_all (props acc : list (string * value)) : list (string * value) :=
  fold_left (fun a kv => JSON.define_property (fst kv) (snd kv) a) props acc.

(** ** JSON texts

    The grammar of JSON texts (ECMA-404, in the form of json.org), which
    decides whether [JSON.parse] throws its [SyntaxError], and a reader for
    the whole of it: fractions, exponents and every escape included.  A text
    is the string of its code units, code units below 256 as for the strings
    above. *)
Module Grammar.

(** [c] is one of the characters of [chars]. *)
Definition one_of (chars : string) (c : ascii) : Prop :=
  In c (String.list_ascii_of_string chars).

Definition digit : ascii -> Prop := one_of "0123456789".
Definition onenine : ascii -> Prop := one_of "123456789".
Definition hex : ascii -> Prop := one_of "0123456789abcdefABCDEF".

(** White space: space, line feed, carriage return, horizontal tab. *)
Inductive ws : string -> Prop :=
| ws_none : ws ""
| ws_more (c : ascii) (w : string) :
    In c [" "; "010"; "013"; "009"]%char -> ws w -> ws (String c w).

Inductive digits : string -> Prop :=
| digits_one (d : ascii) : digit d -> digits (String d "")
| digits_more (d : ascii) (ds : string) : digit d -> digits ds -> digits (String d ds).

Inductive integer : string -> Prop :=
| integer_digit (d : ascii) : digit d -> integer (String d "")
| integer_digits (d : ascii) (ds : string) :
    onenine d -> digits ds -> integer (String d ds)
| integer_minus_digit (d : ascii) : digit d -> integer (String "-" (String d ""))
| integer_minus_digits (d : ascii) (ds : string) :
    onenine d -> digits ds -> integer (String "-" (String d ds)).

Inductive fraction : string -> Prop :=
| fraction_none : fraction ""
| fraction_digits (ds : string) : digits ds -> fraction (String "." ds).

Inductive sign : string -> Prop :=
| sign_none : sign ""
| sign_plus : sign "+"
| sign_minus : sign "-".

Inductive exponent : string -> Prop :=
| exponent_none : exponent ""
| exponent_E (s ds : string) : sign s -> digits ds -> exponent (String "E" (s ++ ds))
| exponent_e (s ds : string) : sign s -> digits ds -> exponent (String "e" (s ++ ds)).

Inductive number : string -> Prop :=
| number_parts (i f e : string) :
    integer i -> fraction f -> exponent e -> number (i ++ f ++ e).

(** The characters between the quotes of a string: any code unit from
    [0020] on but the quote and the backslash, or an escape. *)
Inductive characters : string -> Prop :=
| characters_none : characters ""
| characters_plain (c : ascii) (cs : string) :
    (32 <= N_of_ascii c)%N -> c <> JSON.dquote -> c <> JSON.backslash ->
    characters cs -> characters (String c cs)
| characters_escape (e : ascii) (cs : string) :
    In e [JSON.dquote; JSON.backslash; "/"; "b"; "f"; "n"; "r"; "t"]%char ->
    characters cs -> characters (String JSON.backslash (String e cs))
| characters_unicode (h1 h2 h3 h4 : ascii) (cs : string) :
    hex h1 -> hex h2 -> hex h3 -> hex h4 -> characters cs ->
    characters (String JSON.backslash
                  (String "u" (String h1 (String h2 (String h3 (String h4 cs)))))).

Definition string_literal (cs : string) : string :=
  String JSON.dquote (cs ++ String JSON.dquote "").

Inductive value : string -> Prop :=
| value_object_empty (w : string) : ws w -> value ("{" ++ w ++ "}")
| value_object (ms : string) : members ms -> value ("{" ++ ms ++ "}")
| value_array_empty (w : string) : ws w -> value ("[" ++ w ++ "]")
| value_array (es : string) : elements es -> value ("[" ++ es ++ "]")
| value_string (cs : string) : characters cs -> value (string_literal cs)
| value_number (n : string) : number n -> value n
| value_true : value "true"
| value_false : value "false"
| value_null : value "null"
with members : string -> Prop :=
| members_one (m : string) : member m -> members m
| members_more (m ms : string) : member m -> members ms -> members (m ++ "," ++ ms)
with member : string -> Prop :=
| member_pair (w1 cs w2 e : string) :
    ws w1 -> characters cs -> ws w2 -> element e ->
    member (w1 ++ string_literal cs ++ w2 ++ ":" ++ e)
with elements : string -> Prop :=
| elements_one (e : string) : element e -> elements e
| elements_more (e es : string) : element e -> elements es -> elements (e ++ "," ++ es)
with element : string -> Prop :=
| element_value (w1 v w2 : string) : ws w1 -> value v -> ws w2 -> element (w1 ++ v ++ w2).

(** A JSON text is an element: a value, with white space around it at
    most. *)
Definition well_formed (text : string) : Prop := element text.

End Grammar.

(** *** Reading a text of the whole grammar

    The tree of a text: a number with its token, a string with its code
    units (a [\u] escape stands for any of the 65536), an object with its
    members in the order of the text. *)
#[local] Unset Elimination Schemes.
Inductive tree : Type :=
| TNull
| TBoolean (b : bool)
| TNumber (token : string)
| TString (units : list N)
| TArray (elements : list tree)
| TObject (members : list (list N * tree)).

#[local] Set Elimination Schemes.

Module Reader.

Definition is_digit (c : ascii) : bool :=
  let n := N_of_ascii c in (48 <=? n)%N && (n <=? 57)%N.

Definition is_onenine (c : ascii) : bool :=
  let n := N_of_ascii c in (49 <=? n)%N && (n <=? 57)%N.

(** The digits that [s] starts with, and what follows them. *)
Fixpoint read_digits (s : string) : string * string :=
  match s with
  | String c r =>
      if is_digit c then let (d, r') := read_digits r in (String c d, r')
      else ("", s)
  | EmptyString => ("", "")
  end.

Definition read_integer (s : string) : option (string * string) :=
  match s with
  | String c r =>
      if JSON.char_is 48 c then Some (String c "", r)
      else if is_onenine c then let (d, r') := read_digits r in Some (String c d, r')
      else None
  | EmptyString => None
  end.

Definition read_fraction (s : string) : option (string * string) :=
  match s with
  | String c r =>
      if JSON.char_is 46 c then
        match read_digits r with
        | (EmptyString, _) => None
        | (d, r') => Some (String c d, r')
        end
      else Some ("", s)
  | EmptyString => Some ("", "")
  end.

Definition read_sign (s : string) : string * string :=
  match s with
  | String c r =>
      if JSON.char_is 43 c || JSON.char_is 45 c then (String c "", r) else ("", s)
  | EmptyString => ("", "")
  end.

Definition read_exponent (s : string) : option (string * string) :=
  match s with
  | String c r =>
      if JSON.char_is 101 c || JSON.char_is 69 c then
        let (sg, r1) := read_sign r in
        match read_digits r1 with
        | (EmptyString, _) => None
        | (d, r2) => Some (String c (sg ++ d), r2)
        end
      else Some ("", s)
  | EmptyString => Some ("", "")
  end.

(** The number token that [s] starts with: an optional minus, [0] or a
    digit other than [0] and then any digits, an optional fraction, an
    optional exponent. *)
Definition read_number (s : string) : option (string * string) :=
  let (minus, s1) :=
    match s with
    | String c r => if JSON.char_is 45 c then (String c "", r) else ("", s)
    | EmptyString => ("", s)
    end in
  match read_integer s1 with
  | Some (i, s2) =>
      match read_fraction s2 with
      | Some (f, s3) =>
          match read_exponent s3 with
          | Some (e, s4) => Some (minus ++ i ++ f ++ e, s4)
          | None => None
          end
      | None => None
      end
  | None => None
  end.

Definition prepend (u : N) (r : option (list N * string)) : option (list N * string) :=
  match r with
  | Some (us, rest) => Some (u :: us, rest)
  | None => None
  end.

(** The characters of a string literal after its opening quote, up to and
    including the closing quote. *)
Fixpoint read_chars (s : string) : option (list N * string) :=
  match s with
  | EmptyString => None
  | String c r =>
      let n := N_of_ascii c in
      if (n =? 34)%N then Some ([], r)
      else if (n =? 92)%N then
        match r with
        | EmptyString => None
        | String e r1 =>
            match JSON.unescape e with
            | Some ch => prepend (N_of_ascii ch) (read_chars r1)
            | None =>
                if (N_of_ascii e =? 117)%N then
                  match r1 with
                  | String h1 (String h2 (String h3 (String h4 r2))) =>
                      match JSON.hex4 h1 h2 h3 h4 with
                      | Some code => prepend code (read_chars r2)
                      | None => None
                      end
                  | _ => None
                  end
                else None
            end
        end
      else if (n <? 32)%N then None
      else prepend n (read_chars r)
  end.

(** [fuel] bounds the number of nested calls; [read] gives it the length of
    the text, which the reader cannot use up. *)
Fixpoint read_value (fuel : nat) (s : string) : option (tree * string) :=
  match fuel with
  | O => None
  | S fuel' =>
      match JSON.skip_whitespace s with
      | EmptyString => None
      | String c r as s' =>
          if JSON.char_is 123 c then
            match JSON.skip_whitespace r with
            | String c' r' =>
                if JSON.char_is 125 c' then Some (TObject [], r')
                else read_members fuel' [] r
            | EmptyString => None
            end
          else if JSON.char_is 91 c then
            match JSON.skip_whitespace r with
            | String c' r' =>
                if JSON.char_is 93 c' then Some (TArray [], r')
                else read_elements fuel' [] r
            | EmptyString => None
            end
          else if JSON.char_is 34 c then
            match read_chars r with
            | Some (units, r') => Some (TString units, r')
            | None => None
            end
          else if JSON.char_is 116 c then
            match JSON.keyword "true" s' with
            | Some r' => Some (TBoolean true, r')
            | None => None
            end
          else if JSON.char_is 102 c then
            match JSON.keyword "false" s' with
            | Some r' => Some (TBoolean false, r')
            | None => None
            end
          else if JSON.char_is 110 c then
            match JSON.keyword "null" s' with
            | Some r' => Some (TNull, r')
            | None => None
            end
          else
            match read_number s' with
            | Some (token, r') => Some (TNumber token, r')
            | None => None
            end
      end
  end
with read_elements (fuel : nat) (acc : list tree) (s : string) : option (tree * string) :=
  match fuel with
  | O => None
  | S fuel' =>
      match read_value fuel' s with
      | Some (v, r) =>
          match JSON.skip_whitespace r with
          | String c r' =>
              if JSON.char_is 44 c then read_elements fuel' (acc ++ [v])%list r'
              else if JSON.char_is 93 c then Some (TArray (acc ++ [v])%list, r')
              else None
          | EmptyString => None
          end
      | None => None
      end
  end
with read_members (fuel : nat) (acc : list (list N * tree)) (s : string)
  : option (tree * string) :=
  match fuel with
  | O => None
  | S fuel' =>
      match JSON.skip_whitespace s with
      | String q r =>
          if JSON.char_is 34 q then
            match read_chars r with
            | Some (key, r1) =>
                match JSON.skip_whitespace r1 with
                | String c r2 =>
                    if JSON.char_is 58 c then
                      match read_value fuel' r2 with
                      | Some (v, r3) =>
                          match JSON.skip_whitespace r3 with
                          | String c' r4 =>
                              if JSON.char_is 44 c' then
                                read_members fuel' (acc ++ [(key, v)])%list r4
                              else if JSON.char_is 125 c' then
                                Some (TObject (acc ++ [(key, v)])%list, r4)
                              else None
                          | EmptyString => None
                          end
                      | None => None
                      end
                    else None
                | EmptyString => None
                end
            | None => None
            end
          else None
      | EmptyString => None
      end
  end.

(** The whole text is one value, with white space around it at most. *)
Definition read (text : string) : option tree :=
  match read_value (S (String.length text)) text with
  | Some (t, rest) =>
      match JSON.skip_whitespace rest with
      | EmptyString => Some t
      | String _ _ => None
      end
  | None => None
  end.

End Reader.

(** [JSON.parse] on every text: the text is read, which is where the
    [SyntaxError] is thrown, and the value of the tree is built.  What the
    platform builds (the double of a number token, the string of the code
    units, the object of the members) is generic here. *)
Definition JSON_parse_with (build : tree -> value) (text : string) : option value :=
  match Reader.read text with
  | Some t => Some (build t)
  | None => None
  end.

(** [s] is empty, or starts with a character on which [p] is false. *)
Definition stops (p : ascii -> bool) (s : string) : bool :=
  match s with
  | EmptyString => true
  | String c _ => negb (p c)
  end.

(** The characters with which a number token could go on. *)
Definition token_goes_on (c : ascii) : bool :=
  Reader.is_digit c || JSON.char_is 46 c || JSON.char_is 101 c || JSON.char_is 69 c.

(** What follows an element inside a text: nothing, a comma, or a closing
    bracket or brace. *)
Definition delimited (s : string) : bool :=
  match s with
  | EmptyString => true
  | String c _ => JSON.char_is 44 c || JSON.char_is 93 c || JSON.char_is 125 c
  end.

Scheme value_mutual := Minimality for Grammar.value Sort Prop
  with members_mutual := Minimality for Grammar.members Sort Prop
  with member_mutual := Minimality for Grammar.member Sort Prop
  with elements_mutual := Minimality for Grammar.elements Sort Prop
  with element_mutual := Minimality for Grammar.element Sort Prop.

Combined Scheme grammar_mutual
  from value_mutual, members_mutual, member_mutual, elements_mutual, element_mutual.

(** The reader reads the text of a value, of the members of an object, of
    one member, of the elements of an array, of one element, whatever the
    fuel above the length of the text. *)
Definition value_read (v : string) : Prop :=
  forall (fuel : nat) (w rest : string),
    Grammar.ws w -> (String.length v < fuel)%nat -> stops token_goes_on rest = true ->
    exists t, Reader.read_value fuel (w ++ v ++ rest) = Some (t, rest).

Definition element_read (e : string) : Prop :=
  forall (fuel : nat) (rest : string),
    (String.length e < fuel)%nat -> delimited rest = true ->
    exists t r, Reader.read_value fuel (e ++ rest) = Some (t, r) /\
                JSON.skip_whitespace r = rest.

Definition elements_read (es : string) : Prop :=
  forall (fuel : nat) (acc : list tree) (rest : string),
    (String.length es + 1 < fuel)%nat ->
    exists t, Reader.read_elements fuel acc (es ++ String "]" rest) = Some (t, rest).

Definition member_read (m : string) : Prop :=
  forall (fuel : nat) (rest : string),
    (String.length m < fuel)%nat -> delimited rest = true ->
    exists r0 key r1 r2 t r3,
      JSON.skip_whitespace (m ++ rest) = String JSON.dquote r0 /\
      Reader.read_chars r0 = Some (key, r1) /\
      JSON.skip_whitespace r1 = String ":" r2 /\
      Reader.read_value fuel r2 = Some (t, r3) /\
      JSON.skip_whitespace r3 = rest.

Definition members_read (ms : string) : Prop :=
  forall (fuel : nat) (acc : list (list N * tree)) (rest : string),
    (String.length ms + 1 < fuel)%nat ->
    exists t, Reader.read_members fuel acc (ms ++ String "}" rest) = Some (t, rest).

Ltac run_method :=
  unfold append, Test.element, Test.id, Test.class, Test.attr, Test.pseudoClass,
    Test.pseudoElement, Test.exception1, Test.exception2, Test.stringify,
    bind, assign, this, ret, throw; cbn.

Ltac split_conditions :=
  repeat match goal with
         | |- context [(?z =? 2)%Z] => destruct (Z.eqb_spec z 2); cbn
         | |- context [if ?b then _ else _] => destruct b eqn:?; cbn
         | H : context [(?z =? 2)%Z] |- _ => destruct (Z.eqb_spec z 2); cbn in H
         | H : context [if ?b then _ else _] |- _ => destruct b eqn:?; cbn in H
         end.

Ltac decide_counters :=
  repeat match goal with
         | H : context [(?z =? 2)%Z] |- _ => destruct (Z.eqb_spec z 2); cbn in H
         | |- context [(?z =? 2)%Z] => destruct (Z.eqb_spec z 2); cbn
         end.

Ltac by_cases_on_char c :=
  destruct c as [[] [] [] [] [] [] [] []];
  try (let H := fresh in intros H; vm_compute in H; discriminate H).

(** * Properties *)

(** ** The selector builder: single instances *)

(** Every fragment call counts itself, whether it then throws or not, and
    leaves the other two counters alone. *)
Lemma append_counters (f : fragment) (t : Test.state) :
  let t' := snd (append f t) in
  Test.selector t' = (Test.selector t + if same_kind (Element "") f then 1 else 0)%Z /\
  Test.idc t' = (Test.idc t + if same_kind (Id "") f then 1 else 0)%Z /\
  Test.psel t' = (Test.psel t + if same_kind (PseudoElement "") f then 1 else 0)%Z.
Proof.
  destruct f; run_method;
    repeat match goal with
           | |- context [if ?b then _ else _] => destruct b; cbn
           end; lia.
Qed.

Lemma attempts_counters (fs : list fragment) (t : Test.state) :
  Test.selector (attempts fs t) = (Test.selector t + Z.of_nat (occurrences (Element "") fs))%Z /\
  Test.idc (attempts fs t) = (Test.idc t + Z.of_nat (occurrences (Id "") fs))%Z /\
  Test.psel (attempts fs t) = (Test.psel t + Z.of_nat (occurrences (PseudoElement "") fs))%Z.
Proof.
  revert t. induction fs as [|f fs IH]; intros t; cbn [attempts].
  - cbn. lia.
  - destruct (IH (snd (append f t))) as (Hs & Hi & Hp).
    destruct (append_counters f t) as (Hs' & Hi' & Hp').
    rewrite Hs, Hi, Hp, Hs', Hi', Hp'.
    cbn [occurrences].
    destruct f; cbn [same_kind]; repeat split; lia.
Qed.

(** What a fragment call that returns has done to the text, and that a call
    that throws has left the text alone. *)
Lemma append_string (f : fragment) (t : Test.state) :
  Test.string_ (snd (append f t)) =
  if is_normal (fst (append f t)) then Test.string_ t ++ fragment_text f
  else Test.string_ t.
Proof.
  destruct f; run_method;
    repeat match goal with
           | |- context [if ?b then _ else _] => destruct b; cbn
           end; reflexivity.
Qed.

Lemma string_app_assoc (a b c : string) : (a ++ b) ++ c = a ++ (b ++ c).
Proof. induction a as [|x a IH]; simpl; [reflexivity | f_equal; exact IH]. Qed.

Lemma string_app_nil_r (a : string) : a ++ "" = a.
Proof. induction a as [|x a IH]; simpl; [reflexivity | f_equal; exact IH]. Qed.

Lemma appends_string (fs : list fragment) (t t' : Test.state) :
  appends fs t = (Normal tt, t') ->
  Test.string_ t' = Test.string_ t ++ concat_texts fs.
Proof.
  revert t. induction fs as [|f fs IH]; intros t; cbn [appends concat_texts].
  - unfold ret. intros [= <-]. now rewrite string_app_nil_r.
  - unfold bind at 1. pose proof (append_string f t) as Hs.
    destruct (append f t) as [[[]|e] t1]; cbn in Hs; [|discriminate].
    intros H. rewrite (IH _ H), Hs. apply string_app_assoc.
Qed.

(** ** The selector builder: the store and the facade *)

Lemma lookup_new (h : store) (t : Test.state) :
  (h ++ [t])%list !! length h = Some t.
Proof. now apply list_lookup_middle. Qed.

Lemma insert_new (h : store) (t t' : Test.state) :
  <[length h := t']> (h ++ [t])%list = (h ++ [t'])%list.
Proof.
  rewrite insert_app_r_alt by lia. now rewrite Nat.sub_diag.
Qed.

(** A method call on the newest instance. *)
Lemma call_new {A} (m : Test.method A) (h : store) (t : Test.state) :
  call (length h) m (h ++ [t])%list = (fst (m t), (h ++ [snd (m t)])%list).
Proof.
  unfold call. rewrite lookup_new. destruct (m t) as [c t']. cbn.
  now rewrite insert_new.
Qed.

Lemma chained_new (m : Test.method unit) (h : store) (t : Test.state) :
  chained (length h) m (h ++ [t])%list =
  (match fst (m t) with Normal _ => Normal (length h) | Throw e => Throw e end,
   (h ++ [snd (m t)])%list).
Proof.
  unfold chained, bind. rewrite call_new. now destruct (fst (m t)).
Qed.

(** The facade runs the call on an instance of its own making. *)
Lemma start_new (f : fragment) (h : store) :
  start f h =
  (match fst (append f (Test.constructor "")) with
   | Normal _ => Normal (length h)
   | Throw e => Throw e
   end,
   (h ++ [snd (append f (Test.constructor ""))])%list).
Proof.
  destruct f; cbn [start append];
    unfold cssSelectorBuilder.element, cssSelectorBuilder.id, cssSelectorBuilder.class,
      cssSelectorBuilder.attr, cssSelectorBuilder.pseudoClass,
      cssSelectorBuilder.pseudoElement;
    unfold bind at 1; unfold new_Test; apply chained_new.
Qed.

Lemma continue_new (fs : list fragment) (h : store) (t : Test.state) :
  continue (length h) fs (h ++ [t])%list =
  (match fst (appends fs t) with Normal _ => Normal (length h) | Throw e => Throw e end,
   (h ++ [snd (appends fs t)])%list).
Proof.
  revert t. induction fs as [|f fs IH]; intros t; cbn [continue appends].
  - reflexivity.
  - unfold bind. rewrite chained_new.
    destruct (append f t) as [[[]|e] t1]; cbn [fst snd]; [apply IH | reflexivity].
Qed.

Lemma build_new (f : fragment) (fs : list fragment) (h : store) :
  build f fs h =
  (match fst (appends (f :: fs) (Test.constructor "")) with
   | Normal _ => Normal (length h)
   | Throw e => Throw e
   end,
   (h ++ [snd (appends (f :: fs) (Test.constructor ""))])%list).
Proof.
  unfold build. cbn [appends]. unfold bind. rewrite start_new.
  destruct (append f (Test.constructor "")) as [[[]|e] t1]; cbn [fst snd];
    [apply continue_new | reflexivity].
Qed.

(** Also when the caller catches exceptions and goes on, the text is made of
    the fragments that were appended, in the order of the calls. *)
Lemma attempts_string (fs : list fragment) (t : Test.state) :
  Test.string_ (attempts fs t) = Test.string_ t ++ concat_texts (appended fs t).
Proof.
  revert t. induction fs as [|f fs IH]; intros t; cbn [attempts appended].
  - cbn. now rewrite string_app_nil_r.
  - rewrite IH, append_string.
    destruct (is_normal (fst (append f t))); cbn [concat_texts];
      [now rewrite string_app_assoc | reflexivity].
Qed.

(** ** The order rule as the code has it *)

Lemma append_returns (f : fragment) (t t' : Test.state) :
  counted_once t ->
  append f t = (Normal tt, t') ->
  counted_once t' /\ Test.prev t' = marker f /\
  (once_only f = true ->
   match f with
   | Element _ => Test.selector t' = 1%Z
   | Id _ => Test.idc t' = 1%Z
   | _ => Test.psel t' = 1%Z
   end).
Proof.
  unfold counted_once. intros (Hi & Hs & Hp).
  destruct f; run_method; intros H; split_conditions; try discriminate H;
    injection H as <-; cbn; repeat split; try lia; try discriminate.
Qed.

Lemma appends_app (fs gs : list fragment) (t t' : Test.state) :
  appends (fs ++ gs)%list t = (Normal tt, t') <->
  exists t1, appends fs t = (Normal tt, t1) /\ appends gs t1 = (Normal tt, t').
Proof.
  revert t. induction fs as [|f fs IH]; intros t; cbn [app appends].
  - split.
    + intros H. exists t. now split.
    + intros (t1 & [= <-] & H). exact H.
  - unfold bind. destruct (append f t) as [[[]|e] t0].
    + apply IH.
    + split; [discriminate|]. intros (t1 & H & _). discriminate H.
Qed.

Lemma appends_counted_once (fs : list fragment) (t t' : Test.state) :
  counted_once t -> appends fs t = (Normal tt, t') -> counted_once t'.
Proof.
  revert t. induction fs as [|f fs IH]; intros t Ht; cbn [appends].
  - now intros [= <-].
  - unfold bind. destruct (append f t) as [[[]|e] t0] eqn:Hf; [|discriminate].
    apply IH. now apply (append_returns f t t0).
Qed.

Lemma appends_attempts (fs : list fragment) (t t' : Test.state) :
  appends fs t = (Normal tt, t') -> t' = attempts fs t.
Proof.
  revert t. induction fs as [|f fs IH]; intros t; cbn [appends attempts].
  - now intros [= <-].
  - unfold bind. destruct (append f t) as [[[]|e] t0]; [|discriminate].
    cbn [snd]. apply IH.
Qed.

Lemma occurrences_kind (f g : fragment) (fs : list fragment) :
  same_kind f g = true -> occurrences f fs = occurrences g fs.
Proof.
  intros H. induction fs as [|x fs IH]; cbn [occurrences]; [reflexivity|].
  rewrite IH. f_equal. destruct f, g; try discriminate H; reflexivity.
Qed.

Lemma occurrences_other (f : fragment) (fs : list fragment) :
  once_only f = false -> occurrences f fs = 0%nat.
Proof.
  intros H. induction fs as [|x fs IH]; cbn [occurrences]; [reflexivity|].
  rewrite IH. destruct f; try discriminate H; reflexivity.
Qed.

(** The three places where the code lets a smaller category pass: a class
    after a pseudo-class, a class after a pseudo-element and an attribute
    after a pseudo-element are appended. *)
Lemma order_gaps
  (val : string) (fs : list fragment) (l f : fragment) (t' : Test.state) :
  appends (fs ++ [l])%list (Test.constructor val) = (Normal tt, t') ->
  order_gap f l = true ->
  (category f < category l)%nat /\ fst (append f t') = Normal tt.
Proof.
  intros H Hgap. apply appends_app in H as (t1 & H1 & Hl).
  cbn [appends] in Hl. unfold bind in Hl.
  destruct (append l t1) as [[[]|e] t2] eqn:Hl2; [|discriminate Hl].
  injection Hl as <-.
  assert (counted_once t1) as Ht1.
  { apply (appends_counted_once fs (Test.constructor val)); [|exact H1].
    unfold counted_once. cbn. lia. }
  destruct (append_returns l t1 t2 Ht1 Hl2) as (_ & Hprev & _).
  destruct f, l; try discriminate Hgap; cbn [marker] in Hprev;
    (split; [cbn; lia|]); run_method; rewrite Hprev; reflexivity.
Qed.

(** ** The rules of the selector builder *)

(** The gaps on the shortest chains: each of them returns and renders. *)
Example order_gaps_render :
  build_and_stringify (PseudoClass "x") [Class "y"] []
    = (Normal ":x.y", [Test.mk ":x.y" 0 0 0 "id"]) /\
  build_and_stringify (PseudoElement "x") [Class "y"] []
    = (Normal "::x.y", [Test.mk "::x.y" 0 0 1 "id"]) /\
  build_and_stringify (PseudoElement "x") [Attr "y"] []
    = (Normal "::x[y]", [Test.mk "::x[y]" 0 0 1 "attr"]).
Proof. repeat split. Qed.

(** C1 as it is worded fails where both rules are broken: in
    [id('a').class('b').id('c')] the second [id] is of a smaller category
    than the class before it, and what it throws is the cardinality error,
    which [id] checks first. *)
Lemma id_class_id_CardinalityError :
  (category (Id "c") < category (Class "b"))%nat /\
  build (Id "a") [Class "b"; Id "c"] []
    = (Throw CardinalityError, [Test.mk "#a.b" 2 0 0 "id"]) /\
  fst (build (Id "a") [Class "b"; Id "c"] []) <> Throw OrderError.
Proof.
  split; [cbn; lia|]. split; [reflexivity|]. discriminate.
Qed.

(** C1, amended.  After a chain of fragment calls that returned, on an
    instance made by the constructor, with [l] the last of them: a fragment
    of the category of [l] or of a greater one never raises the order error;
    a fragment of a smaller category is refused, with the cardinality error
    when it is a second [element] or a second [id] of the instance and with
    the order error otherwise.  The three pairs of [order_gap] are left out
    of the second part. *)
Theorem order_rule
  (val : string) (fs : list fragment) (l f : fragment) (t' : Test.state) :
  appends (fs ++ [l])%list (Test.constructor val) = (Normal tt, t') ->
  ((category l <= category f)%nat -> fst (append f t') <> Throw OrderError) /\
  ((category f < category l)%nat -> order_gap f l = false ->
   fst (append f t') =
   if (occurrences f (fs ++ [l])%list =? 1)%nat then Throw CardinalityError
   else Throw OrderError).
Proof.
  intros H. pose proof (appends_attempts _ _ _ H) as Hatt.
  destruct (attempts_counters (fs ++ [l])%list (Test.constructor val)) as (Cs & Ci & Cp).
  rewrite <- Hatt in Cs, Ci, Cp.
  cbn [Test.constructor Test.selector Test.idc Test.psel] in Cs, Ci, Cp.
  apply appends_app in H as (t1 & H1 & Hl).
  cbn [appends] in Hl. unfold bind in Hl.
  destruct (append l t1) as [[[]|e] t2] eqn:Hl2; [|discriminate Hl].
  injection Hl as <-.
  assert (counted_once t1) as Ht1.
  { apply (appends_counted_once fs (Test.constructor val)); [|exact H1].
    unfold counted_once. cbn. lia. }
  destruct (append_returns l t1 t2 Ht1 Hl2) as ((Hi & Hs & Hp) & Hprev & Hone).
  split.
  - intros Hcat.
    destruct l, f; cbn in Hcat; try lia; cbn [marker once_only same_kind] in *;
      first [specialize (Hone eq_refl) | clear Hone];
      run_method; rewrite ?Hprev; cbn;
      split_conditions; try discriminate; try congruence; try lia;
      try (exfalso; rewrite ?Hprev in *; cbn in *; first [discriminate | congruence | lia]).
  - intros Hcat Hgap. clear Hone.
    destruct f as [v|v|v|v|v|v].
    + rewrite (occurrences_kind (Element v) (Element "")) by reflexivity.
      destruct (Nat.eqb_spec (occurrences (Element "") (fs ++ [l])%list) 1) as [E|E];
        destruct l; cbn in Hcat; try lia; cbn [marker] in Hprev;
        run_method; rewrite ?Hprev; cbn; split_conditions; try reflexivity; try lia;
        try (exfalso; rewrite ?Hprev in *; cbn in *; first [discriminate | congruence | lia]).
    + rewrite (occurrences_kind (Id v) (Id "")) by reflexivity.
      destruct (Nat.eqb_spec (occurrences (Id "") (fs ++ [l])%list) 1) as [E|E];
        destruct l; cbn in Hcat; try lia; cbn [marker] in Hprev;
        run_method; rewrite ?Hprev; cbn; split_conditions; try reflexivity; try lia;
        try (exfalso; rewrite ?Hprev in *; cbn in *; first [discriminate | congruence | lia]).
    + rewrite occurrences_other by reflexivity. cbn [Nat.eqb].
      destruct l; cbn in Hcat; try lia; try discriminate Hgap; cbn [marker] in Hprev;
        run_method; rewrite ?Hprev; reflexivity.
    + rewrite occurrences_other by reflexivity. cbn [Nat.eqb].
      destruct l; cbn in Hcat; try lia; try discriminate Hgap; cbn [marker] in Hprev;
        run_method; rewrite ?Hprev; reflexivity.
    + rewrite occurrences_other by reflexivity. cbn [Nat.eqb].
      destruct l; cbn in Hcat; try lia; try discriminate Hgap; cbn [marker] in Hprev;
        run_method; rewrite ?Hprev; reflexivity.
    + destruct l; cbn in Hcat; lia.
Qed.

(** [class('x').id('y')] throws the order error, and [class('x').class('y')]
    does not. *)
Lemma order_rule_witness :
  appends ([] ++ [Class "x"])%list (Test.constructor "")
    = (Normal tt, Test.mk ".x" 0 0 0 "id") /\
  (category (Id "y") < category (Class "x"))%nat /\
  order_gap (Id "y") (Class "x") = false /\
  fst (append (Id "y") (Test.mk ".x" 0 0 0 "id")) = Throw OrderError /\
  (category (Class "x") <= category (Class "y"))%nat /\
  fst (append (Class "y") (Test.mk ".x" 0 0 0 "id")) <> Throw OrderError.
Proof.
  assert (category (Id "y") < category (Class "x"))%nat as Hlt by (cbn; lia).
  assert (category (Class "x") <= category (Class "y"))%nat as Hle by (cbn; lia).
  split; [reflexivity|]. split; [exact Hlt|]. split; [reflexivity|]. split; [|split].
  - exact (proj2 (order_rule "" [] (Class "x") (Id "y") (Test.mk ".x" 0 0 0 "id") eq_refl)
             Hlt eq_refl).
  - exact Hle.
  - exact (proj1 (order_rule "" [] (Class "x") (Class "y") (Test.mk ".x" 0 0 0 "id") eq_refl)
             Hle).
Defined.

(** [builder.class('x').id('y')] through the facade. *)
Example class_id_through_facade :
  build (Class "x") [Id "y"] [] = (Throw OrderError, [Test.mk ".x" 1 0 0 "id"]).
Proof. reflexivity. Qed.

(** C2.  On an instance made by the constructor, after any calls that had
    one call of [element] among them (of [id], of [pseudoElement]), whether
    they returned or threw, a further call of [element] (of [id], of
    [pseudoElement]) throws the cardinality error. *)
Theorem second_append_CardinalityError
  (f : fragment) (fs : list fragment) (val : string) :
  once_only f = true ->
  occurrences f fs = 1%nat ->
  fst (append f (attempts fs (Test.constructor val))) = Throw CardinalityError.
Proof.
  intros Hf Hocc.
  destruct (attempts_counters fs (Test.constructor val)) as (Hs & Hi & Hp).
  cbn [Test.constructor Test.selector Test.idc Test.psel] in Hs, Hi, Hp.
  destruct f; try discriminate Hf; cbn [once_only same_kind] in *.
  - assert (Test.selector (attempts fs (Test.constructor val)) = 1%Z) as H1.
    { rewrite Hs. replace (occurrences (Element "") fs) with 1%nat; [reflexivity|].
      rewrite <- Hocc. clear. induction fs as [|g fs IH]; cbn; [reflexivity|].
      rewrite IH. now destruct g. }
    run_method. rewrite H1. cbn. now rewrite orb_true_r.
  - assert (Test.idc (attempts fs (Test.constructor val)) = 1%Z) as H1.
    { rewrite Hi. replace (occurrences (Id "") fs) with 1%nat; [reflexivity|].
      rewrite <- Hocc. clear. induction fs as [|g fs IH]; cbn; [reflexivity|].
      rewrite IH. now destruct g. }
    run_method. rewrite H1. now cbn.
  - assert (Test.psel (attempts fs (Test.constructor val)) = 1%Z) as H1.
    { rewrite Hp. replace (occurrences (PseudoElement "") fs) with 1%nat; [reflexivity|].
      rewrite <- Hocc. clear. induction fs as [|g fs IH]; cbn; [reflexivity|].
      rewrite IH. now destruct g. }
    run_method. rewrite H1. cbn. now rewrite !orb_true_r.
Qed.

(** [id('x').id('y')] on one instance. *)
Lemma second_append_CardinalityError_witness :
  once_only (Id "y") = true /\
  occurrences (Id "y") [Id "x"] = 1%nat /\
  fst (append (Id "y") (attempts [Id "x"] (Test.constructor ""))) = Throw CardinalityError.
Proof.
  split; [reflexivity|]. split; [reflexivity|].
  apply (second_append_CardinalityError (Id "y") [Id "x"] ""); reflexivity.
Defined.

(** [builder.id('x').id('y')] through the facade. *)
Example id_id_through_facade :
  build (Id "x") [Id "y"] [] = (Throw CardinalityError, [Test.mk "#x" 2 0 0 "id"]).
Proof. reflexivity. Qed.

(** C3.  A chain of fragment calls that starts at the facade and in which no
    call throws renders the texts of its fragments, in the order of the
    calls, each with the prefix of its category. *)
Theorem stringify_concatenates
  (f : fragment) (fs : list fragment) (h h' : store) (text : string) :
  build_and_stringify f fs h = (Normal text, h') ->
  text = concat_texts (f :: fs).
Proof.
  unfold build_and_stringify, bind. rewrite build_new.
  destruct (appends (f :: fs) (Test.constructor "")) as [[[]|e] t'] eqn:Hrun;
    cbn [fst snd]; [|discriminate].
  rewrite call_new. cbn. intros [= <- _].
  now rewrite (appends_string _ _ _ Hrun).
Qed.

(** The two chains of the documentation in the source. *)
Lemma stringify_concatenates_witness :
  (build_and_stringify (Id "main") [Class "container"; Class "editable"] []
     = (Normal "#main.container.editable", [Test.mk "#main.container.editable" 1 0 0 "id"])
   /\ "#main.container.editable"
      = concat_texts [Id "main"; Class "container"; Class "editable"])
  /\
  (build_and_stringify (Element "a") [Attr ("href$=" ++ quoted ".png"); PseudoClass "focus"] []
     = (Normal ("a[href$=" ++ quoted ".png" ++ "]:focus"),
        [Test.mk ("a[href$=" ++ quoted ".png" ++ "]:focus") 0 1 0 "pscl"])
   /\ "a[href$=" ++ quoted ".png" ++ "]:focus"
      = concat_texts [Element "a"; Attr ("href$=" ++ quoted ".png"); PseudoClass "focus"]).
Proof.
  split; (split; [reflexivity|]).
  - apply (stringify_concatenates (Id "main") [Class "container"; Class "editable"] []
             [Test.mk "#main.container.editable" 1 0 0 "id"]).
    reflexivity.
  - apply (stringify_concatenates (Element "a")
             [Attr ("href$=" ++ quoted ".png"); PseudoClass "focus"] []
             [Test.mk ("a[href$=" ++ quoted ".png" ++ "]:focus") 0 1 0 "pscl"]).
    reflexivity.
Defined.

(** What [stringify] returns is the text of the instance. *)
Lemma call_stringify (r : ref) (h h' : store) (text : string) :
  call r Test.stringify h = (Normal text, h') ->
  exists t, h !! r = Some t /\ Test.string_ t = text.
Proof.
  unfold call. destruct (h !! r) as [t|]; [|discriminate].
  cbn. intros [= <- _]. now exists t.
Qed.

(** C4.  Where [left] and [right] render as [a] and [b], [combine] on the
    facade makes an instance that renders as [a], a space, the combinator as
    it is, a space and [b]; the selectors that were there stay as they are. *)
Theorem combine_renders
  (h h1 h2 : store) (left right : ref) (combinator a b : string) :
  call left Test.stringify h = (Normal a, h1) ->
  call right Test.stringify h = (Normal b, h2) ->
  (c <- cssSelectorBuilder.combine left combinator right ;; call c Test.stringify) h
  = (Normal (a ++ " " ++ combinator ++ " " ++ b),
     (h ++ [Test.mk (a ++ " " ++ combinator ++ " " ++ b) 0 0 0 ""])%list).
Proof.
  intros Ha Hb.
  apply call_stringify in Ha as (tl & Hl & <-).
  apply call_stringify in Hb as (tr & Hr & <-).
  unfold cssSelectorBuilder.combine, bind, new_Test, call_combine.
  rewrite (lookup_app_l_Some _ _ _ _ Hl), (lookup_app_l_Some _ _ _ _ Hr).
  rewrite chained_new. cbn [fst snd Test.combine Test.stringify this assign].
  rewrite call_new. reflexivity.
Qed.

(** [combine(a, '+', b)] for [a = element('div').id('main')] and
    [b = element('p')]. *)
Lemma combine_renders_witness :
  let h := [Test.mk "div#main" 1 1 0 "id"; Test.mk "p" 0 1 0 "element"] in
  call 0%nat Test.stringify h = (Normal "div#main", h) /\
  call 1%nat Test.stringify h = (Normal "p", h) /\
  (c <- cssSelectorBuilder.combine 0%nat "+" 1%nat ;; call c Test.stringify) h
  = (Normal "div#main + p", (h ++ [Test.mk "div#main + p" 0 0 0 ""])%list).
Proof.
  split; [reflexivity|]. split; [reflexivity|].
  apply (combine_renders
           [Test.mk "div#main" 1 1 0 "id"; Test.mk "p" 0 1 0 "element"]
           [Test.mk "div#main" 1 1 0 "id"; Test.mk "p" 0 1 0 "element"]
           [Test.mk "div#main" 1 1 0 "id"; Test.mk "p" 0 1 0 "element"]
           0%nat 1%nat "+" "div#main" "p");
    reflexivity.
Defined.

(** The nested [combine] of the documentation in the source. *)
Example combine_nested :
  (div <- build (Element "div") [Id "main"; Class "container"; Class "draggable"] ;;
   table <- build (Element "table") [Id "data"] ;;
   tr <- build (Element "tr") [PseudoClass "nth-of-type(even)"] ;;
   td <- build (Element "td") [PseudoClass "nth-of-type(even)"] ;;
   inner <- cssSelectorBuilder.combine tr " " td ;;
   middle <- cssSelectorBuilder.combine table "~" inner ;;
   outer <- cssSelectorBuilder.combine div "+" middle ;;
   call outer Test.stringify) []
  = (Normal "div#main.container.draggable + table#data ~ tr:nth-of-type(even)   td:nth-of-type(even)",
     [Test.mk "div#main.container.draggable" 1 1 0 "id";
      Test.mk "table#data" 1 1 0 "id";
      Test.mk "tr:nth-of-type(even)" 0 1 0 "pscl";
      Test.mk "td:nth-of-type(even)" 0 1 0 "pscl";
      Test.mk "tr:nth-of-type(even)   td:nth-of-type(even)" 0 0 0 "";
      Test.mk "table#data ~ tr:nth-of-type(even)   td:nth-of-type(even)" 0 0 0 "";
      Test.mk "div#main.container.draggable + table#data ~ tr:nth-of-type(even)   td:nth-of-type(even)" 0 0 0 ""]).
Proof. reflexivity. Qed.

(** C9.  The constructor sets an empty marker and zero counters.  Each call
    on the facade adds one instance to the store, runs on that instance as
    the constructor made it from the empty text, and leaves the instances
    that were there as they are; so the outcome of a chain does not depend
    on the chains started before it, and [builder.id('x')] and then
    [builder.id('y')] both return. *)
Theorem facade_makes_fresh_instances :
  (forall (val : string) (h : store),
      new_Test val h = (Normal (length h), (h ++ [Test.mk val 0 0 0 ""])%list)) /\
  (forall (f : fragment) (h : store),
      start f h =
      (match fst (append f (Test.mk "" 0 0 0 "")) with
       | Normal _ => Normal (length h)
       | Throw e => Throw e
       end,
       (h ++ [snd (append f (Test.mk "" 0 0 0 ""))])%list)) /\
  (forall (selector1 selector2 : ref) (combinator : string) (h : store),
      cssSelectorBuilder.combine selector1 combinator selector2 h =
      match (h ++ [Test.mk "" 0 0 0 ""])%list !! selector1,
            (h ++ [Test.mk "" 0 0 0 ""])%list !! selector2 with
      | Some a, Some b =>
          (Normal (length h),
           (h ++ [Test.mk (Test.string_ a ++ " " ++ combinator ++ " " ++ Test.string_ b)
                    0 0 0 ""])%list)
      | _, _ => (Throw TypeError, (h ++ [Test.mk "" 0 0 0 ""])%list)
      end) /\
  (forall (f g : fragment) (fs gs : list fragment) (h : store),
      build g gs (snd (build f fs h)) =
      (match fst (appends (g :: gs) (Test.mk "" 0 0 0 "")) with
       | Normal _ => Normal (length (snd (build f fs h)))
       | Throw e => Throw e
       end,
       (snd (build f fs h) ++ [snd (appends (g :: gs) (Test.mk "" 0 0 0 ""))])%list)) /\
  (x <- cssSelectorBuilder.id "x" ;; y <- cssSelectorBuilder.id "y" ;; ret (x, y)) []
  = (Normal (0%nat, 1%nat), [Test.mk "#x" 1 0 0 "id"; Test.mk "#y" 1 0 0 "id"]).
Proof.
  split; [reflexivity|]. split; [exact start_new|]. split; [|split; [|reflexivity]].
  - intros selector1 selector2 combinator h.
    unfold cssSelectorBuilder.combine, bind, new_Test, call_combine.
    change (Test.constructor "") with (Test.mk "" 0 0 0 "").
    repeat case_match; simplify_eq; try reflexivity.
    rewrite chained_new. reflexivity.
  - intros f g fs gs h. apply build_new.
Qed.

(** C10 as it is worded fails twice.  After [id('x')] and a second [id]
    whose cardinality error is caught, the third [id] throws, the order
    error this time, and appends nothing.  And the check looks at the three
    counters: after two calls of [element], a first [pseudoElement] throws
    the cardinality error with its own counter at 1. *)
Lemma third_id_throws :
  let t := attempts [Id "x"; Id "y"] (Test.constructor "") in
  let u := attempts [Element "a"; Element "b"] (Test.constructor "") in
  fst (append (Id "y") (attempts [Id "x"] (Test.constructor ""))) = Throw CardinalityError /\
  Test.id "z" t = (Throw OrderError, Test.mk "#x" 3 0 0 "id") /\
  ~ (exists t', Test.id "z" t = (Normal tt, t')) /\
  Test.pseudoElement "c" u = (Throw CardinalityError, Test.mk "a" 0 2 1 "psel").
Proof.
  cbn zeta. split; [reflexivity|]. split; [reflexivity|]. split; [|reflexivity].
  intros [t' H]. discriminate H.
Qed.

(** What the three counting methods do on an instance, with the sequenced
    statements run: the counter first, then the cardinality check on the
    three counters, then (for [element] and [id]) the order check against
    ['element'], then the marker and the text.  [pseudoElement] sets the
    marker before anything else. *)
Lemma element_unfolded (s : string) (i se ps : Z) (pr v : string) :
  Test.element v (Test.mk s i se ps pr) =
  if (i =? 2)%Z || (se + 1 =? 2)%Z || (ps =? 2)%Z
  then (Throw CardinalityError, Test.mk s i (se + 1) ps pr)
  else if String.eqb pr "element" || String.eqb pr ""
       then (Normal tt, Test.mk (s ++ v) i (se + 1) ps "element")
       else (Throw OrderError, Test.mk s i (se + 1) ps pr).
Proof.
  run_method.
  destruct ((i =? 2)%Z || (se + 1 =? 2)%Z || (ps =? 2)%Z); [reflexivity|]. cbn.
  destruct (String.eqb pr "element"); [reflexivity|].
  destruct (String.eqb pr ""); reflexivity.
Qed.

Lemma id_unfolded (s : string) (i se ps : Z) (pr v : string) :
  Test.id v (Test.mk s i se ps pr) =
  if (i + 1 =? 2)%Z || (se =? 2)%Z || (ps =? 2)%Z
  then (Throw CardinalityError, Test.mk s (i + 1) se ps pr)
  else if String.eqb pr "element" || String.eqb pr ""
       then (Normal tt, Test.mk (s ++ "#" ++ v) (i + 1) se ps "id")
       else (Throw OrderError, Test.mk s (i + 1) se ps pr).
Proof.
  run_method.
  destruct ((i + 1 =? 2)%Z || (se =? 2)%Z || (ps =? 2)%Z); [reflexivity|]. cbn.
  destruct (String.eqb_spec pr "element") as [->|]; [reflexivity|].
  destruct (String.eqb_spec pr "") as [->|]; reflexivity.
Qed.

Lemma pseudoElement_unfolded (s : string) (i se ps : Z) (pr v : string) :
  Test.pseudoElement v (Test.mk s i se ps pr) =
  if (i =? 2)%Z || (se =? 2)%Z || (ps + 1 =? 2)%Z
  then (Throw CardinalityError, Test.mk s i se (ps + 1) "psel")
  else (Normal tt, Test.mk (s ++ "::" ++ v) i se (ps + 1) "psel").
Proof.
  run_method.
  destruct ((i =? 2)%Z || (se =? 2)%Z || (ps + 1 =? 2)%Z); reflexivity.
Qed.

(** The call that finds its own counter at 2. *)
Lemma element_after_second (t : Test.state) (v : string) :
  Test.selector t = 2%Z ->
  (fst (Test.element v t) = Throw CardinalityError
   <-> Test.idc t = 2%Z \/ Test.psel t = 2%Z) /\
  (Test.idc t <> 2%Z -> Test.psel t <> 2%Z ->
   Test.element v t =
   if String.eqb (Test.prev t) "element" || String.eqb (Test.prev t) ""
   then (Normal tt,
         Test.mk (Test.string_ t ++ v) (Test.idc t) 3 (Test.psel t) "element")
   else (Throw OrderError,
         Test.mk (Test.string_ t) (Test.idc t) 3 (Test.psel t) (Test.prev t))).
Proof.
  destruct t as [s i se ps pr].
  cbn [Test.selector Test.idc Test.psel Test.prev Test.string_].
  intros ->. rewrite element_unfolded. split.
  - decide_counters; try lia;
      repeat match goal with
             | |- context [if ?b then _ else _] => destruct b; cbn
             end;
      split; try tauto; try discriminate; try (intros [?|?]; congruence); auto.
  - intros Hi Hp. decide_counters; try lia. reflexivity.
Qed.

Lemma id_after_second (t : Test.state) (v : string) :
  Test.idc t = 2%Z ->
  (fst (Test.id v t) = Throw CardinalityError
   <-> Test.selector t = 2%Z \/ Test.psel t = 2%Z) /\
  (Test.selector t <> 2%Z -> Test.psel t <> 2%Z ->
   Test.id v t =
   if String.eqb (Test.prev t) "element" || String.eqb (Test.prev t) ""
   then (Normal tt,
         Test.mk (Test.string_ t ++ "#" ++ v) 3 (Test.selector t) (Test.psel t) "id")
   else (Throw OrderError,
         Test.mk (Test.string_ t) 3 (Test.selector t) (Test.psel t) (Test.prev t))).
Proof.
  destruct t as [s i se ps pr].
  cbn [Test.selector Test.idc Test.psel Test.prev Test.string_].
  intros ->. rewrite id_unfolded. split.
  - decide_counters; try lia;
      repeat match goal with
             | |- context [if ?b then _ else _] => destruct b; cbn
             end;
      split; try tauto; try discriminate; try (intros [?|?]; congruence); auto.
  - intros Hi Hp. decide_counters; try lia. reflexivity.
Qed.

Lemma pseudoElement_after_second (t : Test.state) (v : string) :
  Test.psel t = 2%Z ->
  (fst (Test.pseudoElement v t) = Throw CardinalityError
   <-> Test.idc t = 2%Z \/ Test.selector t = 2%Z) /\
  (Test.idc t <> 2%Z -> Test.selector t <> 2%Z ->
   Test.pseudoElement v t =
   (Normal tt,
    Test.mk (Test.string_ t ++ "::" ++ v) (Test.idc t) (Test.selector t) 3 "psel")).
Proof.
  destruct t as [s i se ps pr].
  cbn [Test.selector Test.idc Test.psel Test.prev Test.string_].
  intros ->. rewrite pseudoElement_unfolded. split.
  - decide_counters; try lia;
      split; try tauto; try discriminate; try (intros [?|?]; congruence); auto.
  - intros Hi Hp. decide_counters; try lia. reflexivity.
Qed.

(** Three calls of one kind, one directly after the other, on any instance:
    when the first returned and the second threw the cardinality error, the
    counter was 0 before the first. *)
Lemma element_thrice (t t1 t2 : Test.state) (a b c : string) :
  Test.element a t = (Normal tt, t1) ->
  Test.element b t1 = (Throw CardinalityError, t2) ->
  Test.element c t2 =
  (Normal tt, Test.mk (Test.string_ t ++ a ++ c) (Test.idc t) 3 (Test.psel t) "element").
Proof.
  destruct t as [s i se ps pr].
  cbn [Test.selector Test.idc Test.psel Test.prev Test.string_].
  rewrite element_unfolded. intros H1.
  destruct ((i =? 2)%Z || (se + 1 =? 2)%Z || (ps =? 2)%Z) eqn:E1; [discriminate|].
  destruct (String.eqb pr "element" || String.eqb pr ""); [|discriminate].
  injection H1 as <-. rewrite element_unfolded. intros H2.
  destruct ((i =? 2)%Z || (se + 1 + 1 =? 2)%Z || (ps =? 2)%Z) eqn:E2; [|discriminate].
  injection H2 as <-. rewrite element_unfolded.
  assert (se = 0%Z) as -> by (decide_counters; first [lia | discriminate]).
  decide_counters; try discriminate. cbn. now rewrite string_app_assoc.
Qed.

Lemma pseudoElement_thrice (t t1 t2 : Test.state) (a b c : string) :
  Test.pseudoElement a t = (Normal tt, t1) ->
  Test.pseudoElement b t1 = (Throw CardinalityError, t2) ->
  Test.pseudoElement c t2 =
  (Normal tt, Test.mk (Test.string_ t ++ ("::" ++ a) ++ "::" ++ c)
                (Test.idc t) (Test.selector t) 3 "psel").
Proof.
  destruct t as [s i se ps pr].
  cbn [Test.selector Test.idc Test.psel Test.prev Test.string_].
  rewrite pseudoElement_unfolded. intros H1.
  destruct ((i =? 2)%Z || (se =? 2)%Z || (ps + 1 =? 2)%Z) eqn:E1; [discriminate|].
  injection H1 as <-. rewrite pseudoElement_unfolded. intros H2.
  destruct ((i =? 2)%Z || (se =? 2)%Z || (ps + 1 + 1 =? 2)%Z) eqn:E2; [|discriminate].
  injection H2 as <-. rewrite pseudoElement_unfolded.
  assert (ps = 0%Z) as -> by (decide_counters; first [lia | discriminate]).
  decide_counters; try discriminate. cbn. now rewrite string_app_assoc.
Qed.

Lemma id_thrice (t t1 t2 : Test.state) (a b c : string) :
  Test.id a t = (Normal tt, t1) ->
  Test.id b t1 = (Throw CardinalityError, t2) ->
  Test.id c t2 =
  (Throw OrderError,
   Test.mk (Test.string_ t ++ "#" ++ a) 3 (Test.selector t) (Test.psel t) "id").
Proof.
  destruct t as [s i se ps pr].
  cbn [Test.selector Test.idc Test.psel Test.prev Test.string_].
  rewrite id_unfolded. intros H1.
  destruct ((i + 1 =? 2)%Z || (se =? 2)%Z || (ps =? 2)%Z) eqn:E1; [discriminate|].
  destruct (String.eqb pr "element" || String.eqb pr ""); [|discriminate].
  injection H1 as <-. rewrite id_unfolded. intros H2.
  destruct ((i + 1 + 1 =? 2)%Z || (se =? 2)%Z || (ps =? 2)%Z) eqn:E2; [|discriminate].
  injection H2 as <-. rewrite id_unfolded.
  assert (i = 0%Z) as -> by (decide_counters; first [lia | discriminate]).
  decide_counters; try discriminate. cbn. reflexivity.
Qed.

(** C10, amended.  On every instance, [element], [id] and [pseudoElement]
    count the call first and then throw the cardinality error exactly when
    one of the three counters is 2, the caller's or another one.  So on
    every instance on which a kind's counter is 2 (the kind has been called
    twice), the next call of that kind throws the cardinality error exactly
    when one of the other two counters is 2; when neither is, [pseudoElement]
    returns and appends its text, and [element] and [id] return and append
    their text when the marker is [''] or ['element'] and throw the order
    error, appending nothing, when it is anything else.  In particular, for
    three calls of one kind made one directly after the other on any
    instance, the first returning and the second throwing the cardinality
    error: the third [element] and the third [pseudoElement] return and
    append their text, the third [id] throws the order error (the marker is
    ['id']); and this is what happens on an instance made by the
    constructor. *)
Theorem cardinality_check_is_exactly_two :
  (forall (t : Test.state) (v : string),
      let some_counter_is_2 (t' : Test.state) :=
        Test.idc t' = 2%Z \/ Test.selector t' = 2%Z \/ Test.psel t' = 2%Z in
      (Test.selector (snd (Test.element v t)) = (Test.selector t + 1)%Z /\
       (fst (Test.element v t) = Throw CardinalityError
        <-> some_counter_is_2 (snd (Test.element v t)))) /\
      (Test.idc (snd (Test.id v t)) = (Test.idc t + 1)%Z /\
       (fst (Test.id v t) = Throw CardinalityError
        <-> some_counter_is_2 (snd (Test.id v t)))) /\
      (Test.psel (snd (Test.pseudoElement v t)) = (Test.psel t + 1)%Z /\
       (fst (Test.pseudoElement v t) = Throw CardinalityError
        <-> some_counter_is_2 (snd (Test.pseudoElement v t))))) /\
  (forall (t : Test.state) (v : string),
      Test.selector t = 2%Z ->
      (fst (Test.element v t) = Throw CardinalityError
       <-> Test.idc t = 2%Z \/ Test.psel t = 2%Z) /\
      (Test.idc t <> 2%Z -> Test.psel t <> 2%Z ->
       Test.element v t =
       if String.eqb (Test.prev t) "element" || String.eqb (Test.prev t) ""
       then (Normal tt,
             Test.mk (Test.string_ t ++ v) (Test.idc t) 3 (Test.psel t) "element")
       else (Throw OrderError,
             Test.mk (Test.string_ t) (Test.idc t) 3 (Test.psel t) (Test.prev t)))) /\
  (forall (t : Test.state) (v : string),
      Test.idc t = 2%Z ->
      (fst (Test.id v t) = Throw CardinalityError
       <-> Test.selector t = 2%Z \/ Test.psel t = 2%Z) /\
      (Test.selector t <> 2%Z -> Test.psel t <> 2%Z ->
       Test.id v t =
       if String.eqb (Test.prev t) "element" || String.eqb (Test.prev t) ""
       then (Normal tt,
             Test.mk (Test.string_ t ++ "#" ++ v) 3 (Test.selector t) (Test.psel t) "id")
       else (Throw OrderError,
             Test.mk (Test.string_ t) 3 (Test.selector t) (Test.psel t) (Test.prev t)))) /\
  (forall (t : Test.state) (v : string),
      Test.psel t = 2%Z ->
      (fst (Test.pseudoElement v t) = Throw CardinalityError
       <-> Test.idc t = 2%Z \/ Test.selector t = 2%Z) /\
      (Test.idc t <> 2%Z -> Test.selector t <> 2%Z ->
       Test.pseudoElement v t =
       (Normal tt,
        Test.mk (Test.string_ t ++ "::" ++ v) (Test.idc t) (Test.selector t) 3 "psel"))) /\
  (forall (t t1 t2 : Test.state) (a b c : string),
      Test.element a t = (Normal tt, t1) ->
      Test.element b t1 = (Throw CardinalityError, t2) ->
      Test.element c t2 =
      (Normal tt,
       Test.mk (Test.string_ t ++ a ++ c) (Test.idc t) 3 (Test.psel t) "element")) /\
  (forall (t t1 t2 : Test.state) (a b c : string),
      Test.pseudoElement a t = (Normal tt, t1) ->
      Test.pseudoElement b t1 = (Throw CardinalityError, t2) ->
      Test.pseudoElement c t2 =
      (Normal tt,
       Test.mk (Test.string_ t ++ ("::" ++ a) ++ "::" ++ c)
         (Test.idc t) (Test.selector t) 3 "psel")) /\
  (forall (t t1 t2 : Test.state) (a b c : string),
      Test.id a t = (Normal tt, t1) ->
      Test.id b t1 = (Throw CardinalityError, t2) ->
      Test.id c t2 =
      (Throw OrderError,
       Test.mk (Test.string_ t ++ "#" ++ a) 3 (Test.selector t) (Test.psel t) "id")) /\
  (forall (val a b c : string),
      fst (Test.element a (Test.constructor val)) = Normal tt /\
      fst (Test.element b (attempts [Element a] (Test.constructor val)))
        = Throw CardinalityError /\
      Test.element c (attempts [Element a; Element b] (Test.constructor val))
        = (Normal tt, Test.mk (val ++ a ++ c) 0 3 0 "element")) /\
  (forall (val a b c : string),
      fst (Test.pseudoElement a (Test.constructor val)) = Normal tt /\
      fst (Test.pseudoElement b (attempts [PseudoElement a] (Test.constructor val)))
        = Throw CardinalityError /\
      Test.pseudoElement c (attempts [PseudoElement a; PseudoElement b] (Test.constructor val))
        = (Normal tt, Test.mk (val ++ ("::" ++ a) ++ "::" ++ c) 0 0 3 "psel")) /\
  (forall (val a b c : string),
      fst (Test.id a (Test.constructor val)) = Normal tt /\
      fst (Test.id b (attempts [Id a] (Test.constructor val))) = Throw CardinalityError /\
      Test.id c (attempts [Id a; Id b] (Test.constructor val))
        = (Throw OrderError, Test.mk (val ++ "#" ++ a) 3 0 0 "id")).
Proof.
  split; [|repeat apply conj].
  - intros t v. cbn zeta.
    repeat split; run_method;
      repeat match goal with
             | |- context [(?z =? 2)%Z] => destruct (Z.eqb_spec z 2); cbn
             | |- context [if ?b then _ else _] => destruct b; cbn
             end;
      try reflexivity; try discriminate; try tauto; try lia;
      try (intros [?|[?|?]]; congruence).
  - exact element_after_second.
  - exact id_after_second.
  - exact pseudoElement_after_second.
  - exact element_thrice.
  - exact pseudoElement_thrice.
  - exact id_thrice.
  - intros val a b c. repeat split; cbv -[String.append];
      now rewrite ?string_app_assoc.
  - intros val a b c. repeat split; cbv -[String.append];
      now rewrite ?string_app_assoc.
  - intros val a b c. repeat split; cbv -[String.append];
      now rewrite ?string_app_assoc.
Qed.

(** [element('a').id('i')], then two more calls of [element]: the second
    [element] throws the cardinality error, the third one the order error,
    the marker being ['id'].  [element('a').pseudoElement('p')], then a
    second [pseudoElement] and a second [element], both throwing: the third
    [element] throws the cardinality error again, for the counter of
    [pseudoElement] is 2.  And [element] three times in a row on an instance
    that already has an id. *)
Lemma cardinality_check_is_exactly_two_witness :
  let t := attempts [Element "a"; Id "i"; Element "b"] (Test.constructor "") in
  let u := attempts [Element "a"; PseudoElement "p"; PseudoElement "q"; Element "b"]
             (Test.constructor "") in
  let w := Test.mk "#i" 1 0 0 "" in
  (Test.selector t = 2%Z /\ Test.idc t <> 2%Z /\ Test.psel t <> 2%Z /\
   Test.element "c" t = (Throw OrderError, Test.mk "a#i" 1 3 0 "id")) /\
  (Test.selector u = 2%Z /\ Test.psel u = 2%Z /\
   fst (Test.element "c" u) = Throw CardinalityError) /\
  (Test.element "a" w = (Normal tt, Test.mk "#ia" 1 1 0 "element") /\
   Test.element "b" (Test.mk "#ia" 1 1 0 "element")
     = (Throw CardinalityError, Test.mk "#ia" 1 2 0 "element") /\
   Test.element "c" (Test.mk "#ia" 1 2 0 "element")
     = (Normal tt, Test.mk "#iac" 1 3 0 "element")).
Proof.
  cbn zeta.
  destruct cardinality_check_is_exactly_two
    as (_ & Hsecond & _ & _ & Hthrice & _).
  split; [|split].
  - assert (Test.idc (attempts [Element "a"; Id "i"; Element "b"] (Test.constructor ""))
            <> 2%Z) as Hi by (vm_compute; discriminate).
    assert (Test.psel (attempts [Element "a"; Id "i"; Element "b"] (Test.constructor ""))
            <> 2%Z) as Hp by (vm_compute; discriminate).
    split; [reflexivity|]. split; [exact Hi|]. split; [exact Hp|].
    exact (proj2 (Hsecond
             (attempts [Element "a"; Id "i"; Element "b"] (Test.constructor ""))
             "c" eq_refl) Hi Hp).
  - split; [reflexivity|]. split; [reflexivity|].
    exact (proj2 (proj1 (Hsecond
             (attempts [Element "a"; PseudoElement "p"; PseudoElement "q"; Element "b"]
                (Test.constructor "")) "c" eq_refl)) (or_intror eq_refl)).
  - split; [reflexivity|]. split; [reflexivity|].
    exact (Hthrice (Test.mk "#i" 1 0 0 "") (Test.mk "#ia" 1 1 0 "element")
             (Test.mk "#ia" 1 2 0 "element") "a" "b" "c" eq_refl eq_refl).
Defined.

(** ** The selector builder: further properties *)

(** One more call on an instance that admits it. *)
Lemma admits_step (t : Test.state) (lo : nat) (f : fragment) (fs : list fragment) :
  admits t lo (f :: fs) ->
  (lo <= category f)%nat ->
  exists t1, append f t = (Normal tt, t1) /\ admits t1 (category f) fs.
Proof.
  unfold admits. intros (Hprev & Hs & Hi & Hp) Hlo.
  cbn [occurrences] in Hs, Hi, Hp.
  assert (Test.prev (snd (append f t)) = marker f -> fst (append f t) = Normal tt ->
          exists t1, append f t = (Normal tt, t1) /\
            ((Test.prev t1 = "" \/
              exists l, Test.prev t1 = marker l /\ (category l <= category f)%nat /\
                        (once_only l = true -> 1 <= counter_of l t1)%Z) /\
             (0 <= Test.selector t1 /\
              Test.selector t1 + Z.of_nat (occurrences (Element "") fs) <= 1)%Z /\
             (0 <= Test.idc t1 /\ Test.idc t1 + Z.of_nat (occurrences (Id "") fs) <= 1)%Z /\
             (0 <= Test.psel t1 /\
              Test.psel t1 + Z.of_nat (occurrences (PseudoElement "") fs) <= 1)%Z)) as Hgo.
  { intros Hm Hn. destruct (append_counters f t) as (Cs & Ci & Cp).
    destruct (append f t) as [c t1]. cbn [fst snd] in *. subst c.
    exists t1. split; [reflexivity|]. split.
    { right. exists f. split; [exact Hm|]. split; [lia|].
      destruct f; cbn [once_only same_kind counter_of]; try discriminate; intros _;
        rewrite ?Cs, ?Ci, ?Cp; cbn [same_kind]; lia. }
    rewrite Cs, Ci, Cp. destruct f; cbn [same_kind] in *; lia. }
  destruct Hprev as [Hprev | (l & Hprev & Hl & Hone)].
  - destruct f; cbn [same_kind] in *; apply Hgo; run_method; rewrite ?Hprev; cbn;
      split_conditions; try reflexivity; try lia;
      try (exfalso; rewrite ?Hprev in *; cbn in *; first [discriminate | congruence | lia]).
  - destruct f, l; cbn [category] in *; try lia;
      cbn [same_kind marker once_only counter_of] in *;
      try specialize (Hone eq_refl);
      apply Hgo; run_method; rewrite ?Hprev; cbn;
      split_conditions; try reflexivity; try lia;
      try (exfalso; rewrite ?Hprev in *; cbn in *; first [discriminate | congruence | lia]).
Qed.

Lemma admits_appends (fs : list fragment) :
  forall (t : Test.state) (lo : nat),
    admits t lo fs -> ordered_from lo fs = true ->
    exists t', appends fs t = (Normal tt, t').
Proof.
  induction fs as [|f fs IH]; intros t lo Ha Ho; cbn [appends].
  - now exists t.
  - cbn [ordered_from] in Ho. apply andb_true_iff in Ho as [Hlo Ho].
    apply Nat.leb_le in Hlo.
    destruct (admits_step t lo f fs Ha Hlo) as (t1 & H1 & Ha1).
    unfold bind. rewrite H1. now apply (IH t1 (category f)).
Qed.

Lemma obeys_rules_admits (fs : list fragment) (val : string) :
  obeys_rules fs = true -> admits (Test.constructor val) 0 fs /\ ordered_from 0 fs = true.
Proof.
  unfold obeys_rules, admits. rewrite !andb_true_iff, !Nat.leb_le.
  intros (((Ho & Hs) & Hi) & Hp). cbn [Test.constructor Test.prev Test.selector Test.idc Test.psel].
  repeat split; try lia; try assumption. now left.
Qed.

(** A chain that obeys the rules of the documentation is accepted: no call
    of it throws, on the instance that the facade makes for it, and
    [stringify] returns the texts of its fragments one after the other. *)
Theorem rule_obeying_chain_accepted
  (f : fragment) (fs : list fragment) (h : store) :
  obeys_rules (f :: fs) = true ->
  exists t',
    appends (f :: fs) (Test.constructor "") = (Normal tt, t') /\
    build_and_stringify f fs h = (Normal (concat_texts (f :: fs)), (h ++ [t'])%list).
Proof.
  intros H. destruct (obeys_rules_admits _ "" H) as [Ha Ho].
  destruct (admits_appends _ _ _ Ha Ho) as [t' Ht'].
  exists t'. split; [exact Ht'|].
  unfold build_and_stringify, bind. rewrite build_new, Ht'. cbn [fst snd].
  rewrite call_new. cbn. now rewrite (appends_string _ _ _ Ht').
Qed.

(** [div#main.c1.c2[a]:hover:focus::after]. *)
Lemma rule_obeying_chain_accepted_witness :
  let fs := [Id "main"; Class "c1"; Class "c2"; Attr "a"; PseudoClass "hover";
             PseudoClass "focus"; PseudoElement "after"] in
  obeys_rules (Element "div" :: fs) = true /\
  exists t',
    appends (Element "div" :: fs) (Test.constructor "") = (Normal tt, t') /\
    build_and_stringify (Element "div") fs []
    = (Normal (concat_texts (Element "div" :: fs)), ([] ++ [t'])%list).
Proof.
  cbn zeta. split; [reflexivity|].
  apply (rule_obeying_chain_accepted (Element "div")
           [Id "main"; Class "c1"; Class "c2"; Attr "a"; PseudoClass "hover";
            PseudoClass "focus"; PseudoElement "after"] []).
  reflexivity.
Defined.

(** After any calls on an instance made by the constructor, throwing or not,
    each counter is the number of calls of its kind. *)
Theorem counters_count_calls (fs : list fragment) (val : string) :
  let t := attempts fs (Test.constructor val) in
  Test.selector t = Z.of_nat (occurrences (Element "") fs) /\
  Test.idc t = Z.of_nat (occurrences (Id "") fs) /\
  Test.psel t = Z.of_nat (occurrences (PseudoElement "") fs).
Proof.
  cbn zeta. destruct (attempts_counters fs (Test.constructor val)) as (Hs & Hi & Hp).
  cbn [Test.constructor Test.selector Test.idc Test.psel] in Hs, Hi, Hp.
  repeat split; lia.
Qed.

(** After any calls on an instance made by the constructor, the text is the
    one the constructor was given and then the texts of the calls that
    returned, in their order: a call that threw left no text. *)
Theorem text_is_what_was_appended (fs : list fragment) (val : string) :
  Test.string_ (attempts fs (Test.constructor val))
  = val ++ concat_texts (appended fs (Test.constructor val)).
Proof. apply (attempts_string fs (Test.constructor val)). Qed.

(** Calls add to the counter of their kind. *)
Lemma counter_of_attempts (k : fragment) (fs : list fragment) (t : Test.state) :
  once_only k = true ->
  counter_of k (attempts fs t) = (counter_of k t + Z.of_nat (occurrences k fs))%Z.
Proof.
  intros Hk. destruct (attempts_counters fs t) as (Hs & Hi & Hp).
  destruct k as [v|v|v|v|v|v]; try discriminate Hk; cbn [counter_of].
  - now rewrite (occurrences_kind (Element v) (Element "")).
  - now rewrite (occurrences_kind (Id v) (Id "")).
  - now rewrite (occurrences_kind (PseudoElement v) (PseudoElement "")).
Qed.

(** Once the counter of a kind is 2, and as long as that kind is not called
    again, every call of one of the other two counted kinds throws the
    cardinality error, also the first call of its kind. *)
Theorem counter_at_two_blocks_other_kinds
  (k g : fragment) (fs : list fragment) (t : Test.state) :
  once_only k = true -> once_only g = true -> same_kind k g = false ->
  counter_of k t = 2%Z ->
  occurrences k fs = 0%nat ->
  fst (append g (attempts fs t)) = Throw CardinalityError.
Proof.
  intros Hk Hg Hkg H2 Hocc.
  pose proof (counter_of_attempts k fs t Hk) as Hc. rewrite H2, Hocc in Hc.
  destruct k, g; try discriminate; cbn [counter_of] in Hc; run_method; rewrite Hc; cbn;
    rewrite ?orb_true_r; reflexivity.
Qed.

(** After [element] twice, [id] and [pseudoElement] throw. *)
Lemma counter_at_two_blocks_other_kinds_witness :
  let t := attempts [Element "a"; Element "b"] (Test.constructor "") in
  counter_of (Element "") t = 2%Z /\
  occurrences (Element "") [Class "c"; Attr "d"] = 0%nat /\
  fst (append (Id "x") (attempts [Class "c"; Attr "d"] t)) = Throw CardinalityError /\
  fst (append (PseudoElement "y") (attempts [Class "c"; Attr "d"] t)) = Throw CardinalityError.
Proof.
  cbn zeta. split; [reflexivity|]. split; [reflexivity|]. split.
  - apply (counter_at_two_blocks_other_kinds (Element "") (Id "x") [Class "c"; Attr "d"]
             (attempts [Element "a"; Element "b"] (Test.constructor ""))); reflexivity.
  - apply (counter_at_two_blocks_other_kinds (Element "") (PseudoElement "y")
             [Class "c"; Attr "d"]
             (attempts [Element "a"; Element "b"] (Test.constructor ""))); reflexivity.
Defined.

(** What a call that throws leaves behind: the error is one of the two of the
    class, the text is as it was, the counter of the call is incremented, and
    the marker is as it was unless the call is [pseudoElement], which sets
    the marker before it checks. *)
Theorem throwing_call_effects (f : fragment) (t : Test.state) (e : exception) :
  fst (append f t) = Throw e ->
  (e = CardinalityError \/ e = OrderError) /\
  Test.string_ (snd (append f t)) = Test.string_ t /\
  counter_of f (snd (append f t)) = (counter_of f t + if once_only f then 1 else 0)%Z /\
  Test.prev (snd (append f t)) =
    match f with PseudoElement _ => "psel" | _ => Test.prev t end.
Proof.
  destruct f; run_method; split_conditions; intros H; try discriminate H;
    injection H as <-; repeat split; auto; cbn; lia.
Qed.

(** After [element] twice, [pseudoElement] throws and has set the marker. *)
Lemma throwing_call_effects_witness :
  let t := attempts [Element "a"; Element "b"] (Test.constructor "") in
  fst (append (PseudoElement "c") t) = Throw CardinalityError /\
  Test.prev t = "element" /\
  Test.prev (snd (append (PseudoElement "c") t)) = "psel" /\
  Test.string_ (snd (append (PseudoElement "c") t)) = Test.string_ t.
Proof.
  cbn zeta. split; [reflexivity|]. split; [reflexivity|].
  pose proof (throwing_call_effects (PseudoElement "c")
                (attempts [Element "a"; Element "b"] (Test.constructor ""))
                CardinalityError eq_refl) as (_ & Hs & _ & Hp).
  split; [exact Hp | exact Hs].
Defined.

(** The third check of [id], of the marker against ['psel'], never throws:
    where the two checks before it have passed, the marker is empty or
    ['element'], and [id] returns with the marker ['id'] and its text
    appended. *)
Theorem id_psel_check_never_fires (t t1 : Test.state) :
  (assign (fun t => Test.set_idc (Test.idc t + 1) t) ;;
   Test.exception1 ;;
   Test.exception2 "element") t = (Normal tt, t1) ->
  String.eqb (Test.prev t1) "psel" = false /\
  forall value,
    Test.id value t
    = (Normal tt, Test.set_string (Test.string_ t1 ++ "#" ++ value) (Test.set_prev "id" t1)).
Proof.
  intros H.
  unfold Test.exception1, Test.exception2, bind, assign in H. cbn in H.
  assert (t1 = Test.set_idc (Test.idc t + 1) t /\
          (Test.prev t = "" \/ Test.prev t = "element") /\
          (Test.idc t + 1 =? 2)%Z || (Test.selector t =? 2)%Z || (Test.psel t =? 2)%Z = false)
    as (-> & Hp & Hc).
  { destruct ((Test.idc t + 1 =? 2)%Z || (Test.selector t =? 2)%Z || (Test.psel t =? 2)%Z);
      cbn in H; [discriminate H|].
    destruct (String.eqb_spec (Test.prev t) "element") as [E|E]; cbn in H.
    - injection H as <-. auto.
    - destruct (String.eqb_spec (Test.prev t) "") as [E0|E0]; cbn in H; [|discriminate H].
      injection H as <-. auto. }
  split.
  - cbn. destruct Hp as [-> | ->]; reflexivity.
  - intros value. clear H. destruct t as [s i se ps pr].
    cbn [Test.prev Test.idc Test.selector Test.psel] in Hp, Hc.
    run_method. rewrite Hc.
    destruct Hp as [-> | ->]; cbv -[String.append Z.add]; reflexivity.
Qed.

(** [element('a').id('x')]. *)
Lemma id_psel_check_never_fires_witness :
  let t := attempts [Element "a"] (Test.constructor "") in
  let t1 := Test.set_idc 1 t in
  (assign (fun t => Test.set_idc (Test.idc t + 1) t) ;;
   Test.exception1 ;;
   Test.exception2 "element") t = (Normal tt, t1) /\
  String.eqb (Test.prev t1) "psel" = false /\
  Test.id "x" t = (Normal tt, Test.mk "a#x" 1 1 0 "id").
Proof.
  cbn zeta. split; [reflexivity|].
  destruct (id_psel_check_never_fires
              (attempts [Element "a"] (Test.constructor ""))
              (Test.set_idc 1 (attempts [Element "a"] (Test.constructor "")))
              eq_refl) as [H1 H2].
  split; [exact H1 | exact (H2 "x")].
Defined.

(** ** The rectangle *)

(** C8.  The object that [Rectangle] returns has the two arguments as its
    fields [width] and [height] and a method [getArea]; the method
    multiplies the fields that the object has when it is called: those of the
    factory, or those a caller assigned since. *)
Theorem Rectangle_getArea :
  (forall (multiply : value -> value -> value) (w h : value),
      get (Rectangle w h) "width" = w /\
      get (Rectangle w h) "height" = h /\
      get (Rectangle w h) "getArea" = VFunction "getArea" /\
      getArea multiply (Rectangle w h) = multiply w h /\
      (forall w' : value,
          getArea multiply (assign_property (Rectangle w h) "width" w') = multiply w' h) /\
      (forall h' : value,
          getArea multiply (assign_property (Rectangle w h) "height" h') = multiply w h') /\
      (forall w' h' : value,
          getArea multiply
            (assign_property (assign_property (Rectangle w h) "width" w') "height" h')
          = multiply w' h')) /\
  getArea integer_product (Rectangle (VNumber 10) (VNumber 20)) = VNumber 200 /\
  get (Rectangle (VNumber 10) (VNumber 20)) "width" = VNumber 10 /\
  get (Rectangle (VNumber 10) (VNumber 20)) "height" = VNumber 20.
Proof.
  split; [|repeat split].
  intros multiply w h. repeat split; intros; reflexivity.
Qed.

(** ** The codec *)

(** [getJSON] of a rectangle: the two fields; the method has no JSON text. *)
Example getJSON_Rectangle :
  getJSON JSON.stringify (Rectangle (VNumber 10) (VNumber 20))
  = Some ("{" ++ quoted "width" ++ ":10," ++ quoted "height" ++ ":20}").
Proof. reflexivity. Qed.

(** What [Object.setPrototypeOf] returns for an array or an object. *)
Lemma setPrototypeOf_container (O proto : value) :
  is_container O = true ->
  is_object proto || match proto with VNull => true | _ => false end = true ->
  exists result,
    Object_setPrototypeOf O proto = Normal result /\
    is_container result = true /\
    literal result = literal O /\
    getPrototypeOf result = proto /\
    (forall key, get_own result key = get_own O key).
Proof.
  intros HO Hp. destruct O; try discriminate HO; cbn [Object_setPrototypeOf];
    rewrite Hp; eexists; repeat split.
Qed.

Lemma setPrototypeOf_never_SyntaxError (O proto : value) :
  Object_setPrototypeOf O proto <> Throw SyntaxError.
Proof.
  destruct O; cbn [Object_setPrototypeOf]; try discriminate;
    destruct (is_object proto || _); discriminate.
Qed.

(** C6 as it is worded fails on the well-formed text [null]: it parses, to
    null, and [Object.setPrototypeOf] throws a [TypeError] on null.  On the
    well-formed text [1] the number comes back as it is, without the
    template. *)
Lemma fromJSON_null_throws :
  JSON.parse "null" = Some VNull /\
  fromJSON JSON.parse Circle_prototype "null" = Throw TypeError /\
  ~ (exists result, fromJSON JSON.parse Circle_prototype "null" = Normal result) /\
  fromJSON JSON.parse Circle_prototype "1" = Normal (VNumber 1) /\
  get (VNumber 1) "getCircumference" <> get Circle_prototype "getCircumference".
Proof.
  split; [reflexivity|]. split; [reflexivity|]. split; [|split; [reflexivity|discriminate]].
  intros [result H]. discriminate H.
Qed.

(** C6, amended.  For a template that is an object or null and a text that
    parses to an array or an object, [fromJSON] returns an array or object
    that has the content of the parsed one, so the own properties that the
    text gave it and no other, and the template as its prototype: a property
    that is not its own is looked up in the template. *)
Theorem fromJSON_attaches_template
  (JSON_parse : string -> option value) (proto : value) (json : string) (parsed : value) :
  JSON_parse json = Some parsed ->
  is_container parsed = true ->
  is_object proto || match proto with VNull => true | _ => false end = true ->
  exists result,
    fromJSON JSON_parse proto json = Normal result /\
    literal result = literal parsed /\
    getPrototypeOf result = proto /\
    (forall key, get_own result key = get_own parsed key) /\
    (forall key, get result key =
                 match get_own parsed key with
                 | Some x => x
                 | None => get proto key
                 end).
Proof.
  intros Hparse Hc Hp. unfold fromJSON. rewrite Hparse.
  destruct (setPrototypeOf_container parsed proto Hc Hp)
    as (result & Hres & Hcr & Hlit & Hproto & Hown).
  exists result. repeat split; try assumption.
  intros key. rewrite <- Hown.
  destruct result; try discriminate Hcr; cbn [getPrototypeOf] in Hproto; subst;
    reflexivity.
Qed.

(** [fromJSON(Circle.prototype, '{"radius":10}')]. *)
Lemma fromJSON_attaches_template_witness :
  let json := "{" ++ quoted "radius" ++ ":10}" in
  let parsed := VObject Object_prototype [("radius", VNumber 10)] in
  JSON.parse json = Some parsed /\
  exists result,
    fromJSON JSON.parse Circle_prototype json = Normal result /\
    literal result = literal parsed /\
    getPrototypeOf result = Circle_prototype /\
    (forall key, get_own result key = get_own parsed key) /\
    (forall key, get result key =
                 match get_own parsed key with
                 | Some x => x
                 | None => get Circle_prototype key
                 end).
Proof.
  cbn zeta. split; [reflexivity|].
  apply (fromJSON_attaches_template JSON.parse Circle_prototype
           ("{" ++ quoted "radius" ++ ":10}")
           (VObject Object_prototype [("radius", VNumber 10)]));
    reflexivity.
Defined.

Example fromJSON_Circle :
  let r := VObject Circle_prototype [("radius", VNumber 10)] in
  fromJSON JSON.parse Circle_prototype ("{" ++ quoted "radius" ++ ":10}") = Normal r /\
  get r "radius" = VNumber 10 /\
  get r "getCircumference" = VFunction "getCircumference".
Proof. repeat split. Qed.

(** A text with a key and no value. *)
Example fromJSON_ill_formed :
  JSON.parse ("{" ++ quoted "radius" ++ ":}") = None /\
  fromJSON JSON.parse Circle_prototype ("{" ++ quoted "radius" ++ ":}") = Throw SyntaxError.
Proof. split; reflexivity. Qed.

(** ** The JSON codec: texts parse back *)

Lemma parse_quote_char (c : ascii) (tail : string) :
  JSON.parse_chars (JSON.quote_char c ++ tail) = JSON.prepend c (JSON.parse_chars tail).
Proof.
  destruct c as [[] [] [] [] [] [] [] []]; reflexivity.
Qed.

Lemma parse_chars_quote (s rest : string) :
  JSON.parse_chars (JSON.quote_chars s ++ String JSON.dquote rest) = Some (s, rest).
Proof.
  induction s as [|c s IH]; [reflexivity|].
  cbn [JSON.quote_chars]. rewrite string_app_assoc, parse_quote_char, IH.
  reflexivity.
Qed.

Lemma parse_digits_cons (c : ascii) (r : string) :
  parse_digits (String c r) =
  match digit_of_char c with
  | Some D => let '(d, r') := parse_digits r in (D d, r')
  | None => (Nil, String c r)
  end.
Proof. reflexivity. Qed.

Lemma parse_digits_print (d : uint) (rest : string) :
  no_digit_head rest = true ->
  parse_digits (NilEmpty.string_of_uint d ++ rest) = (d, rest).
Proof.
  intros Hrest. induction d; cbn [NilEmpty.string_of_uint];
    try (change (String ?c ?s ++ rest) with (String c (s ++ rest));
         rewrite parse_digits_cons, IHd; reflexivity).
  change ("" ++ rest) with rest.
  destruct rest as [|c r]; [reflexivity|].
  rewrite parse_digits_cons. cbn [no_digit_head] in Hrest.
  now destruct (digit_of_char c).
Qed.

Lemma to_uint_leading_nonzero (p : positive) : leading_nonzero (Pos.to_uint p) = true.
Proof.
  pose proof (DecimalPos.Unsigned.to_of (Pos.to_uint p)) as H.
  rewrite DecimalPos.Unsigned.of_to in H. cbn [N.to_uint] in H.
  pose proof (DecimalPos.Unsigned.to_uint_nonzero p) as Hz.
  destruct (Pos.to_uint p) as [|d| | | | | | | | |] eqn:E; try reflexivity.
  - now destruct (DecimalPos.Unsigned.to_uint_nonnil p).
  - exfalso. unfold unorm in H. cbn [nzhead] in H.
    destruct (nzhead d) eqn:En;
      [apply Hz; exact H | now apply nzhead_nonzero in En | discriminate H ..].
Qed.

Lemma parse_natural_print (d : uint) (rest : string) :
  leading_nonzero d = true ->
  no_digit_head rest = true ->
  JSON.continues_number rest = false ->
  JSON.parse_natural (NilEmpty.string_of_uint d ++ rest) = Some (d, rest).
Proof.
  intros Hd Hrest Hcont. unfold JSON.parse_natural.
  rewrite parse_digits_print by assumption.
  destruct d; try discriminate Hd; now rewrite Hcont.
Qed.

Lemma string_of_uint_head (d : uint) :
  leading_nonzero d = true ->
  exists c t, NilEmpty.string_of_uint d = String c t /\
              (49 <= N_of_ascii c <= 57)%N.
Proof.
  destruct d; try discriminate; intros _; cbn [NilEmpty.string_of_uint];
    eexists _, _; (split; [reflexivity | cbn; lia]).
Qed.

Lemma parse_number_print (n : Z) (rest : string) :
  number_stop rest = true ->
  JSON.parse_number (Number_toString n ++ rest) = Some (n, rest).
Proof.
  unfold number_stop. rewrite andb_true_iff, negb_true_iff. intros [Hrest Hcont].
  unfold Number_toString. destruct n as [|p|p]; cbn [Z.to_int NilZero.string_of_int].
  - change (NilZero.string_of_uint zero) with "0".
    change ("0" ++ rest) with (String "0" rest).
    unfold JSON.parse_number. change (N_of_ascii "0" =? 45)%N with false. cbv iota.
    unfold JSON.parse_natural. rewrite parse_digits_cons.
    change (digit_of_char "0") with (Some D0). cbv iota.
    replace (parse_digits rest) with (Nil, rest).
    + now rewrite Hcont.
    + symmetry. apply (parse_digits_print Nil rest Hrest).
  - pose proof (to_uint_leading_nonzero p) as Hd.
    assert (NilZero.string_of_uint (Pos.to_uint p) = NilEmpty.string_of_uint (Pos.to_uint p)) as ->
      by (now destruct (Pos.to_uint p)).
    destruct (string_of_uint_head _ Hd) as (c & t & Ht & Hc).
    pose proof (parse_natural_print _ rest Hd Hrest Hcont) as Hp.
    rewrite Ht in *. change (String c t ++ rest) with (String c (t ++ rest)) in *.
    unfold JSON.parse_number.
    replace (N_of_ascii c =? 45)%N with false by (symmetry; apply N.eqb_neq; lia).
    rewrite Hp. f_equal. f_equal.
    apply (DecimalZ.of_to (Z.pos p)).
  - pose proof (to_uint_leading_nonzero p) as Hd.
    assert (NilZero.string_of_uint (Pos.to_uint p) = NilEmpty.string_of_uint (Pos.to_uint p)) as ->
      by (now destruct (Pos.to_uint p)).
    change (String "-" ?s ++ rest) with (String "-" (s ++ rest)).
    unfold JSON.parse_number. change (N_of_ascii "-" =? 45)%N with true. cbv iota.
    rewrite (parse_natural_print _ rest Hd Hrest Hcont). f_equal. f_equal.
    apply (DecimalZ.of_to (Z.neg p)).
Qed.

Lemma serialize_array (p : value) (es : list value) :
  JSON.serialize (VArray p es) = Some ("[" ++ JSON.join (items es) ++ "]").
Proof.
  reflexivity.
Qed.

Lemma serialize_object (p : value) (props : list (string * value)) :
  JSON.serialize (VObject p props) = Some ("{" ++ JSON.join (members props) ++ "}").
Proof.
  reflexivity.
Qed.

Lemma need_array p es : need (VArray p es) = S (need_items es).
Proof. reflexivity. Qed.

Lemma need_object p props : need (VObject p props) = S (need_members props).
Proof. reflexivity. Qed.

(** Induction on values, with the elements of an array and the property
    values of an object as premises. *)
Lemma value_induction (P : value -> Prop)
  (Pundefined : P VUndefined)
  (Pnull : P VNull)
  (Pboolean : forall b, P (VBoolean b))
  (Pnumber : forall n, P (VNumber n))
  (Pstring : forall s, P (VString s))
  (Pfunction : forall name, P (VFunction name))
  (Parray : forall p es, P p -> Forall P es -> P (VArray p es))
  (Pobject : forall p props,
      P p -> Forall (fun kv => P (snd kv)) props -> P (VObject p props)) :
  forall v, P v.
Proof.
  refine (fix IH (v : value) : P v :=
            match v with
            | VUndefined => Pundefined
            | VNull => Pnull
            | VBoolean b => Pboolean b
            | VNumber n => Pnumber n
            | VString s => Pstring s
            | VFunction name => Pfunction name
            | VArray p es =>
                Parray p es (IH p)
                  ((fix go (l : list value) : Forall P l :=
                      match l with
                      | [] => @List.Forall_nil _ P
                      | e :: l' => @List.Forall_cons _ P e l' (IH e) (go l')
                      end) es)
            | VObject p props =>
                Pobject p props (IH p)
                  ((fix go (l : list (string * value)) : Forall (fun kv => P (snd kv)) l :=
                      match l with
                      | [] => @List.Forall_nil _ _
                      | kv :: l' =>
                          @List.Forall_cons _ (fun kv => P (snd kv)) kv l'
                            (IH (snd kv)) (go l')
                      end) props)
            end).
Qed.

Lemma Number_toString_head (n : Z) :
  exists c t, Number_toString n = String c t /\
              ((N_of_ascii c = 45)%N \/ (48 <= N_of_ascii c <= 57)%N).
Proof.
  unfold Number_toString. destruct n as [|p|p]; cbn [Z.to_int NilZero.string_of_int].
  - exists "0"%char, "". split; [reflexivity|]. right. cbn. lia.
  - pose proof (to_uint_leading_nonzero p) as Hd.
    destruct (string_of_uint_head _ Hd) as (c & t & Ht & Hc).
    exists c, t. split; [|right; lia].
    rewrite <- Ht. now destruct (Pos.to_uint p).
  - eexists _, _. split; [reflexivity|]. left. reflexivity.
Qed.

Lemma serialize_head (v : value) (text : string) :
  JSON.serialize v = Some text ->
  exists c t, text = String c t /\ value_head c = true.
Proof.
  destruct v as [| |[]|n|s|name|p es|p props]; try discriminate.
  - intros [= <-]. now eexists _, _.
  - intros [= <-]. now eexists _, _.
  - intros [= <-]. now eexists _, _.
  - intros [= <-]. destruct (Number_toString_head n) as (c & t & -> & Hc).
    exists c, t. split; [reflexivity|]. unfold value_head.
    destruct Hc as [Hc|Hc].
    + rewrite Hc. reflexivity.
    + replace ((48 <=? N_of_ascii c)%N && (N_of_ascii c <=? 57)%N) with true.
      * now rewrite !orb_true_r.
      * symmetry. apply andb_true_iff. split; apply N.leb_le; lia.
  - intros [= <-]. now eexists _, _.
  - rewrite serialize_array. intros [= <-]. now eexists _, _.
  - rewrite serialize_object. intros [= <-]. now eexists _, _.
Qed.

Lemma value_head_not_whitespace (c : ascii) :
  value_head c = true -> JSON.is_whitespace c = false.
Proof. by_cases_on_char c; reflexivity. Qed.

Lemma value_head_not_bracket (c : ascii) :
  value_head c = true -> JSON.char_is 93 c = false.
Proof. by_cases_on_char c; reflexivity. Qed.

Lemma skip_whitespace_head (c : ascii) (r : string) :
  JSON.is_whitespace c = false -> JSON.skip_whitespace (String c r) = String c r.
Proof. intros H. cbn [JSON.skip_whitespace]. now rewrite H. Qed.

Lemma parse_value_number (f : nat) (c : ascii) (r : string) :
  number_head c = true ->
  JSON.parse_value (S f) (String c r) =
  match JSON.parse_number (String c r) with
  | Some (n, r') => Some (VNumber n, r')
  | None => None
  end.
Proof. by_cases_on_char c; reflexivity. Qed.

Lemma parse_value_string (f : nat) (r : string) :
  JSON.parse_value (S f) (String JSON.dquote r) =
  match JSON.parse_chars r with
  | Some (str, r') => Some (VString str, r')
  | None => None
  end.
Proof. reflexivity. Qed.

Lemma parse_value_array (f : nat) (c : ascii) (r : string) :
  value_head c = true ->
  JSON.parse_value (S f) (String "[" (String c r)) =
  JSON.parse_elements f [] (String c r).
Proof.
  intros H. pose proof (value_head_not_whitespace c H) as Hw.
  pose proof (value_head_not_bracket c H) as Hb.
  change (JSON.parse_value (S f) (String "[" (String c r))) with
    (match JSON.skip_whitespace (String c r) with
     | String c' r' =>
         if JSON.char_is 93 c' then Some (VArray Array_prototype [], r')
         else JSON.parse_elements f [] (String c r)
     | EmptyString => None
     end).
  now rewrite skip_whitespace_head, Hb.
Qed.

Lemma parse_value_object (f : nat) (r : string) :
  JSON.parse_value (S f) (String "{" (String JSON.dquote r)) =
  JSON.parse_members f [] (String JSON.dquote r).
Proof. reflexivity. Qed.

Lemma parse_elements_S (f : nat) (acc : list value) (s : string) :
  JSON.parse_elements (S f) acc s =
  match JSON.parse_value f s with
  | Some (v, r) =>
      match JSON.skip_whitespace r with
      | String c r' =>
          if JSON.char_is 44 c then JSON.parse_elements f (acc ++ [v])%list r'
          else if JSON.char_is 93 c then Some (VArray Array_prototype (acc ++ [v])%list, r')
          else None
      | EmptyString => None
      end
  | None => None
  end.
Proof. reflexivity. Qed.

Lemma parse_members_S (f : nat) (acc : list (string * value)) (r : string) :
  JSON.parse_members (S f) acc (String JSON.dquote r) =
  match JSON.parse_chars r with
  | Some (key, r1) =>
      match JSON.skip_whitespace r1 with
      | String c r2 =>
          if JSON.char_is 58 c then
            match JSON.parse_value f r2 with
            | Some (v, r3) =>
                match JSON.skip_whitespace r3 with
                | String c' r4 =>
                    if JSON.char_is 44 c' then
                      JSON.parse_members f (JSON.define_property key v acc) r4
                    else if JSON.char_is 125 c' then
                      Some (VObject Object_prototype (JSON.define_property key v acc), r4)
                    else None
                | EmptyString => None
                end
            | None => None
            end
          else None
      | EmptyString => None
      end
  | None => None
  end.
Proof. reflexivity. Qed.

Lemma data_array (p : value) (es : list value) :
  data (VArray p es) = true -> p = Array_prototype /\ forallb data es = true.
Proof.
  cbn [data]. intros H. repeat (case_match; try discriminate). now subst.
Qed.

Lemma data_object (p : value) (props : list (string * value)) :
  data (VObject p props) = true ->
  p = Object_prototype /\
  forallb (fun kv => data (snd kv)) props = true /\
  enumeration_order (keys props) = true.
Proof.
  cbn [data]. intros H. repeat (case_match; try discriminate). subst.
  apply andb_true_iff in H. now destruct H.
Qed.

Lemma data_serialize (v : value) :
  data v = true -> exists text, JSON.serialize v = Some text.
Proof.
  destruct v as [| |[]|n|s|name|p es|p props]; try discriminate; intros _;
    eexists; reflexivity.
Qed.

Lemma parse_elements_print (es : list value) :
  es <> [] ->
  Forall parses_back es ->
  forallb data es = true ->
  forall (f : nat) (acc : list value) (rest : string),
    (need_items es <= f)%nat ->
    JSON.parse_elements f acc (JSON.join (items es) ++ String "]" rest)
    = Some (VArray Array_prototype (acc ++ es)%list, rest).
Proof.
  induction es as [|e es IH]; [congruence|]. intros _ HP Hdata f acc rest Hf.
  apply Forall_cons in HP as [He HP].
  cbn [forallb] in Hdata. apply andb_true_iff in Hdata as [Hde Hdata].
  destruct (data_serialize e Hde) as [t Ht].
  cbn [need_items] in Hf. destruct f as [|f]; [lia|].
  rewrite parse_elements_S.
  destruct es as [|e2 es].
  - cbn [items map JSON.join]. unfold item. rewrite Ht.
    rewrite (He Hde t Ht f (String "]" rest)) by (reflexivity || lia).
    reflexivity.
  - change (JSON.join (items (e :: e2 :: es)))
      with (item e ++ "," ++ JSON.join (items (e2 :: es))).
    unfold item at 1. rewrite Ht. rewrite !string_app_assoc.
    change ("," ++ ?x) with (String "," x).
    rewrite (He Hde t Ht f) by (reflexivity || lia).
    change (JSON.skip_whitespace (String "," ?x)) with (String "," x). cbv iota.
    change (JSON.char_is 44 ",") with true. cbv iota.
    rewrite (IH ltac:(congruence) HP Hdata f (acc ++ [e])%list rest) by lia.
    now rewrite <- app_assoc.
Qed.

Lemma quote_app (k tail : string) :
  JSON.QuoteJSONString k ++ tail
  = String JSON.dquote (JSON.quote_chars k ++ String JSON.dquote tail).
Proof.
  unfold JSON.QuoteJSONString.
  change (String JSON.dquote ?a ++ tail) with (String JSON.dquote (a ++ tail)).
  now rewrite string_app_assoc.
Qed.

Lemma parse_members_print (props : list (string * value)) :
  props <> [] ->
  Forall (fun kv => parses_back (snd kv)) props ->
  forallb (fun kv => data (snd kv)) props = true ->
  forall (f : nat) (acc : list (string * value)) (rest : string),
    (need_members props <= f)%nat ->
    JSON.parse_members f acc (JSON.join (members props) ++ String "}" rest)
    = Some (VObject Object_prototype (define_all props acc), rest).
Proof.
  induction props as [|[k x] props IH]; [congruence|]. intros _ HP Hdata f acc rest Hf.
  apply Forall_cons in HP as [Hx HP]. cbn [snd] in Hx.
  cbn [forallb snd] in Hdata. apply andb_true_iff in Hdata as [Hdx Hdata].
  destruct (data_serialize x Hdx) as [t Ht].
  cbn [need_members] in Hf. destruct f as [|f]; [lia|].
  destruct props as [|[k2 x2] props].
  - cbn [members]. rewrite Ht. cbn [JSON.join].
    rewrite string_app_assoc, quote_app, parse_members_S, parse_chars_quote.
    rewrite string_app_assoc.
    change (":" ++ ?x) with (String ":" x).
    change (JSON.skip_whitespace (String ":" ?x)) with (String ":" x). cbv iota.
    change (JSON.char_is 58 ":") with true. cbv iota.
    rewrite (Hx Hdx t Ht f (String "}" rest)) by (reflexivity || lia).
    reflexivity.
  - assert (members ((k, x) :: (k2, x2) :: props)
            = (JSON.QuoteJSONString k ++ ":" ++ t) :: members ((k2, x2) :: props)) as ->.
    { cbn [members]. now rewrite Ht. }
    destruct (data_serialize x2) as [t2 Ht2].
    { cbn [forallb snd] in Hdata. now apply andb_true_iff in Hdata as [? _]. }
    assert (exists m ms, members ((k2, x2) :: props) = m :: ms) as (m & ms & Hm).
    { cbn [members]. rewrite Ht2. now eexists _, _. }
    rewrite Hm. change (JSON.join (?a :: m :: ms)) with (a ++ "," ++ JSON.join (m :: ms)).
    rewrite <- Hm.
    rewrite !string_app_assoc, quote_app, parse_members_S, parse_chars_quote.
    change (":" ++ ?x) with (String ":" x).
    change (JSON.skip_whitespace (String ":" ?x)) with (String ":" x). cbv iota.
    change (JSON.char_is 58 ":") with true. cbv iota.
    change ("," ++ ?x) with (String "," x).
    rewrite (Hx Hdx t Ht f) by (reflexivity || lia).
    change (JSON.skip_whitespace (String "," ?x)) with (String "," x). cbv iota.
    change (JSON.char_is 44 ",") with true. cbv iota.
    rewrite (IH ltac:(congruence) HP Hdata f (JSON.define_property k x acc) rest) by lia.
    reflexivity.
Qed.

Lemma items_head (e : value) (es : list value) :
  data e = true ->
  exists c t, JSON.join (items (e :: es)) = String c t /\ value_head c = true.
Proof.
  intros He. destruct (data_serialize e He) as [text Ht].
  destruct (serialize_head e text Ht) as (c & t & -> & Hc).
  exists c. destruct es as [|e2 es].
  - exists t. cbn [items map JSON.join]. unfold item. now rewrite Ht.
  - exists (t ++ "," ++ JSON.join (items (e2 :: es))).
    change (JSON.join (items (e :: e2 :: es)))
      with (item e ++ "," ++ JSON.join (items (e2 :: es))).
    unfold item at 1. now rewrite Ht.
Qed.

Lemma members_head (k : string) (x : value) (props : list (string * value)) :
  data x = true ->
  exists t, JSON.join (members ((k, x) :: props)) = String JSON.dquote t.
Proof.
  intros Hx. destruct (data_serialize x Hx) as [text Ht].
  cbn [members]. rewrite Ht.
  destruct (members props) as [|m ms].
  - cbn [JSON.join]. rewrite quote_app. now eexists.
  - change (JSON.join (?a :: m :: ms)) with (a ++ "," ++ JSON.join (m :: ms)).
    rewrite !string_app_assoc, quote_app. now eexists.
Qed.

Lemma distinct_app_not_in (ks1 ks2 : list string) (k : string) :
  distinct (ks1 ++ k :: ks2)%list = true -> existsb (String.eqb k) ks1 = false.
Proof.
  induction ks1 as [|k1 ks1 IH]; [reflexivity|].
  cbn [app distinct existsb]. intros H. apply andb_true_iff in H as [Hk1 Hd].
  rewrite (IH Hd), orb_false_r.
  apply negb_true_iff in Hk1. rewrite existsb_app in Hk1.
  apply orb_false_iff in Hk1 as [_ Hk1]. cbn [existsb] in Hk1.
  apply orb_false_iff in Hk1 as [Hk1 _]. now rewrite String.eqb_sym.
Qed.

Lemma indices_first_app (ks1 ks2 : list string) (k : string) (i : N) :
  forall lo : N,
    indices_first lo (ks1 ++ k :: ks2)%list = true ->
    array_index k = Some i ->
    (lo <= i)%N /\
    Forall (fun k1 => exists j, array_index k1 = Some j /\ (j < i)%N) ks1.
Proof.
  induction ks1 as [|k1 ks1 IH]; intros lo H Hk; cbn [app indices_first] in H.
  - rewrite Hk in H. apply andb_true_iff in H as [H _]. apply N.leb_le in H.
    split; [assumption | constructor].
  - destruct (array_index k1) as [j|] eqn:Hk1.
    + apply andb_true_iff in H as [Hlo H]. apply N.leb_le in Hlo.
      destruct (IH _ H Hk) as [Hji Hall]. split; [lia|].
      constructor; [|assumption]. exists j. split; [assumption | lia].
    + exfalso. rewrite forallb_app in H. apply andb_true_iff in H as [_ H].
      cbn [forallb] in H. apply andb_true_iff in H as [H _].
      unfold is_index in H. now rewrite Hk in H.
Qed.

Lemma insert_index_end (i : N) (k : string) (v : value) (acc : list (string * value)) :
  Forall (fun k1 => exists j, array_index k1 = Some j /\ (j < i)%N) (keys acc) ->
  JSON.insert_index i k v acc = (acc ++ [(k, v)])%list.
Proof.
  induction acc as [|[k1 x1] acc IH]; [reflexivity|].
  cbn [keys map fst]. intros H. apply Forall_cons in H as [(j & Hj & Hlt) H].
  cbn [JSON.insert_index]. rewrite Hj.
  replace (j <? i)%N with true by (symmetry; now apply N.ltb_lt).
  cbn [app]. f_equal. now apply IH.
Qed.

Lemma keys_app (a b : list (string * value)) : keys (a ++ b)%list = (keys a ++ keys b)%list.
Proof. apply map_app. Qed.

Lemma define_property_new (k : string) (v : value) (acc rest : list (string * value)) :
  enumeration_order (keys (acc ++ (k, v) :: rest)%list) = true ->
  JSON.define_property k v acc = (acc ++ [(k, v)])%list.
Proof.
  unfold enumeration_order. rewrite keys_app. cbn [keys map fst].
  intros H. apply andb_true_iff in H as [Hd Hi].
  unfold JSON.define_property, JSON.has_key.
  rewrite (distinct_app_not_in _ _ _ Hd).
  destruct (array_index k) as [i|] eqn:Hk; [|reflexivity].
  destruct (indices_first_app _ _ _ _ _ Hi Hk) as [_ Hall].
  now apply insert_index_end.
Qed.

Lemma define_all_in_order (props acc : list (string * value)) :
  enumeration_order (keys (acc ++ props)%list) = true ->
  define_all props acc = (acc ++ props)%list.
Proof.
  revert acc. induction props as [|[k v] props IH]; intros acc H.
  - cbn. now rewrite app_nil_r.
  - cbn [define_all fold_left fst snd].
    rewrite (define_property_new k v acc props H).
    fold (define_all props (acc ++ [(k, v)])%list).
    rewrite IH; rewrite <- app_assoc; [reflexivity | exact H].
Qed.

Lemma parse_value_print (v : value) : parses_back v.
Proof.
  induction v as [| |b|n|s|name|p es _ IH|p props _ IH] using value_induction;
    intros Hdata text Htext fuel rest Hfuel Hrest; try discriminate Hdata.
  - injection Htext as <-. destruct fuel; [cbn in Hfuel; lia|]. reflexivity.
  - destruct fuel; [cbn in Hfuel; lia|].
    destruct b; injection Htext as <-; reflexivity.
  - injection Htext as <-. destruct fuel; [cbn in Hfuel; lia|].
    destruct (Number_toString_head n) as (c & t & Ht & Hc).
    pose proof (parse_number_print n rest Hrest) as Hp.
    rewrite Ht in *. change (String c t ++ rest) with (String c (t ++ rest)) in *.
    rewrite parse_value_number, Hp; [reflexivity|].
    unfold number_head. destruct Hc as [Hc|Hc].
    + now rewrite Hc.
    + apply orb_true_iff. right. apply andb_true_iff. split; apply N.leb_le; lia.
  - injection Htext as <-. destruct fuel; [cbn in Hfuel; lia|].
    rewrite quote_app, parse_value_string, parse_chars_quote. reflexivity.
  - apply data_array in Hdata as [-> Hes].
    rewrite serialize_array in Htext. injection Htext as <-.
    rewrite need_array in Hfuel. destruct fuel as [|f]; [lia|].
    destruct es as [|e es]; [reflexivity|].
    change ("[" ++ ?a ++ "]") with (String "[" (a ++ "]")).
    change (String "[" ?a ++ rest) with (String "[" (a ++ rest)).
    rewrite string_app_assoc. change ("]" ++ rest) with (String "]" rest).
    destruct (items_head e es) as (c & t & Hj & Hc).
    { cbn [forallb] in Hes. now apply andb_true_iff in Hes as [? _]. }
    pose proof (parse_elements_print (e :: es) ltac:(congruence) IH Hes f [] rest) as Hp.
    rewrite Hj in *. change (String c t ++ ?x) with (String c (t ++ x)) in *.
    rewrite parse_value_array by assumption. apply Hp. lia.
  - apply data_object in Hdata as (-> & Hprops & Horder).
    rewrite serialize_object in Htext. injection Htext as <-.
    rewrite need_object in Hfuel. destruct fuel as [|f]; [lia|].
    destruct props as [|[k x] props]; [reflexivity|].
    change ("{" ++ ?a ++ "}") with (String "{" (a ++ "}")).
    change (String "{" ?a ++ rest) with (String "{" (a ++ rest)).
    rewrite string_app_assoc. change ("}" ++ rest) with (String "}" rest).
    destruct (members_head k x props) as (t & Hj).
    { cbn [forallb snd] in Hprops. now apply andb_true_iff in Hprops as [? _]. }
    pose proof (parse_members_print ((k, x) :: props) ltac:(congruence) IH Hprops f [] rest)
      as Hp.
    rewrite Hj in *.
    change (String JSON.dquote t ++ ?x) with (String JSON.dquote (t ++ x)) in *.
    rewrite parse_value_object, Hp by lia.
    now rewrite (define_all_in_order ((k, x) :: props) [] Horder).
Qed.

Lemma string_length_app (a b : string) :
  String.length (a ++ b) = (String.length a + String.length b)%nat.
Proof. induction a as [|c a IH]; simpl; [reflexivity | now rewrite IH]. Qed.

Lemma need_items_le (es : list value) :
  Forall (fun e => data e = true -> forall text, JSON.serialize e = Some text ->
                   (need e <= String.length text)%nat) es ->
  forallb data es = true ->
  (need_items es <= S (String.length (JSON.join (items es))))%nat.
Proof.
  induction es as [|e es IH]; intros HP Hdata; [cbn; lia|].
  apply Forall_cons in HP as [He HP].
  cbn [forallb] in Hdata. apply andb_true_iff in Hdata as [Hde Hdata].
  destruct (data_serialize e Hde) as [t Ht]. specialize (He Hde t Ht).
  specialize (IH HP Hdata). cbn [need_items].
  destruct es as [|e2 es].
  - cbn [items map JSON.join need_items]. unfold item. rewrite Ht. lia.
  - change (JSON.join (items (e :: e2 :: es)))
      with (item e ++ "," ++ JSON.join (items (e2 :: es))).
    unfold item at 1. rewrite Ht, !string_length_app. cbn [String.length]. lia.
Qed.

Lemma need_members_le (props : list (string * value)) :
  Forall (fun kv => data (snd kv) = true -> forall text, JSON.serialize (snd kv) = Some text ->
                    (need (snd kv) <= String.length text)%nat) props ->
  forallb (fun kv => data (snd kv)) props = true ->
  (need_members props <= S (String.length (JSON.join (members props))))%nat.
Proof.
  induction props as [|[k x] props IH]; intros HP Hdata; [cbn; lia|].
  apply Forall_cons in HP as [Hx HP]. cbn [snd] in Hx.
  cbn [forallb snd] in Hdata. apply andb_true_iff in Hdata as [Hdx Hdata].
  destruct (data_serialize x Hdx) as [t Ht]. specialize (Hx Hdx t Ht).
  specialize (IH HP Hdata). cbn [need_members members]. rewrite Ht.
  destruct (members props) as [|m ms] eqn:Hm.
  - cbn [JSON.join]. rewrite !string_length_app.
    destruct props as [|[k2 x2] props].
    + cbn [need_members]. lia.
    + exfalso. cbn [members] in Hm.
      cbn [forallb snd] in Hdata. apply andb_true_iff in Hdata as [Hd2 _].
      destruct (data_serialize x2 Hd2) as [t2 Ht2]. now rewrite Ht2 in Hm.
  - change (JSON.join (?a :: m :: ms)) with (a ++ "," ++ JSON.join (m :: ms)).
    rewrite !string_length_app. cbn [String.length]. lia.
Qed.

Lemma need_le_length (v : value) :
  data v = true -> forall text, JSON.serialize v = Some text ->
  (need v <= String.length text)%nat.
Proof.
  induction v as [| |b|n|s|name|p es _ IH|p props _ IH] using value_induction;
    intros Hdata text Htext; try discriminate Hdata.
  - injection Htext as <-. cbn. lia.
  - destruct b; injection Htext as <-; cbn; lia.
  - injection Htext as <-. destruct (Number_toString_head n) as (c & t & -> & _).
    cbn. lia.
  - injection Htext as <-. cbn. lia.
  - apply data_array in Hdata as [-> Hes].
    rewrite serialize_array in Htext. injection Htext as <-.
    rewrite need_array. pose proof (need_items_le es IH Hes).
    change ("[" ++ ?a ++ "]") with (String "[" (a ++ "]")).
    cbn [String.length]. rewrite string_length_app. cbn [String.length]. lia.
  - apply data_object in Hdata as (-> & Hprops & _).
    rewrite serialize_object in Htext. injection Htext as <-.
    rewrite need_object. pose proof (need_members_le props IH Hprops).
    change ("{" ++ ?a ++ "}") with (String "{" (a ++ "}")).
    cbn [String.length]. rewrite string_length_app. cbn [String.length]. lia.
Qed.

(** Plain data has a text, and the text parses back to it. *)
Lemma parse_stringify (v : value) :
  data v = true ->
  exists text, JSON.stringify v = Some text /\ JSON.parse text = Some v.
Proof.
  intros Hdata. destruct (data_serialize v Hdata) as [text Ht].
  exists text. split; [exact Ht|]. unfold JSON.parse.
  pose proof (need_le_length v Hdata text Ht) as Hneed.
  pose proof (parse_value_print v Hdata text Ht (S (String.length text)) ""
                ltac:(lia) eq_refl) as Hp.
  rewrite string_app_nil_r in Hp. now rewrite Hp.
Qed.

Lemma serialize_literal (v : value) : JSON.serialize (literal v) = JSON.serialize v.
Proof. now destruct v. Qed.

(** C5.  [getJSON] writes the array [[1,2,3]] as the text [[1,2,3]].  An
    array or object of plain data, whatever its prototype, has a text, and
    [fromJSON] given the prototype of the value and that text returns the
    value: the same fields with the same values, and the same prototype. *)
Theorem fromJSON_getJSON_roundtrip (v : value) :
  structural v = true ->
  getJSON JSON.stringify (VArray Array_prototype [VNumber 1; VNumber 2; VNumber 3])
    = Some "[1,2,3]" /\
  (exists text, getJSON JSON.stringify v = Some text) /\
  (forall text, getJSON JSON.stringify v = Some text ->
                fromJSON JSON.parse (getPrototypeOf v) text = Normal v).
Proof.
  intros Hv. split; [reflexivity|].
  assert (is_container v = true) as Hc by (now destruct v).
  assert (is_object (getPrototypeOf v)
          || match getPrototypeOf v with VNull => true | _ => false end = true
          /\ data (literal v) = true) as [Hp Hd].
  { destruct v; try discriminate Hc; cbn [structural getPrototypeOf] in *;
      apply andb_true_iff in Hv as [Hv Hd]; apply andb_true_iff in Hv as [Hp _];
      now split. }
  destruct (parse_stringify _ Hd) as (text & Ht & Hparse).
  unfold JSON.stringify in Ht. rewrite serialize_literal in Ht.
  split; [now exists text|].
  intros text' Ht'. unfold getJSON, JSON.stringify in Ht'. rewrite Ht in Ht'.
  injection Ht' as <-. unfold fromJSON. rewrite Hparse.
  destruct v; try discriminate Hc; cbn [literal getPrototypeOf Object_setPrototypeOf] in *;
    now rewrite Hp.
Qed.

(** The object [{width: 10, height: 20}] with the prototype of object
    literals, and the same fields on an object made by a template. *)
Lemma fromJSON_getJSON_roundtrip_witness :
  let v := VObject Object_prototype [("width", VNumber 10); ("height", VNumber 20)] in
  let c := VObject Circle_prototype [("width", VNumber 10); ("height", VNumber 20)] in
  let text := "{" ++ quoted "width" ++ ":10," ++ quoted "height" ++ ":20}" in
  structural v = true /\
  structural c = true /\
  getJSON JSON.stringify v = Some text /\
  getJSON JSON.stringify c = Some text /\
  fromJSON JSON.parse Object_prototype text = Normal v /\
  fromJSON JSON.parse Circle_prototype text = Normal c.
Proof.
  cbn zeta. split; [reflexivity|]. split; [reflexivity|].
  split; [reflexivity|]. split; [reflexivity|]. split.
  - apply (fromJSON_getJSON_roundtrip
             (VObject Object_prototype [("width", VNumber 10); ("height", VNumber 20)]));
      reflexivity.
  - apply (fromJSON_getJSON_roundtrip
             (VObject Circle_prototype [("width", VNumber 10); ("height", VNumber 20)]));
      reflexivity.
Defined.
(** ** The codec: further properties *)

(** A rectangle of two safe integers through [getJSON] and [fromJSON]: the
    text has the two fields, and the object that comes back has them and the
    template as its prototype; the method [getArea] is not in the text, and
    the object that comes back has it only if the template has it. *)
Theorem Rectangle_through_codec (w h : Z) (proto : value) :
  (Z.abs w <= 9007199254740991)%Z -> (Z.abs h <= 9007199254740991)%Z ->
  is_object proto = true ->
  exists text,
    getJSON JSON.stringify (Rectangle (VNumber w) (VNumber h)) = Some text /\
    fromJSON JSON.parse proto text
    = Normal (VObject proto [("width", VNumber w); ("height", VNumber h)]) /\
    get (VObject proto [("width", VNumber w); ("height", VNumber h)]) "getArea"
    = get proto "getArea".
Proof.
  intros Hw Hh Hp.
  assert (data (VObject Object_prototype [("width", VNumber w); ("height", VNumber h)])
          = true) as Hdata.
  { cbn [data forallb snd]. apply Z.leb_le in Hw, Hh. now rewrite Hw, Hh. }
  destruct (parse_stringify _ Hdata) as (text & Ht & Hparse).
  exists text. split; [exact Ht|]. split; [|reflexivity].
  unfold fromJSON. rewrite Hparse. cbn [Object_setPrototypeOf]. now rewrite Hp.
Qed.

(** [fromJSON(Object.prototype, getJSON(new Rectangle(10, 20)))]. *)
Lemma Rectangle_through_codec_witness :
  (Z.abs 10 <= 9007199254740991)%Z /\ (Z.abs 20 <= 9007199254740991)%Z /\
  is_object Object_prototype = true /\
  getJSON JSON.stringify (Rectangle (VNumber 10) (VNumber 20))
  = Some ("{" ++ quoted "width" ++ ":10," ++ quoted "height" ++ ":20}") /\
  exists text,
    getJSON JSON.stringify (Rectangle (VNumber 10) (VNumber 20)) = Some text /\
    fromJSON JSON.parse Object_prototype text
    = Normal (VObject Object_prototype [("width", VNumber 10); ("height", VNumber 20)]) /\
    get (VObject Object_prototype [("width", VNumber 10); ("height", VNumber 20)]) "getArea"
    = get Object_prototype "getArea".
Proof.
  split; [lia|]. split; [lia|]. split; [reflexivity|]. split; [reflexivity|].
  apply (Rectangle_through_codec 10 20 Object_prototype); [lia | lia | reflexivity].
Defined.



(** ** JSON texts: the reader and the grammar *)

Lemma digit_is_digit (c : ascii) : Grammar.digit c <-> Reader.is_digit c = true.
Proof.
  split.
  - intros H. cbv in H. intuition subst; reflexivity.
  - by_cases_on_char c; intros _; cbv; tauto.
Qed.

Lemma onenine_is_onenine (c : ascii) : Grammar.onenine c <-> Reader.is_onenine c = true.
Proof.
  split.
  - intros H. cbv in H. intuition subst; reflexivity.
  - by_cases_on_char c; intros _; cbv; tauto.
Qed.

Lemma hex_hex_value (c : ascii) : Grammar.hex c <-> JSON.hex_value c <> None.
Proof.
  split.
  - intros H. cbv in H. intuition subst; discriminate.
  - by_cases_on_char c; try (intros H; exfalso; apply H; reflexivity);
      intros _; cbv; tauto.
Qed.

Lemma ws_is_whitespace (c : ascii) :
  In c [" "; "010"; "013"; "009"]%char <-> JSON.is_whitespace c = true.
Proof.
  split.
  - intros H. cbv in H. intuition subst; reflexivity.
  - by_cases_on_char c; intros _; cbv; tauto.
Qed.

Lemma escape_unescape (e : ascii) :
  In e [JSON.dquote; JSON.backslash; "/"; "b"; "f"; "n"; "r"; "t"]%char
  <-> JSON.unescape e <> None.
Proof.
  split.
  - intros H. cbv in H. intuition subst; discriminate.
  - by_cases_on_char e; try (intros H; exfalso; apply H; reflexivity);
      intros _; cbv; tauto.
Qed.

(** *** White space *)

Lemma skip_whitespace_ws (w s : string) :
  Grammar.ws w -> JSON.skip_whitespace (w ++ s) = JSON.skip_whitespace s.
Proof.
  induction 1 as [|c w Hc _ IH]; [reflexivity|].
  apply ws_is_whitespace in Hc. cbn. now rewrite Hc.
Qed.

Lemma skip_whitespace_stops (s : string) :
  stops JSON.is_whitespace s = true -> JSON.skip_whitespace s = s.
Proof.
  destruct s as [|c s]; [reflexivity|]. cbn.
  now destruct (JSON.is_whitespace c).
Qed.

Lemma skip_whitespace_split (s : string) :
  exists w, Grammar.ws w /\ s = w ++ JSON.skip_whitespace s.
Proof.
  induction s as [|c s (w & Hw & IH)].
  - exists "". split; [constructor | reflexivity].
  - cbn. destruct (JSON.is_whitespace c) eqn:Hc.
    + exists (String c w). split.
      * constructor; [now apply ws_is_whitespace | exact Hw].
      * cbn. now rewrite <- IH.
    + exists "". split; [constructor | reflexivity].
Qed.

(** *** Numbers *)

Lemma read_digits_app (ds rest : string) :
  Grammar.digits ds -> stops Reader.is_digit rest = true ->
  Reader.read_digits (ds ++ rest) = (ds, rest).
Proof.
  intros Hds Hrest. induction Hds as [d Hd|d ds Hd _ IH].
  - apply digit_is_digit in Hd. cbn. rewrite Hd.
    destruct rest as [|c rest]; [reflexivity|]. cbn in Hrest |- *.
    now destruct (Reader.is_digit c).
  - apply digit_is_digit in Hd. cbn. now rewrite Hd, IH.
Qed.

Lemma read_digits_split (s : string) :
  let (d, r) := Reader.read_digits s in
  s = d ++ r /\ (d = "" \/ Grammar.digits d) /\ stops Reader.is_digit r = true.
Proof.
  induction s as [|c s IH]; [cbn; auto|].
  cbn. destruct (Reader.is_digit c) eqn:Hc.
  - destruct (Reader.read_digits s) as [d r]. destruct IH as (-> & Hd & Hr).
    split; [reflexivity|]. split; [|exact Hr]. right.
    apply digit_is_digit in Hc. destruct Hd as [-> | Hd]; now constructor.
  - cbn. rewrite Hc. auto.
Qed.

Lemma digits_head (ds : string) :
  Grammar.digits ds -> exists d r, ds = String d r /\ Reader.is_digit d = true.
Proof.
  intros [d Hd|d r Hd _]; exists d; eexists; (split; [reflexivity|]);
    now apply digit_is_digit.
Qed.

Lemma read_digits_stops (s : string) :
  stops Reader.is_digit s = true -> Reader.read_digits s = ("", s).
Proof.
  destruct s as [|c s]; [reflexivity|]. cbn.
  now destruct (Reader.is_digit c).
Qed.

Lemma read_integer_split (s i r : string) :
  Reader.read_integer s = Some (i, r) ->
  s = i ++ r /\ Grammar.integer i /\ Grammar.integer (String "-" i).
Proof.
  destruct s as [|c s]; [discriminate|]. cbn.
  destruct (JSON.char_is 48 c) eqn:H0.
  - intros [= <- <-]. split; [reflexivity|].
    assert (Grammar.digit c) as Hc.
    { apply digit_is_digit. revert H0. by_cases_on_char c. reflexivity. }
    split; now constructor.
  - destruct (Reader.is_onenine c) eqn:H1; [|discriminate].
    pose proof (read_digits_split s) as Hs.
    destruct (Reader.read_digits s) as [d r']. destruct Hs as (-> & Hd & _).
    intros [= <- <-]. split; [reflexivity|].
    assert (Grammar.digit c) as Hc.
    { apply digit_is_digit. revert H1. by_cases_on_char c; reflexivity. }
    apply onenine_is_onenine in H1.
    destruct Hd as [-> | Hd]; split; now constructor.
Qed.

Lemma read_fraction_split (s f r : string) :
  Reader.read_fraction s = Some (f, r) -> s = f ++ r /\ Grammar.fraction f.
Proof.
  destruct s as [|c s]; [intros [= <- <-]; split; [reflexivity | constructor]|].
  cbn. destruct (JSON.char_is 46 c) eqn:Hc.
  - pose proof (read_digits_split s) as Hs.
    destruct (Reader.read_digits s) as [d r']. destruct Hs as (-> & Hd & _).
    destruct d as [|d0 d]; [discriminate|]. intros [= <- <-].
    destruct Hd as [Hd | Hd]; [discriminate|].
    assert (c = "."%char) as -> by (revert Hc; by_cases_on_char c; reflexivity).
    split; [reflexivity | now constructor].
  - intros [= <- <-]. split; [reflexivity | constructor].
Qed.

Lemma read_sign_split (s : string) :
  let (sg, r) := Reader.read_sign s in s = sg ++ r /\ Grammar.sign sg.
Proof.
  destruct s as [|c s]; [split; [reflexivity | constructor]|].
  cbn. destruct (JSON.char_is 43 c) eqn:Hp; cbn.
  - assert (c = "+"%char) as -> by (revert Hp; by_cases_on_char c; reflexivity).
    split; [reflexivity | constructor].
  - destruct (JSON.char_is 45 c) eqn:Hm.
    + assert (c = "-"%char) as -> by (revert Hm; by_cases_on_char c; reflexivity).
      split; [reflexivity | constructor].
    + split; [reflexivity | constructor].
Qed.

Lemma read_exponent_split (s e r : string) :
  Reader.read_exponent s = Some (e, r) -> s = e ++ r /\ Grammar.exponent e.
Proof.
  destruct s as [|c s]; [intros [= <- <-]; split; [reflexivity | constructor]|].
  cbn. destruct (JSON.char_is 101 c || JSON.char_is 69 c) eqn:Hc.
  - pose proof (read_sign_split s) as Hs.
    destruct (Reader.read_sign s) as [sg r1]. destruct Hs as (-> & Hsg).
    pose proof (read_digits_split r1) as Hr.
    destruct (Reader.read_digits r1) as [d r2]. destruct Hr as (-> & Hd & _).
    destruct d as [|d0 d]; [discriminate|]. intros [= <- <-].
    destruct Hd as [Hd | Hd]; [discriminate|].
    split; [cbn; now rewrite string_app_assoc|].
    apply orb_true_iff in Hc as [Hc | Hc].
    + assert (c = "e"%char) as -> by (revert Hc; by_cases_on_char c; reflexivity).
      now constructor.
    + assert (c = "E"%char) as -> by (revert Hc; by_cases_on_char c; reflexivity).
      now constructor.
  - intros [= <- <-]. split; [reflexivity | constructor].
Qed.

Lemma read_number_split (s n r : string) :
  Reader.read_number s = Some (n, r) -> s = n ++ r /\ Grammar.number n.
Proof.
  unfold Reader.read_number.
  set (m := match s with
            | String c r0 => if JSON.char_is 45 c then (String c "", r0) else ("", s)
            | EmptyString => ("", s)
            end).
  assert (s = fst m ++ snd m /\ (fst m = "" \/ fst m = "-")) as [Hs Hm].
  { subst m. destruct s as [|c s]; [auto|].
    destruct (JSON.char_is 45 c) eqn:Hc; [|auto].
    assert (c = "-"%char) as -> by (revert Hc; by_cases_on_char c; reflexivity).
    auto. }
  destruct m as [minus s1]. cbn [fst snd] in Hs, Hm.
  destruct (Reader.read_integer s1) as [[i s2]|] eqn:Hi; [|discriminate].
  destruct (Reader.read_fraction s2) as [[f s3]|] eqn:Hf; [|discriminate].
  destruct (Reader.read_exponent s3) as [[e s4]|] eqn:He; [|discriminate].
  intros [= <- <-].
  apply read_integer_split in Hi as (-> & Hi & Hi').
  apply read_fraction_split in Hf as (-> & Hf).
  apply read_exponent_split in He as (-> & He).
  split; [rewrite Hs; now rewrite !string_app_assoc|].
  destruct Hm as [-> | ->].
  - change ("" ++ i ++ f ++ e) with (i ++ f ++ e). now constructor.
  - change ("-" ++ i ++ f ++ e) with (String "-" i ++ f ++ e). now constructor.
Qed.

Lemma exponent_stops (e rest : string) :
  Grammar.exponent e -> stops token_goes_on rest = true ->
  stops (fun c => Reader.is_digit c || JSON.char_is 46 c) (e ++ rest) = true.
Proof.
  intros [|s ds _ _|s ds _ _] Hrest; [|reflexivity|reflexivity].
  destruct rest as [|c rest]; [reflexivity|]. cbn in Hrest |- *.
  unfold token_goes_on in Hrest.
  destruct (Reader.is_digit c), (JSON.char_is 46 c); try reflexivity; discriminate.
Qed.

Lemma fraction_stops (f e rest : string) :
  Grammar.fraction f -> Grammar.exponent e -> stops token_goes_on rest = true ->
  stops Reader.is_digit (f ++ e ++ rest) = true.
Proof.
  intros [|ds _] He Hrest; [|reflexivity].
  pose proof (exponent_stops e rest He Hrest) as H.
  cbn. destruct (e ++ rest) as [|c r]; [reflexivity|]. cbn in H |- *.
  now destruct (Reader.is_digit c).
Qed.

Lemma read_fraction_app (f rest : string) :
  Grammar.fraction f ->
  stops (fun c => Reader.is_digit c || JSON.char_is 46 c) rest = true ->
  Reader.read_fraction (f ++ rest) = Some (f, rest).
Proof.
  intros [|ds Hds] Hrest.
  - destruct rest as [|c rest]; [reflexivity|]. cbn in Hrest |- *.
    destruct (JSON.char_is 46 c); [|reflexivity].
    rewrite orb_true_r in Hrest. discriminate.
  - cbn. rewrite read_digits_app.
    + destruct (digits_head ds Hds) as (d & r & -> & _). reflexivity.
    + exact Hds.
    + destruct rest as [|c rest]; [reflexivity|]. cbn in Hrest |- *.
      now destruct (Reader.is_digit c).
Qed.

Lemma read_sign_app (sg rest : string) :
  Grammar.sign sg ->
  stops (fun c => JSON.char_is 43 c || JSON.char_is 45 c) rest = true ->
  Reader.read_sign (sg ++ rest) = (sg, rest).
Proof.
  intros [| |] Hrest; [|reflexivity|reflexivity].
  destruct rest as [|c rest]; [reflexivity|]. cbn in Hrest |- *.
  now destruct (JSON.char_is 43 c || JSON.char_is 45 c).
Qed.

Lemma read_exponent_app (e rest : string) :
  Grammar.exponent e -> stops token_goes_on rest = true ->
  Reader.read_exponent (e ++ rest) = Some (e, rest).
Proof.
  assert (stops token_goes_on rest = true -> stops Reader.is_digit rest = true) as Hdigit.
  { destruct rest as [|c rest]; [reflexivity|]. cbn. unfold token_goes_on.
    now destruct (Reader.is_digit c). }
  assert (forall ds, Grammar.digits ds ->
            stops (fun c => JSON.char_is 43 c || JSON.char_is 45 c) (ds ++ rest) = true)
    as Hsign.
  { intros ds Hds. destruct (digits_head ds Hds) as (d & r & -> & Hd). cbn.
    revert Hd. by_cases_on_char d; reflexivity. }
  intros [|sg ds Hsg Hds|sg ds Hsg Hds] Hrest.
  - destruct rest as [|c rest]; [reflexivity|]. cbn in Hrest |- *.
    unfold token_goes_on in Hrest.
    destruct (JSON.char_is 101 c), (JSON.char_is 69 c); try reflexivity;
      rewrite ?orb_true_r in Hrest; discriminate.
  - cbn. rewrite string_app_assoc, read_sign_app by auto.
    rewrite read_digits_app by auto.
    destruct (digits_head ds Hds) as (d & r & -> & _). reflexivity.
  - cbn. rewrite string_app_assoc, read_sign_app by auto.
    rewrite read_digits_app by auto.
    destruct (digits_head ds Hds) as (d & r & -> & _). reflexivity.
Qed.

Lemma read_integer_app (d : ascii) (ds rest : string) :
  Grammar.integer (String d ds) -> stops Reader.is_digit rest = true ->
  d <> "-"%char ->
  Reader.read_integer (String d ds ++ rest) = Some (String d ds, rest).
Proof.
  intros Hi Hrest Hd. inversion Hi as [d' Hd'|d' ds' Hd' Hds|d' Hd'|d' ds' Hd' Hds]; subst;
    try congruence.
  - cbn. destruct (JSON.char_is 48 d) eqn:H0; [reflexivity|].
    assert (Reader.is_onenine d = true) as ->.
    { apply digit_is_digit in Hd'. revert Hd' H0.
      by_cases_on_char d; intros _ H; first [reflexivity | vm_compute in H; discriminate H]. }
    now rewrite read_digits_stops.
  - apply onenine_is_onenine in Hd'. cbn.
    assert (JSON.char_is 48 d = false) as ->
        by (revert Hd'; by_cases_on_char d; reflexivity).
    rewrite Hd'. now rewrite read_digits_app.
Qed.

Lemma read_number_app (n rest : string) :
  Grammar.number n -> stops token_goes_on rest = true ->
  Reader.read_number (n ++ rest) = Some (n, rest).
Proof.
  intros [i f e Hi Hf He] Hrest.
  pose proof (fraction_stops f e rest Hf He Hrest) as Hstop.
  assert (forall d ds, Grammar.integer (String d ds) -> d <> "-"%char ->
            Reader.read_number (String d ds ++ f ++ e ++ rest)
            = Some (String d ds ++ f ++ e, rest)) as Hplain.
  { intros d ds Hint Hd. unfold Reader.read_number.
    assert (JSON.char_is 45 d = false) as Hc.
    { revert Hd. by_cases_on_char d; try reflexivity. intros Hd. now contradiction Hd. }
    cbn [String.append]. rewrite Hc.
    change (String d (ds ++ f ++ e ++ rest)) with (String d ds ++ f ++ e ++ rest).
    rewrite read_integer_app by auto.
    rewrite read_fraction_app by (auto using exponent_stops).
    rewrite read_exponent_app by auto. reflexivity. }
  rewrite !string_app_assoc.
  assert (forall d, Grammar.digit d -> d <> "-"%char) as Hdigit.
  { intros d Hd ->. apply digit_is_digit in Hd. discriminate. }
  assert (forall d, Grammar.onenine d -> Grammar.digit d) as Hnine.
  { intros d Hd. cbv in Hd |- *. tauto. }
  inversion Hi as [d Hd|d ds Hd Hds|d Hd|d ds Hd Hds]; subst.
  - apply Hplain; auto.
  - apply Hplain; auto.
  - unfold Reader.read_number. cbn [String.append].
    change (JSON.char_is 45 "-") with true. cbn iota.
    change (String d (f ++ e ++ rest)) with (String d "" ++ f ++ e ++ rest).
    rewrite read_integer_app; auto; [|now constructor].
    rewrite read_fraction_app by (auto using exponent_stops).
    rewrite read_exponent_app by auto. reflexivity.
  - unfold Reader.read_number. cbn [String.append].
    change (JSON.char_is 45 "-") with true. cbn iota.
    change (String d (ds ++ f ++ e ++ rest)) with (String d ds ++ f ++ e ++ rest).
    rewrite read_integer_app; auto; [|now constructor].
    rewrite read_fraction_app by (auto using exponent_stops).
    rewrite read_exponent_app by auto. reflexivity.
Qed.

(** *** Strings *)

Lemma prepend_some (u : N) (x : option (list N * string)) (us : list N) (r : string) :
  Reader.prepend u x = Some (us, r) ->
  exists us', x = Some (us', r) /\ us = u :: us'.
Proof.
  destruct x as [[us' r']|]; [|discriminate]. intros [= <- <-]. now exists us'.
Qed.

Lemma hex4_some (h1 h2 h3 h4 : ascii) :
  JSON.hex4 h1 h2 h3 h4 <> None
  <-> Grammar.hex h1 /\ Grammar.hex h2 /\ Grammar.hex h3 /\ Grammar.hex h4.
Proof.
  rewrite !hex_hex_value. unfold JSON.hex4.
  destruct (JSON.hex_value h1), (JSON.hex_value h2), (JSON.hex_value h3),
    (JSON.hex_value h4); intuition congruence.
Qed.

Lemma read_chars_split (s : string) :
  forall (us : list N) (r : string),
    Reader.read_chars s = Some (us, r) ->
    exists cs, Grammar.characters cs /\ s = cs ++ String JSON.dquote r.
Proof.
  assert (forall n : nat, forall s : string, (String.length s < n)%nat ->
            forall us r, Reader.read_chars s = Some (us, r) ->
            exists cs, Grammar.characters cs /\ s = cs ++ String JSON.dquote r) as H.
  { clear s. induction n as [|n IH]; [lia|]. intros [|c s] Hlen us r; [discriminate|].
    cbn [Reader.read_chars]. cbn in Hlen.
    destruct (N_of_ascii c =? 34)%N eqn:Hq.
    - intros [= <- <-]. exists "". split; [constructor|].
      assert (c = JSON.dquote) as -> by (revert Hq; by_cases_on_char c; reflexivity).
      reflexivity.
    - destruct (N_of_ascii c =? 92)%N eqn:Hb.
      + assert (c = JSON.backslash) as ->
            by (revert Hb; by_cases_on_char c; reflexivity).
        destruct s as [|e s]; [discriminate|]. cbn in Hlen.
        destruct (JSON.unescape e) as [ch|] eqn:He.
        * intros Hr. apply prepend_some in Hr as (us' & Hr & _).
          apply IH in Hr as (cs & Hcs & ->); [|lia].
          exists (String JSON.backslash (String e cs)). split; [|reflexivity].
          constructor; [|exact Hcs]. apply escape_unescape. congruence.
        * destruct (N_of_ascii e =? 117)%N eqn:Hu; [|discriminate].
          assert (e = "u"%char) as -> by (revert Hu; by_cases_on_char e; reflexivity).
          destruct s as [|h1 [|h2 [|h3 [|h4 s]]]]; try discriminate. cbn in Hlen.
          destruct (JSON.hex4 h1 h2 h3 h4) as [code|] eqn:Hh; [|discriminate].
          intros Hr. apply prepend_some in Hr as (us' & Hr & _).
          apply IH in Hr as (cs & Hcs & ->); [|lia].
          exists (String JSON.backslash
                    (String "u" (String h1 (String h2 (String h3 (String h4 cs)))))).
          split; [|reflexivity].
          assert (JSON.hex4 h1 h2 h3 h4 <> None) as Hhex by congruence.
          apply hex4_some in Hhex as (? & ? & ? & ?). now constructor.
      + destruct (N_of_ascii c <? 32)%N eqn:Hc; [discriminate|].
        intros Hr. apply prepend_some in Hr as (us' & Hr & _).
        apply IH in Hr as (cs & Hcs & ->); [|lia].
        exists (String c cs). split; [|reflexivity].
        constructor; [| | |exact Hcs].
        * now apply N.ltb_ge in Hc.
        * intros ->. discriminate.
        * intros ->. discriminate. }
  exact (H (S (String.length s)) s (Nat.lt_succ_diag_r _)).
Qed.

Lemma read_chars_app (cs r : string) :
  Grammar.characters cs ->
  exists us, Reader.read_chars (cs ++ String JSON.dquote r) = Some (us, r).
Proof.
  induction 1 as [|c cs Hc Hq Hb _ (us & IH)|e cs He _ (us & IH)
                 |h1 h2 h3 h4 cs H1 H2 H3 H4 _ (us & IH)].
  - exists []. reflexivity.
  - exists (N_of_ascii c :: us). cbn [String.append Reader.read_chars].
    assert ((N_of_ascii c =? 34)%N = false) as ->.
    { apply N.eqb_neq. intros E. apply Hq.
      rewrite <- (ascii_N_embedding c), E. reflexivity. }
    assert ((N_of_ascii c =? 92)%N = false) as ->.
    { apply N.eqb_neq. intros E. apply Hb.
      rewrite <- (ascii_N_embedding c), E. reflexivity. }
    assert ((N_of_ascii c <? 32)%N = false) as -> by now apply N.ltb_ge.
    now rewrite IH.
  - apply escape_unescape in He.
    destruct (JSON.unescape e) as [ch|] eqn:Hch; [|congruence].
    exists (N_of_ascii ch :: us). cbn [String.append Reader.read_chars].
    change (N_of_ascii JSON.backslash =? 34)%N with false.
    change (N_of_ascii JSON.backslash =? 92)%N with true. cbn iota.
    now rewrite Hch, IH.
  - assert (JSON.hex4 h1 h2 h3 h4 <> None) as Hh by now apply hex4_some.
    destruct (JSON.hex4 h1 h2 h3 h4) as [code|] eqn:Hcode; [|congruence].
    exists (code :: us). cbn [String.append Reader.read_chars].
    change (N_of_ascii JSON.backslash =? 34)%N with false.
    change (N_of_ascii JSON.backslash =? 92)%N with true. cbn iota.
    change (JSON.unescape "u") with (@None ascii). cbn iota.
    change (N_of_ascii "u" =? 117)%N with true. cbn iota.
    now rewrite Hcode, IH.
Qed.

(** *** What the reader accepts is in the grammar *)

Lemma keyword_split (word s r : string) :
  JSON.keyword word s = Some r -> s = word ++ r.
Proof.
  revert s. induction word as [|w word IH]; intros s; cbn.
  - now intros [= ->].
  - destruct s as [|c s]; [discriminate|].
    destruct (Ascii.eqb_spec c w) as [->|]; [|discriminate].
    intros H. now rewrite (IH _ H).
Qed.

Lemma char_is_eq (n : N) (c : ascii) :
  JSON.char_is n c = true -> c = ascii_of_N n.
Proof.
  unfold JSON.char_is. intros H. apply N.eqb_eq in H. subst n.
  now rewrite ascii_N_embedding.
Qed.

(** What follows the white space at the head of [s]. *)
Lemma skip_whitespace_some (s : string) (c : ascii) (r : string) :
  JSON.skip_whitespace s = String c r ->
  exists w, Grammar.ws w /\ s = w ++ String c r.
Proof.
  intros H. destruct (skip_whitespace_split s) as (w & Hw & Hs).
  exists w. now rewrite <- H.
Qed.

Lemma read_sound (fuel : nat) :
  (forall s t r, Reader.read_value fuel s = Some (t, r) ->
     exists w v, Grammar.ws w /\ Grammar.value v /\ s = w ++ v ++ r) /\
  (forall acc s t r, Reader.read_elements fuel acc s = Some (t, r) ->
     exists es, Grammar.elements es /\ s = es ++ String "]" r) /\
  (forall acc s t r, Reader.read_members fuel acc s = Some (t, r) ->
     exists ms, Grammar.members ms /\ s = ms ++ String "}" r).
Proof.
  induction fuel as [|fuel (IHv & IHe & IHm)]; [repeat split; discriminate|].
  split; [|split].
  - intros s t r. cbn [Reader.read_value].
    destruct (JSON.skip_whitespace s) as [|c s1] eqn:Hs; [discriminate|].
    apply skip_whitespace_some in Hs as (w & Hw & ->).
    destruct (JSON.char_is 123 c) eqn:H123.
    { apply char_is_eq in H123 as ->.
      destruct (JSON.skip_whitespace s1) as [|c' s2] eqn:Hs1; [discriminate|].
      destruct (JSON.char_is 125 c') eqn:H125.
      - apply char_is_eq in H125 as ->.
        apply skip_whitespace_some in Hs1 as (w' & Hw' & ->). intros [= <- <-].
        exists w, ("{" ++ w' ++ "}"). split; [exact Hw|].
        split; [now apply Grammar.value_object_empty|].
        cbn. now rewrite !string_app_assoc.
      - intros H. apply IHm in H as (ms & Hms & ->).
        exists w, ("{" ++ ms ++ "}"). split; [exact Hw|].
        split; [now apply Grammar.value_object|].
        cbn. now rewrite !string_app_assoc. }
    destruct (JSON.char_is 91 c) eqn:H91.
    { apply char_is_eq in H91 as ->.
      destruct (JSON.skip_whitespace s1) as [|c' s2] eqn:Hs1; [discriminate|].
      destruct (JSON.char_is 93 c') eqn:H93.
      - apply char_is_eq in H93 as ->.
        apply skip_whitespace_some in Hs1 as (w' & Hw' & ->). intros [= <- <-].
        exists w, ("[" ++ w' ++ "]"). split; [exact Hw|].
        split; [now apply Grammar.value_array_empty|].
        cbn. now rewrite !string_app_assoc.
      - intros H. apply IHe in H as (es & Hes & ->).
        exists w, ("[" ++ es ++ "]"). split; [exact Hw|].
        split; [now apply Grammar.value_array|].
        cbn. now rewrite !string_app_assoc. }
    destruct (JSON.char_is 34 c) eqn:H34.
    { apply char_is_eq in H34 as ->.
      destruct (Reader.read_chars s1) as [[us r']|] eqn:Hc; [|discriminate].
      intros [= <- <-]. apply read_chars_split in Hc as (cs & Hcs & ->).
      exists w, (Grammar.string_literal cs). split; [exact Hw|].
      split; [now apply Grammar.value_string|].
      unfold Grammar.string_literal. cbn. now rewrite !string_app_assoc. }
    destruct (JSON.char_is 116 c) eqn:H116.
    { destruct (JSON.keyword "true" (String c s1)) as [r'|] eqn:Hk; [|discriminate].
      intros [= <- <-]. apply keyword_split in Hk as ->.
      exists w, "true". split; [exact Hw|]. split; [apply Grammar.value_true | reflexivity]. }
    destruct (JSON.char_is 102 c) eqn:H102.
    { destruct (JSON.keyword "false" (String c s1)) as [r'|] eqn:Hk; [|discriminate].
      intros [= <- <-]. apply keyword_split in Hk as ->.
      exists w, "false". split; [exact Hw|]. split; [apply Grammar.value_false | reflexivity]. }
    destruct (JSON.char_is 110 c) eqn:H110.
    { destruct (JSON.keyword "null" (String c s1)) as [r'|] eqn:Hk; [|discriminate].
      intros [= <- <-]. apply keyword_split in Hk as ->.
      exists w, "null". split; [exact Hw|]. split; [apply Grammar.value_null | reflexivity]. }
    destruct (Reader.read_number (String c s1)) as [[n r']|] eqn:Hn; [|discriminate].
    intros [= <- <-]. apply read_number_split in Hn as (-> & Hn).
    exists w, n. split; [exact Hw|]. split; [now apply Grammar.value_number | reflexivity].
  - intros acc s t r. cbn [Reader.read_elements].
    destruct (Reader.read_value fuel s) as [[v r1]|] eqn:Hv; [|discriminate].
    apply IHv in Hv as (w1 & tv & Hw1 & Htv & ->).
    destruct (JSON.skip_whitespace r1) as [|c r2] eqn:Hr1; [discriminate|].
    apply skip_whitespace_some in Hr1 as (w2 & Hw2 & ->).
    assert (Grammar.element (w1 ++ tv ++ w2)) as He by now constructor.
    destruct (JSON.char_is 44 c) eqn:H44.
    + apply char_is_eq in H44 as ->. intros H.
      apply IHe in H as (es & Hes & ->).
      exists ((w1 ++ tv ++ w2) ++ "," ++ es). split; [now constructor|].
      cbn. now rewrite !string_app_assoc.
    + destruct (JSON.char_is 93 c) eqn:H93; [|discriminate].
      apply char_is_eq in H93 as ->. intros [= <- <-].
      exists (w1 ++ tv ++ w2). split; [now constructor|].
      now rewrite !string_app_assoc.
  - intros acc s t r. cbn [Reader.read_members].
    destruct (JSON.skip_whitespace s) as [|q s1] eqn:Hs; [discriminate|].
    apply skip_whitespace_some in Hs as (w1 & Hw1 & ->).
    destruct (JSON.char_is 34 q) eqn:H34; [|discriminate].
    apply char_is_eq in H34 as ->.
    destruct (Reader.read_chars s1) as [[key r1]|] eqn:Hk; [|discriminate].
    apply read_chars_split in Hk as (cs & Hcs & ->).
    destruct (JSON.skip_whitespace r1) as [|c r2] eqn:Hr1; [discriminate|].
    apply skip_whitespace_some in Hr1 as (w2 & Hw2 & ->).
    destruct (JSON.char_is 58 c) eqn:H58; [|discriminate].
    apply char_is_eq in H58 as ->.
    destruct (Reader.read_value fuel r2) as [[v r3]|] eqn:Hv; [|discriminate].
    apply IHv in Hv as (w3 & tv & Hw3 & Htv & ->).
    destruct (JSON.skip_whitespace r3) as [|c' r4] eqn:Hr3; [discriminate|].
    apply skip_whitespace_some in Hr3 as (w4 & Hw4 & ->).
    assert (Grammar.member
              (w1 ++ Grammar.string_literal cs ++ w2 ++ ":" ++ (w3 ++ tv ++ w4))) as Hm.
    { constructor; auto. now constructor. }
    assert (forall x,
               w1 ++ String (ascii_of_N 34)
                       ((cs ++ String JSON.dquote (w2 ++ String (ascii_of_N 58)
                                                     (w3 ++ tv ++ w4 ++ x))))
               = (w1 ++ Grammar.string_literal cs ++ w2 ++ ":" ++ (w3 ++ tv ++ w4)) ++ x)
      as Heq.
    { intros x. unfold Grammar.string_literal.
      repeat first [rewrite string_app_assoc | progress cbn [String.append]].
      reflexivity. }
    destruct (JSON.char_is 44 c') eqn:H44.
    + apply char_is_eq in H44 as ->. intros H.
      apply IHm in H as (ms & Hms & ->).
      eexists (_ ++ "," ++ ms). split; [constructor; [exact Hm | exact Hms]|].
      rewrite Heq. now rewrite !string_app_assoc.
    + destruct (JSON.char_is 125 c') eqn:H125; [|discriminate].
      apply char_is_eq in H125 as ->. intros [= <- <-].
      eexists. split; [constructor; exact Hm|]. now rewrite Heq.
Qed.

(** *** What is in the grammar the reader accepts *)

Lemma number_starts (n : string) :
  Grammar.number n -> exists c r, n = String c r /\ number_head c = true.
Proof.
  intros [i f e Hi _ _].
  destruct Hi as [d Hd|d ds Hd _|d _|d ds _ _]; eexists; eexists;
    (split; [reflexivity|]); try reflexivity.
  - apply digit_is_digit in Hd. revert Hd. by_cases_on_char d; reflexivity.
  - apply onenine_is_onenine in Hd. revert Hd. by_cases_on_char d; reflexivity.
Qed.

Lemma value_starts (v : string) :
  Grammar.value v -> exists c r, v = String c r /\ value_head c = true.
Proof.
  intros [w _|ms _|w _|es _|cs _|n Hn| | |];
    try (eexists; eexists; split; reflexivity).
  destruct (number_starts n Hn) as (c & r & -> & Hc).
  exists c, r. split; [reflexivity|]. revert Hc. by_cases_on_char c; reflexivity.
Qed.

Lemma value_head_stops (c : ascii) :
  value_head c = true ->
  JSON.is_whitespace c = false /\ JSON.char_is 93 c = false /\ JSON.char_is 125 c = false.
Proof. by_cases_on_char c; intros _; repeat split. Qed.

Lemma element_starts (e x : string) :
  Grammar.element e ->
  exists c r, JSON.skip_whitespace (e ++ x) = String c r /\ value_head c = true.
Proof.
  intros [w1 v w2 Hw1 Hv _]. destruct (value_starts v Hv) as (c & r & -> & Hc).
  exists c. eexists. rewrite string_app_assoc, skip_whitespace_ws by exact Hw1.
  cbn [String.append]. split; [|exact Hc].
  apply skip_whitespace_stops. cbn. now destruct (value_head_stops c Hc) as (-> & _).
Qed.

Lemma elements_start (es x : string) :
  Grammar.elements es ->
  exists c r, JSON.skip_whitespace (es ++ x) = String c r /\ value_head c = true.
Proof.
  intros [e He|e es' He _]; [now apply element_starts|].
  rewrite string_app_assoc. now apply element_starts.
Qed.

Lemma member_starts (m x : string) :
  Grammar.member m -> exists r, JSON.skip_whitespace (m ++ x) = String JSON.dquote r.
Proof.
  intros [w1 cs w2 e Hw1 _ _ _]. eexists.
  rewrite string_app_assoc, skip_whitespace_ws by exact Hw1. reflexivity.
Qed.

Lemma members_start (ms x : string) :
  Grammar.members ms -> exists r, JSON.skip_whitespace (ms ++ x) = String JSON.dquote r.
Proof.
  intros [m Hm|m ms' Hm _]; [now apply member_starts|].
  rewrite string_app_assoc. now apply member_starts.
Qed.

Lemma delimited_stops (rest : string) :
  delimited rest = true ->
  stops JSON.is_whitespace rest = true /\ stops token_goes_on rest = true.
Proof.
  destruct rest as [|c rest]; [split; reflexivity|]. cbn.
  by_cases_on_char c; intros _; split; reflexivity.
Qed.

Lemma ws_stops (w rest : string) :
  Grammar.ws w -> delimited rest = true -> stops token_goes_on (w ++ rest) = true.
Proof.
  intros [|c w' Hc _] Hrest; [now apply delimited_stops|].
  apply ws_is_whitespace in Hc. cbn. revert Hc. by_cases_on_char c; reflexivity.
Qed.

Lemma keyword_app (word rest : string) : JSON.keyword word (word ++ rest) = Some rest.
Proof.
  induction word as [|c word IH]; [reflexivity|]. cbn. now rewrite Ascii.eqb_refl.
Qed.

Lemma read_value_object (f : nat) (w r : string) :
  Grammar.ws w ->
  Reader.read_value (S f) (w ++ String "{" r) =
  match JSON.skip_whitespace r with
  | String c' r' =>
      if JSON.char_is 125 c' then Some (TObject [], r') else Reader.read_members f [] r
  | EmptyString => None
  end.
Proof.
  intros Hw. cbn [Reader.read_value].
  rewrite skip_whitespace_ws, skip_whitespace_stops by (exact Hw || reflexivity).
  reflexivity.
Qed.

Lemma read_value_array (f : nat) (w r : string) :
  Grammar.ws w ->
  Reader.read_value (S f) (w ++ String "[" r) =
  match JSON.skip_whitespace r with
  | String c' r' =>
      if JSON.char_is 93 c' then Some (TArray [], r') else Reader.read_elements f [] r
  | EmptyString => None
  end.
Proof.
  intros Hw. cbn [Reader.read_value].
  rewrite skip_whitespace_ws, skip_whitespace_stops by (exact Hw || reflexivity).
  reflexivity.
Qed.

Lemma read_value_string (f : nat) (w r : string) :
  Grammar.ws w ->
  Reader.read_value (S f) (w ++ String JSON.dquote r) =
  match Reader.read_chars r with
  | Some (units, r') => Some (TString units, r')
  | None => None
  end.
Proof.
  intros Hw. cbn [Reader.read_value].
  rewrite skip_whitespace_ws, skip_whitespace_stops by (exact Hw || reflexivity).
  reflexivity.
Qed.

Lemma read_value_keyword (f : nat) (w rest : string) :
  Grammar.ws w ->
  Reader.read_value (S f) (w ++ "true" ++ rest) = Some (TBoolean true, rest) /\
  Reader.read_value (S f) (w ++ "false" ++ rest) = Some (TBoolean false, rest) /\
  Reader.read_value (S f) (w ++ "null" ++ rest) = Some (TNull, rest).
Proof.
  intros Hw. cbn [Reader.read_value String.append].
  rewrite !skip_whitespace_ws, !skip_whitespace_stops by (exact Hw || reflexivity).
  repeat split.
Qed.

Lemma read_value_number (f : nat) (w n rest : string) :
  Grammar.ws w -> Grammar.number n -> stops token_goes_on rest = true ->
  Reader.read_value (S f) (w ++ n ++ rest) = Some (TNumber n, rest).
Proof.
  intros Hw Hn Hrest. pose proof (read_number_app n rest Hn Hrest) as Hread.
  destruct (number_starts n Hn) as (c & r & -> & Hc).
  cbn [Reader.read_value String.append] in Hread |- *.
  rewrite skip_whitespace_ws by exact Hw.
  rewrite skip_whitespace_stops
    by (cbn; revert Hc; by_cases_on_char c; reflexivity).
  assert (JSON.char_is 123 c = false /\ JSON.char_is 91 c = false /\
          JSON.char_is 34 c = false /\ JSON.char_is 116 c = false /\
          JSON.char_is 102 c = false /\ JSON.char_is 110 c = false)
    as (-> & -> & -> & -> & -> & ->)
      by (revert Hc; by_cases_on_char c; intros _; repeat split).
  now rewrite Hread.
Qed.

Lemma read_complete :
  (forall v, Grammar.value v -> value_read v) /\
  (forall ms, Grammar.members ms -> members_read ms) /\
  (forall m, Grammar.member m -> member_read m) /\
  (forall es, Grammar.elements es -> elements_read es) /\
  (forall e, Grammar.element e -> element_read e).
Proof.
  apply grammar_mutual.
  - (* an empty object *)
    intros w0 Hw0 fuel w rest Hw Hfuel _. destruct fuel as [|f]; [lia|].
    exists (TObject []). cbn [String.append]. rewrite read_value_object by exact Hw.
    rewrite string_app_assoc, skip_whitespace_ws by exact Hw0. reflexivity.
  - (* an object *)
    intros ms Hms IH fuel w rest Hw Hfuel _. destruct fuel as [|f]; [lia|].
    cbn [String.append]. rewrite read_value_object by exact Hw.
    rewrite string_app_assoc. cbn [String.append].
    destruct (members_start ms (String "}" rest) Hms) as (r0 & ->).
    change (JSON.char_is 125 JSON.dquote) with false. cbn iota.
    apply IH. cbn [String.append String.length] in Hfuel.
    rewrite string_length_app in Hfuel. cbn [String.length] in Hfuel. lia.
  - (* an empty array *)
    intros w0 Hw0 fuel w rest Hw Hfuel _. destruct fuel as [|f]; [lia|].
    exists (TArray []). cbn [String.append]. rewrite read_value_array by exact Hw.
    rewrite string_app_assoc, skip_whitespace_ws by exact Hw0. reflexivity.
  - (* an array *)
    intros es Hes IH fuel w rest Hw Hfuel _. destruct fuel as [|f]; [lia|].
    cbn [String.append]. rewrite read_value_array by exact Hw.
    rewrite string_app_assoc. cbn [String.append].
    destruct (elements_start es (String "]" rest) Hes) as (c & r0 & -> & Hc).
    destruct (value_head_stops c Hc) as (_ & -> & _).
    apply IH. cbn [String.append String.length] in Hfuel.
    rewrite string_length_app in Hfuel. cbn [String.length] in Hfuel. lia.
  - (* a string *)
    intros cs Hcs fuel w rest Hw Hfuel _. destruct fuel as [|f]; [lia|].
    unfold Grammar.string_literal. cbn [String.append].
    rewrite read_value_string by exact Hw.
    rewrite string_app_assoc. cbn [String.append].
    destruct (read_chars_app cs rest Hcs) as (us & ->). now eexists.
  - (* a number *)
    intros n Hn fuel w rest Hw Hfuel Hrest. destruct fuel as [|f]; [lia|].
    eexists. now apply read_value_number.
  - intros fuel w rest Hw Hfuel _. destruct fuel as [|f]; [cbn in Hfuel; lia|].
    eexists. now apply read_value_keyword.
  - intros fuel w rest Hw Hfuel _. destruct fuel as [|f]; [cbn in Hfuel; lia|].
    eexists. now apply read_value_keyword.
  - intros fuel w rest Hw Hfuel _. destruct fuel as [|f]; [cbn in Hfuel; lia|].
    eexists. now apply read_value_keyword.
  - (* one member *)
    intros m Hm IH fuel acc rest Hfuel. destruct fuel as [|f]; [lia|].
    destruct (IH f (String "}" rest)) as (r0 & key & r1 & r2 & t & r3 & H0 & H1 & H2 & H3 & H4);
      [lia | reflexivity |].
    cbn [Reader.read_members]. rewrite H0.
    change (JSON.char_is 34 JSON.dquote) with true. cbn iota.
    rewrite H1, H2. change (JSON.char_is 58 ":") with true. cbn iota.
    rewrite H3, H4. now eexists.
  - (* a member and more *)
    intros m ms Hm IHm Hms IHms fuel acc rest Hfuel. destruct fuel as [|f]; [lia|].
    rewrite !string_length_app in Hfuel. cbn [String.length] in Hfuel.
    rewrite !string_app_assoc. cbn [String.append].
    destruct (IHm f (String "," (ms ++ String "}" rest)))
      as (r0 & key & r1 & r2 & t & r3 & H0 & H1 & H2 & H3 & H4); [lia | reflexivity |].
    cbn [Reader.read_members]. rewrite H0.
    change (JSON.char_is 34 JSON.dquote) with true. cbn iota.
    rewrite H1, H2. change (JSON.char_is 58 ":") with true. cbn iota.
    rewrite H3, H4. change (JSON.char_is 44 ",") with true. cbn iota.
    apply IHms. lia.
  - (* a member *)
    intros w1 cs w2 e Hw1 Hcs Hw2 He IH fuel rest Hfuel Hrest.
    rewrite !string_length_app in Hfuel.
    unfold Grammar.string_literal.
    repeat first [rewrite string_app_assoc | progress cbn [String.append]].
    rewrite skip_whitespace_ws, skip_whitespace_stops by (exact Hw1 || reflexivity).
    destruct (read_chars_app cs (w2 ++ String ":" (e ++ rest)) Hcs) as (us & Hus).
    destruct (IH fuel rest) as (t & r3 & Ht & Hr3); [lia | exact Hrest |].
    exists (cs ++ String JSON.dquote (w2 ++ String ":" (e ++ rest))), us,
      (w2 ++ String ":" (e ++ rest)), (e ++ rest), t, r3.
    split; [reflexivity|]. split; [exact Hus|]. split; [|now split].
    rewrite skip_whitespace_ws, skip_whitespace_stops by (exact Hw2 || reflexivity).
    reflexivity.
  - (* one element *)
    intros e He IH fuel acc rest Hfuel. destruct fuel as [|f]; [lia|].
    destruct (IH f (String "]" rest)) as (t & r & Ht & Hr); [lia | reflexivity |].
    cbn [Reader.read_elements]. rewrite Ht, Hr. now eexists.
  - (* an element and more *)
    intros e es He IHe Hes IHes fuel acc rest Hfuel. destruct fuel as [|f]; [lia|].
    rewrite !string_length_app in Hfuel. cbn [String.length] in Hfuel.
    rewrite !string_app_assoc. cbn [String.append].
    destruct (IHe f (String "," (es ++ String "]" rest))) as (t & r & Ht & Hr);
      [lia | reflexivity |].
    cbn [Reader.read_elements]. rewrite Ht, Hr.
    change (JSON.char_is 44 ",") with true. cbn iota.
    apply IHes. lia.
  - (* an element *)
    intros w1 v w2 Hw1 Hv IH Hw2 fuel rest Hfuel Hrest.
    rewrite !string_length_app in Hfuel. rewrite !string_app_assoc.
    destruct (IH fuel w1 (w2 ++ rest)) as (t & Ht);
      [exact Hw1 | lia | now apply ws_stops |].
    exists t, (w2 ++ rest). split; [exact Ht|].
    rewrite skip_whitespace_ws by exact Hw2.
    apply skip_whitespace_stops. now apply delimited_stops.
Qed.

(** The reader returns a tree exactly on the texts of the grammar. *)
Lemma read_well_formed (text : string) :
  Reader.read text <> None <-> Grammar.well_formed text.
Proof.
  unfold Reader.read, Grammar.well_formed. split.
  - destruct (Reader.read_value (S (String.length text)) text) as [[t rest]|] eqn:Ht;
      [|congruence].
    apply read_sound in Ht as (w & v & Hw & Hv & ->).
    destruct (skip_whitespace_split rest) as (w2 & Hw2 & Hrest).
    destruct (JSON.skip_whitespace rest); [|congruence]. intros _.
    rewrite string_app_nil_r in Hrest. subst rest. now constructor.
  - intros He.
    destruct (proj2 (proj2 (proj2 (proj2 read_complete))) text He
                (S (String.length text)) "") as (t & r & Ht & Hr);
      [lia | reflexivity |].
    rewrite string_app_nil_r in Ht. now rewrite Ht, Hr.
Qed.

(** A text with a fraction, an exponent, a negative zero, an escape above
    [00ff] and white space; and texts that are not well-formed. *)
Example text_with_fraction_well_formed :
  Grammar.well_formed
    ("{" ++ quoted "radius" ++ ": [1.5e+3, -0, " ++ quoted "\u20ac" ++ ", true] }").
Proof. apply read_well_formed. vm_compute. discriminate. Qed.

Example text_without_value_ill_formed :
  ~ Grammar.well_formed ("{" ++ quoted "radius" ++ ":}") /\
  ~ Grammar.well_formed "01" /\
  ~ Grammar.well_formed "[1,]" /\
  ~ Grammar.well_formed "" /\
  ~ Grammar.well_formed "1 2" /\
  ~ Grammar.well_formed "{radius:1}".
Proof.
  repeat split; intros H; apply read_well_formed in H; now apply H.
Qed.

(** *** [JSON.parse] on the values of the model reads texts of the grammar only *)

(** The converse fails: the text [1.5] is well-formed, and its value is not
    one of the model. *)
Example fraction_outside_the_model :
  Grammar.well_formed "1.5" /\ JSON.parse "1.5" = None.
Proof. split; [apply read_well_formed; vm_compute; discriminate | reflexivity]. Qed.

Lemma digit_of_char_is_digit (c : ascii) :
  Reader.is_digit c = match digit_of_char c with Some _ => true | None => false end.
Proof. by_cases_on_char c; reflexivity. Qed.

Lemma parse_digits_rest (s : string) :
  snd (parse_digits s) = snd (Reader.read_digits s).
Proof.
  induction s as [|c s IH]; [reflexivity|]. cbn.
  rewrite digit_of_char_is_digit. destruct (digit_of_char c) as [D|]; [|reflexivity].
  destruct (parse_digits s) as [d r], (Reader.read_digits s) as [ds r']. exact IH.
Qed.

Lemma parse_natural_read (s r : string) (d : uint) :
  JSON.parse_natural s = Some (d, r) ->
  exists i, Reader.read_integer s = Some (i, r) /\
            Reader.read_fraction r = Some ("", r) /\
            Reader.read_exponent r = Some ("", r).
Proof.
  unfold JSON.parse_natural.
  assert (JSON.continues_number r = false ->
          Reader.read_fraction r = Some ("", r) /\ Reader.read_exponent r = Some ("", r))
    as Hstop.
  { destruct r as [|c r]; [now split|]. cbn. unfold JSON.char_is.
    destruct (N_of_ascii c =? 46)%N; [discriminate|].
    destruct (N_of_ascii c =? 101)%N; [discriminate|].
    destruct (N_of_ascii c =? 69)%N; [discriminate|]. now split. }
  destruct s as [|c s]; [discriminate|]. cbn [parse_digits].
  pose proof (parse_digits_rest s) as Hrest.
  destruct (digit_of_char c) as [D|] eqn:HD; [|discriminate].
  destruct (parse_digits s) as [d0 r0] eqn:Hs. cbn [snd] in Hrest.
  destruct (Reader.read_digits s) as [ds r1] eqn:Hds. cbn [snd] in Hrest. subst r1.
  revert HD. by_cases_on_char c; intros HD; vm_compute in HD; injection HD as <-;
    cbn [Reader.read_integer];
    try change (JSON.char_is 48 _) with false;
    try change (JSON.char_is 48 _) with true;
    try change (Reader.is_onenine _) with true; cbn iota; rewrite ?Hds.
  all: try (destruct (JSON.continues_number r0) eqn:Hc; [discriminate|];
            intros [= <- <-]; eexists; split; [reflexivity | now apply Hstop]).
  (* the digit 0 *)
  destruct d0; try discriminate.
  destruct (JSON.continues_number r0) eqn:Hc; [discriminate|]. intros [= <- <-].
  assert (s = r0) as ->.
  { destruct s as [|c' s']; cbn in Hs; [now injection Hs as <-|].
    destruct (digit_of_char c') as [D'|] eqn:HD'; [|now injection Hs as <-].
    destruct (parse_digits s') as [d1 r1]. exfalso. revert HD' Hs. clear.
    by_cases_on_char c'; intros HD'; vm_compute in HD'; injection HD' as <-;
      discriminate. }
  eexists. split; [reflexivity | now apply Hstop].
Qed.

Lemma parse_number_read (s r : string) (z : Z) :
  JSON.parse_number s = Some (z, r) -> exists n, Reader.read_number s = Some (n, r).
Proof.
  unfold JSON.parse_number, Reader.read_number. destruct s as [|c s]; [discriminate|].
  unfold JSON.char_is. destruct (N_of_ascii c =? 45)%N.
  - destruct (JSON.parse_natural s) as [[d r']|] eqn:Hn; [|discriminate].
    intros [= _ <-]. apply parse_natural_read in Hn as (i & -> & -> & ->). now eexists.
  - destruct (JSON.parse_natural (String c s)) as [[d r']|] eqn:Hn; [|discriminate].
    intros [= _ <-]. apply parse_natural_read in Hn as (i & -> & -> & ->). now eexists.
Qed.

Lemma parse_prepend_some (c : ascii) (x : option (string * string)) (str r : string) :
  JSON.prepend c x = Some (str, r) -> exists str', x = Some (str', r).
Proof.
  destruct x as [[str' r']|]; [|discriminate]. intros [= _ <-]. now exists str'.
Qed.

Lemma parse_chars_read (s : string) :
  forall (str r : string),
    JSON.parse_chars s = Some (str, r) -> exists us, Reader.read_chars s = Some (us, r).
Proof.
  assert (forall n : nat, forall s : string, (String.length s < n)%nat ->
            forall str r, JSON.parse_chars s = Some (str, r) ->
            exists us, Reader.read_chars s = Some (us, r)) as H.
  { clear s. induction n as [|n IH]; [lia|]. intros [|c s] Hlen str r; [discriminate|].
    cbn [JSON.parse_chars Reader.read_chars]. cbn in Hlen.
    destruct (N_of_ascii c =? 34)%N; [intros [= _ <-]; now eexists|].
    destruct (N_of_ascii c =? 92)%N.
    - destruct s as [|e s]; [discriminate|]. cbn in Hlen.
      destruct (JSON.unescape e) as [ch|].
      + intros Hp. apply parse_prepend_some in Hp as (str' & Hp).
        apply IH in Hp as (us & ->); [now eexists | lia].
      + destruct (N_of_ascii e =? 117)%N; [|discriminate].
        destruct s as [|h1 [|h2 [|h3 [|h4 s]]]]; try discriminate. cbn in Hlen.
        destruct (JSON.hex4 h1 h2 h3 h4) as [code|]; [|discriminate].
        destruct (code <? 256)%N; [|discriminate].
        intros Hp. apply parse_prepend_some in Hp as (str' & Hp).
        apply IH in Hp as (us & ->); [now eexists | lia].
    - destruct (N_of_ascii c <? 32)%N; [discriminate|].
      intros Hp. apply parse_prepend_some in Hp as (str' & Hp).
      apply IH in Hp as (us & ->); [now eexists | lia]. }
  exact (H (S (String.length s)) s (Nat.lt_succ_diag_r _)).
Qed.

Lemma parse_read (fuel : nat) :
  (forall s v r, JSON.parse_value fuel s = Some (v, r) ->
     exists t, Reader.read_value fuel s = Some (t, r)) /\
  (forall acc acc' s v r, JSON.parse_elements fuel acc s = Some (v, r) ->
     exists t, Reader.read_elements fuel acc' s = Some (t, r)) /\
  (forall acc acc' s v r, JSON.parse_members fuel acc s = Some (v, r) ->
     exists t, Reader.read_members fuel acc' s = Some (t, r)).
Proof.
  induction fuel as [|fuel (IHv & IHe & IHm)]; [repeat split; discriminate|].
  split; [|split].
  - intros s v r. cbn [JSON.parse_value Reader.read_value].
    destruct (JSON.skip_whitespace s) as [|c s1]; [discriminate|].
    destruct (JSON.char_is 123 c).
    { destruct (JSON.skip_whitespace s1) as [|c' s2]; [discriminate|].
      destruct (JSON.char_is 125 c'); [intros [= _ <-]; now eexists|].
      apply IHm. }
    destruct (JSON.char_is 91 c).
    { destruct (JSON.skip_whitespace s1) as [|c' s2]; [discriminate|].
      destruct (JSON.char_is 93 c'); [intros [= _ <-]; now eexists|].
      apply IHe. }
    destruct (JSON.char_is 34 c).
    { destruct (JSON.parse_chars s1) as [[str r']|] eqn:Hc; [|discriminate].
      intros [= _ <-]. apply parse_chars_read in Hc as (us & ->). now eexists. }
    destruct (JSON.char_is 116 c).
    { destruct (JSON.keyword "true" (String c s1)); [|discriminate].
      intros [= _ <-]. now eexists. }
    destruct (JSON.char_is 102 c).
    { destruct (JSON.keyword "false" (String c s1)); [|discriminate].
      intros [= _ <-]. now eexists. }
    destruct (JSON.char_is 110 c).
    { destruct (JSON.keyword "null" (String c s1)); [|discriminate].
      intros [= _ <-]. now eexists. }
    destruct (JSON.parse_number (String c s1)) as [[z r']|] eqn:Hn; [|discriminate].
    intros [= _ <-]. apply parse_number_read in Hn as (n & ->). now eexists.
  - intros acc acc' s v r. cbn [JSON.parse_elements Reader.read_elements].
    destruct (JSON.parse_value fuel s) as [[x r1]|] eqn:Hv; [|discriminate].
    apply IHv in Hv as (t & ->).
    destruct (JSON.skip_whitespace r1) as [|c r2]; [discriminate|].
    destruct (JSON.char_is 44 c); [apply IHe|].
    destruct (JSON.char_is 93 c); [|discriminate]. intros [= _ <-]. now eexists.
  - intros acc acc' s v r. cbn [JSON.parse_members Reader.read_members].
    destruct (JSON.skip_whitespace s) as [|q s1]; [discriminate|].
    destruct (JSON.char_is 34 q); [|discriminate].
    destruct (JSON.parse_chars s1) as [[key r1]|] eqn:Hk; [|discriminate].
    apply parse_chars_read in Hk as (us & ->).
    destruct (JSON.skip_whitespace r1) as [|c r2]; [discriminate|].
    destruct (JSON.char_is 58 c); [|discriminate].
    destruct (JSON.parse_value fuel r2) as [[x r3]|] eqn:Hv; [|discriminate].
    apply IHv in Hv as (t & ->).
    destruct (JSON.skip_whitespace r3) as [|c' r4]; [discriminate|].
    destruct (JSON.char_is 44 c'); [apply IHm|].
    destruct (JSON.char_is 125 c'); [|discriminate]. intros [= _ <-]. now eexists.
Qed.

(** A text on which [JSON.parse] returns a value of the model is
    well-formed. *)
Lemma parse_well_formed (text : string) (v : value) :
  JSON.parse text = Some v -> Grammar.well_formed text.
Proof.
  unfold JSON.parse. intros H. apply read_well_formed. unfold Reader.read.
  destruct (JSON.parse_value (S (String.length text)) text) as [[x rest]|] eqn:Hv;
    [|discriminate].
  apply parse_read in Hv as (t & ->).
  destruct (JSON.skip_whitespace rest); [discriminate | discriminate].
Qed.

(** So [fromJSON] with the values of the model throws the [SyntaxError] on
    every text that is not well-formed. *)
Lemma fromJSON_parse_ill_formed (proto : value) (text : string) :
  ~ Grammar.well_formed text -> fromJSON JSON.parse proto text = Throw SyntaxError.
Proof.
  intros H. unfold fromJSON. destruct (JSON.parse text) as [v|] eqn:Hv; [|reflexivity].
  exfalso. apply H. now apply (parse_well_formed text v).
Qed.

(** A text with a key and no value, and a text with a comma and no element. *)
Lemma fromJSON_parse_ill_formed_witness :
  ~ Grammar.well_formed ("{" ++ quoted "radius" ++ ":}") /\
  fromJSON JSON.parse Circle_prototype ("{" ++ quoted "radius" ++ ":}") = Throw SyntaxError /\
  ~ Grammar.well_formed "[1,]" /\
  fromJSON JSON.parse Circle_prototype "[1,]" = Throw SyntaxError.
Proof.
  assert (~ Grammar.well_formed ("{" ++ quoted "radius" ++ ":}")) as H1.
  { intros H. apply read_well_formed in H. now apply H. }
  assert (~ Grammar.well_formed "[1,]") as H2.
  { intros H. apply read_well_formed in H. now apply H. }
  split; [exact H1|]. split; [exact (fromJSON_parse_ill_formed Circle_prototype _ H1)|].
  split; [exact H2|]. exact (fromJSON_parse_ill_formed Circle_prototype _ H2).
Defined.

(** C7.  For every text, [fromJSON] throws a [SyntaxError] if and only if the
    text is not well-formed, that is, not a text of the JSON grammar.
    [JSON.parse] throws the error while it reads the text, and [fromJSON],
    which catches nothing, ends with it; on a well-formed text
    [Object.setPrototypeOf] runs, and it throws no [SyntaxError].  This holds
    for every template and whatever value the platform builds from the tree
    of a well-formed text. *)
Theorem fromJSON_SyntaxError_iff (build : tree -> value) (proto : value) (text : string) :
  fromJSON (JSON_parse_with build) proto text = Throw SyntaxError
  <-> ~ Grammar.well_formed text.
Proof.
  unfold fromJSON, JSON_parse_with. rewrite <- read_well_formed.
  destruct (Reader.read text) as [t|]; split; intros H.
  - now apply setPrototypeOf_never_SyntaxError in H.
  - exfalso. apply H. discriminate.
  - intros H'. now apply H'.
  - reflexivity.
Qed.
